(** * krzos motion control: a shallow embedding and its checked properties

  The development follows [hardware/motion_controller.py] (the dispatcher,
  the steering-mode state machine, the Chadburn speed ladder, the AFRS
  geometry and the heading routine) and [hardware/irq_clock.py] (the
  callback registry).

  Conventions of the embedding:
  - a Python [float] is an exact rational ([Q]) where the code adds,
    multiplies and compares speeds, ratios and angles.  Rounding in the last
    place is not modelled there; the comparisons that the theorems turn on
    are far from their thresholds, and the one place where binary64 rounding
    shows ([steering_translation] at 45) is checked on binary64 itself;
  - the geometry solver is written once over its arithmetic, and read
    twice: on binary64 floats, which is what the code computes and what the
    steering method takes its whole degrees from, and in exact real
    arithmetic, which is what the geometric properties are stated in;
  - a Python [int] is a [Z];
  - a method of [MotionController] is a computation in the monad [M]: it
    threads the controller's attributes, the hardware owned by the
    collaborators, and the log of calls made to them, and it either returns
    or raises;
  - classes of the repository that live outside the two files (the motor,
    servo and stop-handler drivers, [core.chadburn], [core.convert],
    [core.util]) appear as the type classes [Collaborators] and
    [Chadburn.Table], or as definitions whose comment starts with
    "Modelled from the spec";
  - log lines, and the monitor and screen toggles, are left out. *)

From Stdlib Require Import Floats.
From Stdlib Require Import ZArith QArith Qabs Qminmax Qround Reals Psatz Lia List String.
From stdpp Require Import gmap strings list.

Set Default Proof Using "Type".

(* ===================================================================== *)
(** * Part I: the embedding                                               *)
(* ===================================================================== *)

(** ** Python values the code relies on *)

Module Py.

(** The exceptions the two files raise or let through. *)
Inductive Exn : Type :=
| ValueError (msg : string)
| TypeError (msg : string)
| NameError (name : string)
| AttributeError (name : string)
| ZeroDivisionError (msg : string)
| OverflowError (msg : string)
| Exception (msg : string)
| KeyboardInterrupt.

(** How a call ends: it returns, or it raises.  [Unfinished] is the third
    answer of a model that is given the inputs of a loop as a finite list: the
    list ran out with the loop still going. *)
Inductive Outcome (A : Type) : Type :=
| Returned (a : A)
| Raised (e : Exn)
| Unfinished.
Arguments Returned {A} a.
Arguments Raised {A} e.
Arguments Unfinished {A}.

(** [int(x)] on a float: truncation toward zero. *)
Definition int (x : Q) : Z := Z.quot (Qnum x) (Zpos (Qden x)).

(** [round(x)] on a float: to the nearest integer, a tie to the even one.
    The code does not call it; the spec's wording of [change_speed] does. *)
Definition round (x : Q) : Z :=
  let f := Qfloor x in
  match Qcompare (x - inject_Z f) (1 # 2) with
  | Lt => f
  | Gt => (f + 1)%Z
  | Eq => if Z.even f then f else (f + 1)%Z
  end.

(** [math.isclose(a, b, rel_tol=1e-09, abs_tol=abs_tol)]:
    [abs(a-b) <= max(rel_tol * max(abs(a), abs(b)), abs_tol)]. *)
Definition rel_tol : Q := 1e-9.
Definition isclose (a b abs_tol : Q) : bool :=
  Qle_bool (Qabs (a - b))
           (Qmax (rel_tol * Qmax (Qabs a) (Qabs b)) abs_tol).

(** [list.remove(x)]: drops the first element equal to [x]; [None] stands
    for the [ValueError] Python raises when there is none. *)
Fixpoint list_remove {A} `{EqDecision A} (x : A) (l : list A) : option (list A) :=
  match l with
  | [] => None
  | y :: l' =>
      if decide (y = x) then Some l'
      else match list_remove x l' with
           | Some r => Some (y :: r)
           | None => None
           end
  end.

(** Python's [float] is IEEE 754 binary64.  [float(n)] for an [int], rounded
    to nearest. *)
Definition float_of_Z (z : Z) : PrimFloat.float :=
  SF2Prim (binary_normalize prec emax z 0 false).

(** The float of a number that the model holds as a rational: exact when
    the number is an [int] or a [float] of less than 2^53 in size with a
    denominator below 2^53, rounded to nearest otherwise. *)
Definition float_of_Q (q : Q) : PrimFloat.float :=
  PrimFloat.div (float_of_Z (Qnum q)) (float_of_Z (Zpos (Qden q))).

(** [int(x)] on a binary64 float: truncation toward zero; an infinity and a
    not-a-number raise. *)
Definition int_of_float (x : PrimFloat.float) : Exn + Z :=
  match Prim2SF x with
  | S754_zero _ => inr 0%Z
  | S754_infinity _ => inl (OverflowError "cannot convert float infinity to integer")
  | S754_nan => inl (ValueError "cannot convert float NaN to integer")
  | S754_finite s m e =>
      let magnitude :=
        if (0 <=? e)%Z then Z.shiftl (Zpos m) e else Z.shiftr (Zpos m) (- e) in
      inr (if s then (- magnitude)%Z else magnitude)
  end.

End Py.

(** ** hardware/irq_clock.py *)

Module IrqClock.
Import Py.

(** A callback is a Python callable; the registry compares callbacks with
    [in] and [list.remove], that is by equality, so a callable is
    represented by an identifier.  The argument of the two methods may also
    be a value that is not callable ([None], for one). *)
Inductive Value : Type :=
| None_                      (* None: not callable, falsy *)
| Callable (id : nat).       (* a function or bound method: truthy *)

#[global] Instance Value_eq_dec : EqDecision Value.
Proof. solve_decision. Defined.

Definition callable (v : Value) : bool :=
  match v with Callable _ => true | None_ => false end.
Definition truthy (v : Value) : bool :=
  match v with Callable _ => true | None_ => false end.

(** The attributes of [IrqClock] that the registry methods touch. *)
Record IrqClock : Type := {
  __callbacks : list Value;
  __lf_callbacks : list Value;
}.

(** [add_callback(self, callback)] *)
Definition add_callback (callback : Value) (self : IrqClock)
  : Outcome unit * IrqClock :=
  if negb (callable callback) then
    (Raised (Exception "callback argument is not a function."), self)
  else if truthy callback then
    if bool_decide (callback ∈ __callbacks self) then
      (Raised (Exception "callback already exists."), self)
    else
      (Returned tt,
       {| __callbacks := __callbacks self ++ [callback];
          __lf_callbacks := __lf_callbacks self |})
  else (Raised (TypeError "null callback argument"), self).

(** [remove_callback(self, callback)]: [self.__callbacks.remove(callback)]
    with nothing around it, so the [ValueError] of [list.remove] reaches the
    caller. *)
Definition remove_callback (callback : Value) (self : IrqClock)
  : Outcome unit * IrqClock :=
  if truthy callback then
    match list_remove callback (__callbacks self) with
    | Some l =>
        (Returned tt,
         {| __callbacks := l; __lf_callbacks := __lf_callbacks self |})
    | None =>
        (Raised (ValueError "list.remove(x): x not in list"), self)
    end
  else (Raised (TypeError "null callback argument"), self).

End IrqClock.


(** ** The enumerations of [core] *)

Module Orientation.
(** Modelled from the spec: core/orientation.py is not among the sources.
    "Orientation identifies a drivetrain unit: one of a fixed set of positions
    (e.g. port/starboard, forward/aft) each with a side (port/starboard/
    center)."  The members named by the source are PORT, STBD, CNTR, SFWD. *)
Inductive t : Type := PORT | STBD | CNTR | PFWD | SFWD | PAFT | SAFT.

#[global] Instance eq_dec : EqDecision t.
Proof. solve_decision. Defined.

Definition side (o : t) : t :=
  match o with
  | PORT | PFWD | PAFT => PORT
  | STBD | SFWD | SAFT => STBD
  | CNTR => CNTR
  end.
End Orientation.

Module Rotation.
(** The members of core/rotation.py that the source names. *)
Inductive t : Type := STOPPED | CLOCKWISE | COUNTER_CLOCKWISE.

#[global] Instance eq_dec : EqDecision t.
Proof. solve_decision. Defined.
End Rotation.

Module SteeringMode.
(** [AFRS], [ROTATE] and [SKID] are the modes [set_steering_mode] knows.
    Python checks no type at the call, so the argument may be any other
    object: [Other tag] is such an object ([tag] tells two of them apart). *)
Inductive t : Type := AFRS | ROTATE | SKID | Other (tag : nat).

#[global] Instance eq_dec : EqDecision t.
Proof. solve_decision. Defined.

Definition supported (m : t) : bool :=
  match m with AFRS | ROTATE | SKID => true | Other _ => false end.
End SteeringMode.

Module Chadburn.
(** A member of the [Chadburn] enumeration: its index [num] and its signed
    speed fraction. *)
Record t : Type := { num : Z; speed : Q }.

(** What [increment_speed] and [_reposition_motors] use of core/chadburn.py,
    which is not among the sources: the members in declaration order and the
    four the source names.  [increment_speed]'s docstring says the
    enumeration also has MAXIMUM members beyond FULL_ASTERN and FULL_AHEAD. *)
Class Table : Type := {
  members : list t;
  FULL_ASTERN : t;
  STOP : t;
  SLOW_AHEAD : t;
  FULL_AHEAD : t;
}.

Section Lookup.
Context {T : Table}.

(** Modelled from the spec: [Chadburn.get_closest_value] is "closest value
    lookup [that] maps an arbitrary measured speed to the nearest level",
    a "closest-match lookup by absolute difference".  The first member at the
    least distance is taken, as Python's [min(..., key=...)] does. *)
Definition closer (value : Q) (best c : t) : t :=
  if Qlt_le_dec (Qabs (speed c - value)) (Qabs (speed best - value))
  then c else best.

Definition get_closest_value (value : Q) : t :=
  match members with
  | [] => STOP
  | c :: rest => fold_left (closer value) rest c
  end.

(** Modelled from the spec: [Chadburn.from_index] is the table lookup by
    ordinal ("a fixed ordered table (array indexed by ordinal)"); [None]
    stands for the error of an index that no member has. *)
Definition from_index (index : Z) : option t :=
  find (fun c => Z.eqb (num c) index) members.

End Lookup.
End Chadburn.

(** ** The motors and their named speed multipliers *)

(** A speed multiplier is a Python lambda; the two that [MotionController]
    builds close over its port and starboard ratio, any other is foreign to
    it. *)
Inductive SpeedLambda : Type :=
| _port_steering_lambda
| _stbd_steering_lambda
| foreign_lambda (id : nat).

Record Motor : Type := {
  orientation : Orientation.t;
  target_speed : Q;
  speed_multipliers : gmap string SpeedLambda;
}.

(** Modelled from the spec: hardware/motor.py is not among the sources.
    "Names used as set keys: installing a multiplier with an existing name is
    idempotent-checked (no duplicate installation); removal by name is a no-op
    if absent."  "installing ("steering", f) then ("steering", g) without
    removal raises DuplicateRegistration." *)
Definition has_speed_multiplier (name : string) (m : Motor) : bool :=
  bool_decide (is_Some (speed_multipliers m !! name)).

Definition remove_speed_multiplier (name : string) (m : Motor) : Motor :=
  {| orientation := orientation m;
     target_speed := target_speed m;
     speed_multipliers := delete name (speed_multipliers m) |}.

Definition add_speed_multiplier (name : string) (f : SpeedLambda) (m : Motor)
  : Py.Exn + Motor :=
  if has_speed_multiplier name m then
    inl (Py.Exception "speed multiplier already exists.")
  else
    inr {| orientation := orientation m;
           target_speed := target_speed m;
           speed_multipliers := <[name := f]> (speed_multipliers m) |}.

(** What the controller reads of the hardware its collaborators own:
    [motor_controller.get_motors()], [servo_controller.is_rotated] and
    [motor_controller.is_stopped]. *)
Record Hardware : Type := {
  motors : list Motor;
  is_rotated : bool;
  is_stopped : bool;
}.

(** ** Messages of the bus *)

Module Group.
Inductive t : Type := GAMEPAD | BUMPER | IMU | STOP | VELOCITY | OTHER.

#[global] Instance eq_dec : EqDecision t.
Proof. solve_decision. Defined.
End Group.

Record Event : Type := {
  event_num : Z;
  priority : Z;
  group : Group.t;
}.

(** The value of a BUMPER message: the sensor array's data. *)
Record SensorData : Type := {
  events : list Event;
  fop_cm : Z;
  fos_cm : Z;
}.

Inductive Value : Type :=
| IntValue (v : Z)
| SensorValue (d : SensorData).

Record Message : Type := {
  event : Event;
  value : Value;
}.

(** ** Calls to the collaborators *)

(** One constructor per method of a collaborator that the modelled code
    calls.  [self_reposition] marks an entry into
    [MotionController.reposition]. *)
Inductive Call : Type :=
| stop_handler_process_message (message : Message)
| stop_handler_stop
| stop_handler_halt
| motor_controller_set_speed (o : Orientation.t) (speed : Q)
| motor_controller_set_motor_speed (o : Orientation.t) (speed : Q)
| motor_controller_rotate (r : Rotation.t)
| motor_controller_reposition (arg : SteeringMode.t + Rotation.t)
| motor_controller_clear_speed_multipliers
| servo_controller_set_mode (m : SteeringMode.t)
| icm20948_poll
| player_play (sound : string)
| time_sleep (sec : Q)
| rate_wait
| signal_signal_SIGINT
| subscriber_process_message (message : Message)
| self_reposition (m : SteeringMode.t)
| motor_controller_stop
| self_disable
| self_close.

#[global] Instance Call_is_reposition_dec (c : Call) :
  Decision (∃ m, c = self_reposition m).
Proof.
  destruct c; try (right; intros [? ?]; discriminate).
  left; eauto.
Defined.

(** The code outside the sources, as far as the modelled methods depend on
    it: what a call does to the hardware, the mean speed the motor controller
    measures, two pure helpers of [core], and the interleaving that the
    scheduler gives the ramp thread of [reposition]. *)
Class Collaborators : Type := {
  effect : Call → Hardware → Hardware;
  get_mean_speed : Orientation.t → Hardware → Q;
  frange : Q → Q → Q → list Q;                    (* Util.frange *)
  difference_in_degrees : Q → Q → Q;              (* Convert.difference_in_degrees *)
  (* the scheduler: how many calls the ramp thread of [reposition] makes
     before the caller's sleep starts, and how many more before the caller's
     servo command, given the log so far *)
  thread_head_start : list Call → nat * nat;
}.

(** ** The controller and its monad *)

Record Config : Type := {
  afrs_max_ratio : Q;
  initial_reposition_delay_sec : Q;
  reposition_delay_sec : Q;
}.

(** [self._imu.icm20948], as far as [set_heading] asks. *)
Record Imu : Type := { is_calibrated : bool }.

(** The attributes of a [MotionController] that the modelled methods read or
    write, the hardware, and the log of calls. *)
Record MotionController : Type := {
  _config : Config;
  _steering_mode : option SteeringMode.t;
  _chadburn_index : Z;
  _chadburn : Chadburn.t;
  _digital_pot : bool;   (* whether [__init__] assigned the attribute, lines 82-88 *)
  _imu : option Imu;
  hardware : Hardware;
  calls : list Call;
}.

Definition with_steering_mode (m : option SteeringMode.t) (s : MotionController) :=
  {| _config := _config s; _steering_mode := m;
     _chadburn_index := _chadburn_index s; _chadburn := _chadburn s;
     _digital_pot := _digital_pot s;
     _imu := _imu s; hardware := hardware s; calls := calls s |}.

Definition with_chadburn_index (i : Z) (s : MotionController) :=
  {| _config := _config s; _steering_mode := _steering_mode s;
     _chadburn_index := i; _chadburn := _chadburn s;
     _digital_pot := _digital_pot s;
     _imu := _imu s; hardware := hardware s; calls := calls s |}.

Definition with_chadburn (c : Chadburn.t) (s : MotionController) :=
  {| _config := _config s; _steering_mode := _steering_mode s;
     _chadburn_index := _chadburn_index s; _chadburn := c;
     _digital_pot := _digital_pot s;
     _imu := _imu s; hardware := hardware s; calls := calls s |}.

Definition with_hardware (h : Hardware) (s : MotionController) :=
  {| _config := _config s; _steering_mode := _steering_mode s;
     _chadburn_index := _chadburn_index s; _chadburn := _chadburn s;
     _digital_pot := _digital_pot s;
     _imu := _imu s; hardware := h; calls := calls s |}.

Definition with_calls (l : list Call) (s : MotionController) :=
  {| _config := _config s; _steering_mode := _steering_mode s;
     _chadburn_index := _chadburn_index s; _chadburn := _chadburn s;
     _digital_pot := _digital_pot s;
     _imu := _imu s; hardware := hardware s; calls := l |}.

Definition with_motors (ms : list Motor) (h : Hardware) : Hardware :=
  {| motors := ms; is_rotated := is_rotated h; is_stopped := is_stopped h |}.

(** A method body: from the controller before to how the call ends and the
    controller after.  A raised exception keeps the mutations made so far. *)
Definition M (A : Type) : Type :=
  MotionController → Py.Outcome A * MotionController.

Definition ret {A} (a : A) : M A := fun s => (Py.Returned a, s).

Definition bind {A B} (m : M A) (k : A → M B) : M B :=
  fun s =>
    match m s with
    | (Py.Returned a, s') => k a s'
    | (Py.Raised e, s') => (Py.Raised e, s')
    | (Py.Unfinished, s') => (Py.Unfinished, s')
    end.

Definition raise {A} (e : Py.Exn) : M A := fun s => (Py.Raised e, s).

Definition get : M MotionController := fun s => (Py.Returned s, s).

Definition modify (f : MotionController → MotionController) : M unit :=
  fun s => (Py.Returned tt, f s).

Declare Scope py_scope.
Delimit Scope py_scope with py.
Notation "x <- c1 ;; c2" := (bind c1 (fun x => c2))
  (at level 100, c1 at next level, right associativity) : py_scope.
Notation "c1 ;; c2" := (bind c1 (fun _ => c2))
  (at level 100, right associativity) : py_scope.
Open Scope py_scope.

(** [for x in xs: body(x)] *)
Fixpoint for_each {A} (xs : list A) (body : A → M unit) : M unit :=
  match xs with
  | [] => ret tt
  | x :: xs' => body x ;; for_each xs' body
  end.

(** [try: body / except <those handler answers to>: ... / finally: final].
    [handler e = None] when no [except] clause matches [e]. *)
Definition try_except_finally {A} (body : M A)
    (handler : Py.Exn → option (M A)) (final : M unit) : M A :=
  fun s =>
    let after_body :=
      match body s with
      | (Py.Raised e, s1) =>
          match handler e with
          | Some h => h s1
          | None => (Py.Raised e, s1)
          end
      | r => r
      end in
    match after_body with
    | (Py.Unfinished, s1) => (Py.Unfinished, s1)
    | (r, s1) =>
        match final s1 with
        | (Py.Returned _, s2) => (r, s2)
        | (Py.Raised e, s2) => (Py.Raised e, s2)
        | (Py.Unfinished, s2) => (Py.Unfinished, s2)
        end
    end.

Section Methods.
Context {collaborators : Collaborators} {table : Chadburn.Table}.
Local Open Scope Q_scope.

(** A call to a collaborator: it is logged and has its effect on the
    hardware. *)
Definition call (c : Call) : M unit :=
  modify (fun s =>
    with_calls (calls s ++ [c]) (with_hardware (effect c (hardware s)) s)).

(** A mutation of every motor in [get_motors()], in place. *)
Definition update_motors (f : list Motor → list Motor) : M unit :=
  modify (fun s => with_hardware (with_motors (f (motors (hardware s))) (hardware s)) s).

(** [_prepare_to_move(self)].  The monitor and screen toggles are display
    only and left out. *)
Definition _prepare_to_move : M unit :=
  call motor_controller_clear_speed_multipliers.

(** *** The dispatcher: [process_message], lines 183-317 *)

(** The BUMPER branch, lines 205-235. *)
Definition bumper_priority (_events : list Event) : Z :=
  fold_left (fun _priority _event => Z.min _priority (priority _event)) _events 0%Z.

Definition process_bumper (_sensor_data : SensorData) : M unit :=
  let _priority := bumper_priority (events _sensor_data) in
  if Z.eqb _priority 10 then call stop_handler_halt
  else call stop_handler_stop.

(** [_handle_imu_event] *)
Definition _handle_imu_event (message : Message) : M unit :=
  call stop_handler_stop ;;
  call (player_play "CHATTER_3").

(** [process_message]: the three branches keyed on the event's group are
    modelled; the branches keyed on the event's number (core/event.py is not
    among the sources) are the argument [by_event_num]. *)
Definition process_message (by_event_num : Message → M unit)
    (message : Message) : M unit :=
  (match group (event message) with
   | Group.STOP =>
       match value message with
       | IntValue 0 =>
           s <- get ;;
           if is_stopped (hardware s) then ret tt
           else call (stop_handler_process_message message)
       | _ => ret tt
       end
   | Group.BUMPER =>
       match value message with
       | SensorValue _sensor_data => process_bumper _sensor_data
       | IntValue _ => raise (Py.AttributeError "events")
       end
   | Group.IMU =>
       s <- get ;;
       if is_stopped (hardware s) then ret tt
       else _handle_imu_event message
   | _ => by_event_num message
   end) ;;
  call (subscriber_process_message message).

(** *** [steering_translation], lines 348-354 *)
Definition steering_translation (self : MotionController) (value : Q) : Q :=
  1.0 + (value / 45.0 * (afrs_max_ratio (_config self) - 1.0)).

(** The same expression on binary64 floats, the arithmetic Python runs it
    in; [self_afrs_max_ratio] is [self._afrs_max_ratio]. *)
Definition steering_translation_binary64 (self_afrs_max_ratio value : PrimFloat.float)
  : PrimFloat.float :=
  PrimFloat.add 1.0%float
    (PrimFloat.mul (PrimFloat.div value 45.0%float)
                   (PrimFloat.sub self_afrs_max_ratio 1.0%float)).

(** *** The reposition protocol, lines 464-511 *)

(** [_reposition_motors], the body of the ramp thread, lines 489-511: the
    calls it makes, in its order.  It reads the configuration and nothing
    else, so its calls are the same whenever the scheduler lets them run. *)
Definition _reposition_motors (self : MotionController)
    (steering_mode : SteeringMode.t) : list Call :=
  let _step_delay_sec := reposition_delay_sec (_config self) / 20.0 in
  let _min_speed := 0.09 in
  let _max_speed := Chadburn.speed Chadburn.SLOW_AHEAD in
  let _speed_step := (_max_speed - _min_speed) / 10.0 in
  [motor_controller_reposition (inl steering_mode)]
  (* ramp up *)
  ++ flat_map (fun _speed =>
       [ motor_controller_set_speed Orientation.PORT _speed;
         motor_controller_set_speed Orientation.STBD _speed;
         time_sleep _step_delay_sec ])
       (frange _min_speed _max_speed _speed_step)
  (* ramp down *)
  ++ flat_map (fun _speed =>
       [ motor_controller_set_speed Orientation.PORT _speed;
         motor_controller_set_speed Orientation.STBD _speed;
         time_sleep _step_delay_sec ])
       (frange _max_speed _min_speed (-1.0 * _speed_step))
  ++ [ motor_controller_set_speed Orientation.PORT 0.0;
       motor_controller_set_speed Orientation.STBD 0.0;
       motor_controller_reposition (inr Rotation.STOPPED) ].

(** [reposition], lines 464-486: it starts the ramp thread, sleeps, commands
    the servos and joins the thread.  The thread runs beside the caller from
    its start: of its calls the first [before_sleep] are made before the
    caller's sleep starts, the next [before_servo] before the caller's servo
    command, and the rest by the time of the join.  The two numbers are the
    scheduler's ([thread_head_start]); with more than the thread has calls,
    the thread is done by then. *)
Definition reposition (steering_mode : SteeringMode.t) : M unit :=
  s <- get ;;
  call (self_reposition steering_mode) ;;
  let _repo_thread := _reposition_motors s steering_mode in
  let '(before_sleep, before_servo) := thread_head_start (calls s) in
  (* _repo_thread.start() *)
  for_each (take before_sleep _repo_thread) call ;;
  call (time_sleep (initial_reposition_delay_sec (_config s))) ;;
  for_each (take before_servo (drop before_sleep _repo_thread)) call ;;
  (if decide (steering_mode = SteeringMode.ROTATE)
   then call (servo_controller_set_mode SteeringMode.ROTATE)
   else call (servo_controller_set_mode SteeringMode.SKID)) ;;
  (* _repo_thread.join() *)
  for_each (drop before_servo (drop before_sleep _repo_thread)) call.

(** *** [set_steering_mode], lines 976-1035 *)

Definition PORT_AFRS_STEERING_LAMBDA_NAME : string := "__port_afrs_steering".
Definition STBD_AFRS_STEERING_LAMBDA_NAME : string := "__stbd_afrs_steering".

(** Lines 1004-1008: the loop that removes the lambdas of the mode left. *)
Definition remove_mode_lambdas (_motor : Motor) : Motor :=
  if has_speed_multiplier "steering" _motor then
    remove_speed_multiplier "stop" (remove_speed_multiplier "steering" _motor)
  else _motor.

(** Lines 1016-1027: the loop that installs the AFRS lambdas.  It returns the
    motors as the loop leaves them and the exception that ended it, if any. *)
Fixpoint install_afrs_lambdas (ms : list Motor) : list Motor * option Py.Exn :=
  match ms with
  | [] => ([], None)
  | _motor :: rest =>
      let go name lam :=
        if has_speed_multiplier name _motor then
          let '(rest', e) := install_afrs_lambdas rest in (_motor :: rest', e)
        else
          match add_speed_multiplier name lam _motor with
          | inr _motor' =>
              let '(rest', e) := install_afrs_lambdas rest in (_motor' :: rest', e)
          | inl e => (_motor :: rest, Some e)
          end in
      match Orientation.side (orientation _motor) with
      | Orientation.PORT => go PORT_AFRS_STEERING_LAMBDA_NAME _port_steering_lambda
      | Orientation.STBD => go STBD_AFRS_STEERING_LAMBDA_NAME _stbd_steering_lambda
      | _ => (_motor :: rest, Some (Py.Exception "unrecognised orientation"))
      end
  end.

Definition set_steering_mode (steering_mode : option SteeringMode.t) : M unit :=
  match steering_mode with
  | None => raise (Py.ValueError "null steering mode argument.")
  | Some steering_mode =>
      s <- get ;;
      if decide (_steering_mode s = Some steering_mode) then ret tt
      else
        let _rotated := is_rotated (hardware s) in
        let _alter_steering_mode :=
          if bool_decide (steering_mode = SteeringMode.ROTATE) && _rotated
          then false
          else if bool_decide (steering_mode ≠ SteeringMode.ROTATE) && negb _rotated
          then false
          else true in
        (if _alter_steering_mode then
           update_motors (map remove_mode_lambdas) ;;
           reposition steering_mode
         else ret tt) ;;
        match steering_mode with
        | SteeringMode.AFRS =>
            modify (with_steering_mode (Some SteeringMode.AFRS)) ;;
            s' <- get ;;
            let '(ms, e) := install_afrs_lambdas (motors (hardware s')) in
            update_motors (fun _ => ms) ;;
            match e with
            | Some e => raise e
            | None => ret tt
            end
        | SteeringMode.ROTATE =>
            modify (with_steering_mode (Some SteeringMode.ROTATE))
        | SteeringMode.SKID =>
            modify (with_steering_mode (Some SteeringMode.SKID))
        | SteeringMode.Other _ =>
            raise (Py.Exception "unsupported steering mode")
        end
  end.

(** *** [change_speed], lines 521-543 *)

(** [self._incr_clamp = lambda n: max(min(7, n), -7)] *)
Definition _incr_clamp (n : Z) : Z := Z.max (Z.min 7 n) (-7).

Definition change_speed_increment (value : Z) : Z :=
  let _vel := (127 - value)%Z in
  _incr_clamp (Py.int (inject_Z _vel / 16.0)).

Definition _scale_factor : Q := 0.01428 / 5.0.

Definition change_speed_delta (value : Z) : Q :=
  inject_Z (change_speed_increment value) * _scale_factor.

(** The loop of lines 537-541 over the motors of [get_motors()]: the motor's
    target speed is read when its turn comes. *)
Fixpoint change_speed_loop (_speed_delta : Q) (i n : nat) : M unit :=
  match n with
  | O => ret tt
  | S n' =>
      s <- get ;;
      match motors (hardware s) !! i with
      | Some _motor =>
          let _target_speed := target_speed _motor + _speed_delta in
          call (motor_controller_set_motor_speed (orientation _motor) _target_speed)
      | None => ret tt
      end ;;
      change_speed_loop _speed_delta (S i) n'
  end.

Definition change_speed (value : Z) : M unit :=
  _prepare_to_move ;;
  let _speed_delta := change_speed_delta value in
  if negb (Py.isclose _speed_delta 0.0 1e-2) then
    s <- get ;;
    change_speed_loop _speed_delta 0 (length (motors (hardware s)))
  else ret tt.

(** *** [increment_speed], lines 546-571 *)

Definition set_chadburn_from_index : M unit :=
  s <- get ;;
  match Chadburn.from_index (_chadburn_index s) with
  | Some c => modify (with_chadburn c)
  | None => raise (Py.Exception "Chadburn.from_index: no such index")
  end.

Definition increment_speed (value : Z) : M unit :=
  _prepare_to_move ;;
  s <- get ;;
  let _mean_speed := get_mean_speed Orientation.CNTR (hardware s) in
  let _chadburn' := Chadburn.get_closest_value _mean_speed in
  modify (with_chadburn _chadburn') ;;
  modify (with_chadburn_index (Chadburn.num _chadburn')) ;;
  (if Z.eqb value (-1) then
     s <- get ;;
     if Z.ltb (_chadburn_index s) (Chadburn.num Chadburn.FULL_AHEAD) then
       modify (with_chadburn_index (_chadburn_index s + 1)) ;;
       set_chadburn_from_index
     else ret tt
   else
     s <- get ;;
     if Z.gtb (_chadburn_index s) (Chadburn.num Chadburn.FULL_ASTERN) then
       modify (with_chadburn_index (_chadburn_index s - 1)) ;;
       set_chadburn_from_index
     else ret tt) ;;
  s <- get ;;
  call (motor_controller_set_speed Orientation.PORT (Chadburn.speed (_chadburn s))) ;;
  s <- get ;;
  call (motor_controller_set_speed Orientation.STBD (Chadburn.speed (_chadburn s))).

(** *** [set_heading], lines 764-851 *)

(** [_shutdown], lines 1100-1103.  [disable()] and [close()], lines
    1171-1198, branch on the flags [closed] and [enabled] of [core.component],
    which is not among the sources: the two calls are logged as they are
    entered, and taken to return. *)
Definition _shutdown : M unit :=
  call self_disable ;;
  call self_close.

(** [_rotate_sigint_handler(self, signal, frame)], lines 754-762. *)
Definition _rotate_sigint_handler : M unit :=
  call motor_controller_stop ;;
  _shutdown.

(** What the control loop meets: at a pass, the readings of the digital
    potentiometer and of the IMU; between two passes, a SIGINT sent to the
    process.  (Python runs a signal's handler between two instructions of the
    main thread; the model lets the signal arrive between two passes.) *)
Inductive Tick : Type :=
| Sample (pot heading : Q)
| Interrupt.

(** The [while] loop of lines 812-839.  Line 775 has replaced Python's
    handler of SIGINT, the one that raises [KeyboardInterrupt], by
    [_rotate_sigint_handler]: a signal runs that handler, and the loop
    resumes where it was. *)
Fixpoint heading_loop (_target_heading _diff_deg : Q) (feed : list Tick) : M unit :=
  if Py.isclose _diff_deg 0.0 1.0 then ret tt
  else
    match feed with
    | [] => fun s => (Py.Unfinished, s)
    | Interrupt :: feed' =>
        _rotate_sigint_handler ;;
        heading_loop _target_heading _diff_deg feed'
    | Sample pot heading :: feed' =>
        let _target_speed := pot in
        call icm20948_poll ;;
        let _current_heading := heading in
        let _diff_deg := difference_in_degrees _current_heading _target_heading in
        let _multiplier := _diff_deg / 180.0 in
        let _target_speed := _target_speed * _multiplier in
        (if Py.isclose _target_speed 0.0 1e-4 then
           call (motor_controller_set_speed Orientation.PORT 0.0) ;;
           call (motor_controller_set_speed Orientation.STBD 0.0)
         else
           call (motor_controller_set_speed Orientation.PORT _target_speed) ;;
           call (motor_controller_set_speed Orientation.STBD _target_speed)) ;;
        call rate_wait ;;
        heading_loop _target_heading _diff_deg feed'
    end.

(** The [except KeyboardInterrupt] clause, line 844: its body evaluates the
    name [self_log], which nothing binds ([self._log] is the logger).  With
    the handler of line 775 installed, nothing in the [try] block raises
    [KeyboardInterrupt]. *)
Definition set_heading_handler (e : Py.Exn) : option (M unit) :=
  match e with
  | Py.KeyboardInterrupt => Some (raise (Py.NameError "self_log"))
  | _ => None
  end.

(** Lines 769-803, what [set_heading] does before its [try]: the checks, the
    first poll, the change to ROTATE mode and the start of the rotation.  It
    returns [_diff_deg].

    [__init__] assigns [self._digital_pot] only when it finds a component
    registry (lines 82-88), and then to a [DigitalPotentiometer], never to
    [None].  Without a registry the attribute does not exist, and the test of
    line 769 raises [AttributeError]; the [Exception] of line 770 is raised
    for no controller that [__init__] has built.  [signal.signal] is logged;
    what it installs shows in [heading_loop]. *)
Definition set_heading_prologue (cardinal_degrees start : Q) : M Q :=
  s <- get ;;
  if negb (_digital_pot s) then
    raise (Py.AttributeError "_digital_pot")
  else
  _prepare_to_move ;;
  call signal_signal_SIGINT ;;
  match _imu s with
  | None => raise (Py.Exception "cannot set heading: IMU has not been set.")
  | Some _icm20948 =>
    if negb (is_calibrated _icm20948) then
      raise (Py.Exception "cannot set heading: IMU has not been calibrated.")
    else
    call icm20948_poll ;;
    let _starting_heading := start in
    let _target_heading := cardinal_degrees in
    let _diff_deg := difference_in_degrees _starting_heading _target_heading in
    set_steering_mode (Some SteeringMode.ROTATE) ;;
    call (time_sleep 3) ;;
    call (motor_controller_rotate Rotation.CLOCKWISE) ;;
    ret _diff_deg
  end.

(** Lines 848-851, what follows the [try] statement. *)
Definition set_heading_epilogue : M unit :=
  call (motor_controller_rotate Rotation.STOPPED) ;;
  set_steering_mode (Some SteeringMode.AFRS) ;;
  call (time_sleep 3).

(** [set_heading(self, rotation, cardinal)]: [cardinal_degrees] is
    [cardinal.degrees], [start] the IMU heading of the first poll, and [feed]
    what the passes of the loop meet.  The [rotation] argument is not used by
    the body, which always rotates clockwise. *)
Definition set_heading (rotation : Rotation.t) (cardinal_degrees : Q)
    (start : Q) (feed : list Tick) : M unit :=
  _diff_deg <- set_heading_prologue cardinal_degrees start ;;
  try_except_finally
    (heading_loop cardinal_degrees _diff_deg feed)
    set_heading_handler
    (call (player_play "CHIRP_1")) ;;
  set_heading_epilogue.

End Methods.

(** *** [calculate_afrs_steering], lines 320-345 *)

Module Geometry.

(** How an expression ends: with an exception, or with its value. *)
Definition Result (A : Type) : Type := Py.Exn + A.

Definition and_then {A B} (r : Result A) (k : A → Result B) : Result B :=
  match r with
  | inl e => inl e
  | inr a => k a
  end.

Declare Scope result_scope.
Delimit Scope result_scope with result.
Notation "x <- r ;; k" := (and_then r (fun x => k))
  (at level 100, r at next level, right associativity) : result_scope.

(** The numbers the solver computes on, and the operations it applies to
    them; each of them can raise.  The solver is written once, over this
    interface.  [Binary64] below is Python's [float], the arithmetic the code
    runs in; [Exact] reads the same operations in exact real arithmetic. *)
Class Number (F : Type) : Type := {
  of_int : Z → F;                         (* an [int] among floats *)
  eqb : F → F → bool;                     (* [x == y] *)
  add : F → F → F;
  sub : F → F → F;
  mul : F → F → F;
  div : F → F → Result F;                 (* [x / y] *)
  pow : F → Z → Result F;                 (* [x ** n] *)
  math_radians : F → Result F;
  math_tan : F → Result F;
  math_sqrt : F → Result F;
  math_atan2 : F → F → Result F;
  math_degrees : F → Result F;
}.

(** The geometry read from the configuration in [__init__], lines 96-98. *)
Record Vehicle (F : Type) : Type := {
  _half_length : F;      (* wheel_base / 2 *)
  _half_width : F;       (* wheel_track / 2 *)
  _wheel_offset : F;
}.
Arguments _half_length {F} _.
Arguments _half_width {F} _.
Arguments _wheel_offset {F} _.

Section Solver.
Context {F : Type} {number : Number F}.
Local Open Scope result_scope.

Definition calculate_afrs_steering (self : Vehicle F) (inside_steering_angle : F)
  : Result F :=
  if eqb inside_steering_angle (of_int 0) then
    inr (of_int 0)             (* [return 0], the [int]; [int(0)] is 0 too *)
  else
    (* First, inside radius *)
    inside_steering_rads <- math_radians inside_steering_angle ;;
    tan_inside_steering_rads <- math_tan inside_steering_rads ;;
    inside_distance <- div (_half_length self) tan_inside_steering_rads ;;
    half_length_2 <- pow (_half_length self) 2 ;;
    inside_distance_2 <- pow inside_distance 2 ;;
    inside_hyp <- math_sqrt (add half_length_2 inside_distance_2) ;;
    let inside_radius := sub inside_hyp (_wheel_offset self) in
    (* Second, outside radius *)
    let outside_distance := add inside_distance (mul (_half_width self) (of_int 2)) in
    outside_distance_2 <- pow outside_distance 2 ;;
    half_length_2 <- pow (_half_length self) 2 ;;
    outside_hyp <- math_sqrt (add outside_distance_2 half_length_2) ;;
    let outside_radius := add outside_hyp (_wheel_offset self) in
    (* Finally, outside angle *)
    outside_steering_rads <- math_atan2 (_half_length self) outside_distance ;;
    outside_steering_angle <- math_degrees outside_steering_rads ;;
    inr outside_steering_angle.

End Solver.

(** Exact real arithmetic: no rounding, no overflow.  A division by zero and
    the root of a negative number raise as in Python. *)
Module Exact.
Local Open Scope R_scope.

(** [math.atan2(y, x)]: the angle of the point [(x, y)], in (-PI, PI]. *)
Definition atan2 (y x : R) : R :=
  if Rlt_dec 0 x then atan (y / x)
  else if Rlt_dec x 0 then
    if Rle_dec 0 y then atan (y / x) + PI else atan (y / x) - PI
  else
    if Rlt_dec 0 y then PI / 2
    else if Rlt_dec y 0 then - (PI / 2)
    else 0.

#[global] Instance number : Number R := {|
  of_int := IZR;
  eqb x y := if Req_dec_T x y then true else false;
  add := Rplus;
  sub := Rminus;
  mul := Rmult;
  div x y :=
    if Req_dec_T y 0 then inl (Py.ZeroDivisionError "float division by zero")
    else inr (x / y);
  pow x n := inr (powerRZ x n);
  math_radians x := inr (x * PI / 180);
  math_tan x := inr (tan x);
  math_sqrt x :=
    if Rlt_dec x 0 then inl (Py.ValueError "math domain error") else inr (sqrt x);
  math_atan2 y x := inr (atan2 y x);
  math_degrees x := inr (x * 180 / PI);
|}.

End Exact.

(** Python's [float]: IEEE 754 binary64, rounding to nearest. *)
Module Binary64.

(** What the interpreter computes with the C library, with the interpreter's
    own error checks around it: [x ** y] on floats, [math.tan] and
    [math.atan2].  None of them is among the sources. *)
Class CPython : Type := {
  float_pow : float → float → Result float;
  float_tan : float → Result float;
  float_atan2 : float → float → Result float;
}.

(** [math.pi], and the two constants that [math.radians] and [math.degrees]
    multiply by. *)
Definition pi : float := 0x1.921fb54442d18p+1.
Definition degToRad : float := Eval vm_compute in (pi / 180)%float.
Definition radToDeg : float := Eval vm_compute in (180 / pi)%float.

#[global] Instance number {cpython : CPython} : Number float := {|
  of_int := Py.float_of_Z;
  eqb := PrimFloat.eqb;
  add := PrimFloat.add;
  sub := PrimFloat.sub;
  mul := PrimFloat.mul;
  div x y :=
    if PrimFloat.eqb y 0 then inl (Py.ZeroDivisionError "float division by zero")
    else inr (x / y)%float;
  pow x n := float_pow x (Py.float_of_Z n);
  math_radians x := inr (x * degToRad)%float;
  math_tan := float_tan;
  math_sqrt x :=
    let r := PrimFloat.sqrt x in
    if PrimFloat.is_nan r && negb (PrimFloat.is_nan x) then inl (Py.ValueError "math domain error")
    else inr r;
  math_atan2 := float_atan2;
  math_degrees x := inr (x * radToDeg)%float;
|}.

End Binary64.

End Geometry.

(** The interpreter of the bench: the values that Python 3.11 with the GNU C
    library returns at the arguments of the bench runs.  Below 2^-27 the
    tangent of [x] is [x], and the angle of a point more than 2^27 times
    further right than up is the quotient, both to the last place; the other
    values are recorded.  [x ** 2] is the rounded square. *)
Module Binary64Bench.
Import Geometry Geometry.Binary64.
Local Open Scope float_scope.

Definition not_recorded {A} : Result A :=
  inl (Py.Exception "not recorded on the bench").

Definition recorded (table : list (float * float)) (x : float) : Result float :=
  match find (fun entry => PrimFloat.eqb (fst entry) x) table with
  | Some entry => inr (snd entry)
  | None => not_recorded
  end.

Definition bench_float_pow (x y : float) : Result float :=
  if PrimFloat.eqb y 2 then
    let r := x * x in
    if PrimFloat.is_infinity r && negb (PrimFloat.is_infinity x) then
      inl (Py.OverflowError "(34, 'Numerical result out of range')")
    else inr r
  else not_recorded.

Definition bench_float_tan (x : float) : Result float :=
  if PrimFloat.ltb (PrimFloat.abs x) 0x1p-27 then inr x
  else
    recorded [ (0x1.657184ae74487p-3, 0x1.691e1ebc5cbbcp-3);     (* 10 degrees *)
               (0x1.657184ae74487p-2, 0x1.74b49cf3902d4p-2);     (* 20 *)
               (0x1.0c152382d7365p-1, 0x1.279a74590331cp-1);     (* 30 *)
               (0x1.921fb54442d18p-1, 0x1.fffffffffffffp-1);     (* 45 *)
               (0x1.0c152382d7365p+0, 0x1.bb67ae8584ca8p+0) ]    (* 60 *)
             x.

Definition bench_float_atan2 (y x : float) : Result float :=
  if PrimFloat.ltb 0 y && PrimFloat.ltb (y * 0x1p+27) x then inr (y / x)
  else if PrimFloat.eqb y 1 then
    recorded [ (0x1.eaf648056a136p+2, 0x1.097907ae781eep-3);
               (0x1.2fd6ab87c396cp+2, 0x1.a92bf09fa373dp-3);
               (0x1.ddb3d742c2656p+1, 0x1.0c152382d7365p-2);
               (0x1.8p+1, 0x1.4978fa3269ee1p-2);
               (0x1.49e69d1640cc8p+1, 0x1.7aff682342a73p-2) ]
             x
  else not_recorded.

#[export] Instance cpython : CPython := {|
  float_pow := bench_float_pow;
  float_tan := bench_float_tan;
  float_atan2 := bench_float_atan2;
|}.

(** The bench vehicle: half-wheelbase, half-track and wheel offset all 1. *)
Definition vehicle : Vehicle float :=
  {| _half_length := 1; _half_width := 1; _wheel_offset := 1 |}.

End Binary64Bench.

(** ** Properties of the missing code that the theorems name *)

(** The hardware after a sequence of calls. *)
Definition replay `{Collaborators} (cs : list Call) (h : Hardware) : Hardware :=
  fold_left (fun h c => effect c h) cs h.

(** The number of entries into [reposition] in a log. *)
Definition count_repositions (cs : list Call) : nat :=
  length (filter (fun c => ∃ m, c = self_reposition m) cs).

Module ChadburnLaws.
Import Chadburn.
Section Laws.
Context {T : Table}.

(** The enumeration is an ordered table without gaps: a member that is not the
    last has a successor by index, one that is not the first a predecessor;
    and the members the code names are members. *)
Definition has_index (i : Z) : bool :=
  match from_index i with Some _ => true | None => false end.

Definition contiguous : bool :=
  forallb (fun c =>
    forallb (fun d =>
      implb (num c <? num d)%Z (has_index (num c + 1)) &&
      implb (num d <? num c)%Z (has_index (num c - 1))) members) members.

Definition is_member (c : t) : bool :=
  existsb (fun d => Z.eqb (num d) (num c) && Qeq_bool (speed d) (speed c)) members.

Definition well_formed : bool :=
  contiguous && is_member FULL_ASTERN && is_member FULL_AHEAD && is_member STOP
  && (num FULL_ASTERN <=? num FULL_AHEAD)%Z.

End Laws.
End ChadburnLaws.

(** ** A bench: concrete collaborators and a concrete ladder

    The theorems below hold for every [Collaborators] and every
    [Chadburn.Table]; the bench is where they are run on concrete inputs. *)

Module Bench.
Local Open Scope Q_scope.

(** Modelled from the spec: core/chadburn.py is not among the sources.  The
    spec gives the order FULL_ASTERN .. STOP .. FULL_AHEAD, speed fractions
    in [-1.0, 1.0], STOP as the default, and MAXIMUM members that "exist in
    the enumeration"; the comments of the source give DEAD_SLOW as 0.07 and
    SLOW_AHEAD as 0.21.  The other speeds and all indices are the bench's
    choice. *)
Definition MAXIMUM_ASTERN   := {| Chadburn.num := -6; Chadburn.speed := -1.0 |}.
Definition FULL_ASTERN      := {| Chadburn.num := -5; Chadburn.speed := -0.8 |}.
Definition HALF_ASTERN      := {| Chadburn.num := -4; Chadburn.speed := -0.5 |}.
Definition ONE_THIRD_ASTERN := {| Chadburn.num := -3; Chadburn.speed := -0.33 |}.
Definition SLOW_ASTERN      := {| Chadburn.num := -2; Chadburn.speed := -0.21 |}.
Definition DEAD_SLOW_ASTERN := {| Chadburn.num := -1; Chadburn.speed := -0.07 |}.
Definition STOP             := {| Chadburn.num := 0; Chadburn.speed := 0.0 |}.
Definition DEAD_SLOW_AHEAD  := {| Chadburn.num := 1; Chadburn.speed := 0.07 |}.
Definition SLOW_AHEAD       := {| Chadburn.num := 2; Chadburn.speed := 0.21 |}.
Definition ONE_THIRD_AHEAD  := {| Chadburn.num := 3; Chadburn.speed := 0.33 |}.
Definition HALF_AHEAD       := {| Chadburn.num := 4; Chadburn.speed := 0.5 |}.
Definition FULL_AHEAD       := {| Chadburn.num := 5; Chadburn.speed := 0.8 |}.
Definition MAXIMUM_AHEAD    := {| Chadburn.num := 6; Chadburn.speed := 1.0 |}.

#[local] Instance table : Chadburn.Table := {|
  Chadburn.members :=
    [ MAXIMUM_ASTERN; FULL_ASTERN; HALF_ASTERN; ONE_THIRD_ASTERN; SLOW_ASTERN;
      DEAD_SLOW_ASTERN; STOP; DEAD_SLOW_AHEAD; SLOW_AHEAD; ONE_THIRD_AHEAD;
      HALF_AHEAD; FULL_AHEAD; MAXIMUM_AHEAD ];
  Chadburn.FULL_ASTERN := FULL_ASTERN;
  Chadburn.STOP := STOP;
  Chadburn.SLOW_AHEAD := SLOW_AHEAD;
  Chadburn.FULL_AHEAD := FULL_AHEAD;
|}.

Definition set_target (v : Q) (m : Motor) : Motor :=
  {| orientation := orientation m; target_speed := v;
     speed_multipliers := speed_multipliers m |}.

Definition clear_multipliers (m : Motor) : Motor :=
  {| orientation := orientation m; target_speed := target_speed m;
     speed_multipliers := ∅ |}.

(** Modelled from the spec: the motor and servo drivers are "external
    collaborators, interfaces only".  On the bench a speed command sets the
    target speed of the motors it addresses, [clear_speed_multipliers] empties
    every motor's multipliers, the servos report rotated after
    [set_mode(ROTATE)] and not rotated after any other mode, and every other
    call leaves the hardware as it is. *)
Definition bench_effect (c : Call) (h : Hardware) : Hardware :=
  match c with
  | motor_controller_set_speed o v =>
      with_motors
        (map (fun m =>
                if decide (Orientation.side (orientation m) = Orientation.side o)
                then set_target v m else m) (motors h)) h
  | motor_controller_set_motor_speed o v =>
      with_motors
        (map (fun m => if decide (orientation m = o) then set_target v m else m)
             (motors h)) h
  | motor_controller_clear_speed_multipliers =>
      with_motors (map clear_multipliers (motors h)) h
  | servo_controller_set_mode m =>
      {| motors := motors h;
         is_rotated := bool_decide (m = SteeringMode.ROTATE);
         is_stopped := is_stopped h |}
  | _ => h
  end.

(** The mean of the motors' target speeds. *)
Definition bench_mean_speed (o : Orientation.t) (h : Hardware) : Q :=
  match motors h with
  | [] => 0
  | ms => Qred (fold_right (fun m acc => target_speed m + acc) 0 ms
                / inject_Z (Z.of_nat (length ms)))
  end.

(** Modelled from the spec: [Util.frange(start, stop, step)] yields
    [start, start + step, ...] up to, not including, [stop]. *)
Definition bench_frange (start stop step : Q) : list Q :=
  if Qeq_bool step 0 then []
  else
    let n := Z.to_nat (Qceiling ((stop - start) / step)) in
    map (fun k => Qred (start + inject_Z (Z.of_nat k) * step)) (seq 0 n).

(** Modelled from the spec: [Convert.difference_in_degrees] is the "signed
    angular difference to target (normalized to the shortest signed path)". *)
Definition bench_difference_in_degrees (current target : Q) : Q :=
  let d := target - current in
  Qred (d - 360 * inject_Z (Qfloor ((d + 180) / 360))).

(** On the bench the ramp thread has made its first call when the caller's
    sleep starts, and three steps of the ramp (nine calls) when the servos
    are commanded. *)
Definition bench_thread_head_start (log : list Call) : nat * nat := (1%nat, 9%nat).

#[local] Instance collaborators : Collaborators := {|
  effect := bench_effect;
  get_mean_speed := bench_mean_speed;
  frange := bench_frange;
  difference_in_degrees := bench_difference_in_degrees;
  thread_head_start := bench_thread_head_start;
|}.

Definition config : Config := {|
  afrs_max_ratio := 0.36016;
  initial_reposition_delay_sec := 0.5;
  reposition_delay_sec := 3.4;
|}.

Definition motor (o : Orientation.t) (v : Q) (names : list string) : Motor :=
  {| orientation := o; target_speed := v;
     speed_multipliers := list_to_map (map (fun n => (n, foreign_lambda 0)) names) |}.

(** A controller as [__init__] leaves it (mode unset, ladder at STOP), over
    four motors at rest. *)
Definition controller (ms : list Motor) (rotated : bool) : MotionController := {|
  _config := config;
  _steering_mode := None;
  _chadburn_index := 0;
  _chadburn := STOP;
  _digital_pot := true;
  _imu := Some {| is_calibrated := true |};
  hardware := {| motors := ms; is_rotated := rotated; is_stopped := true |};
  calls := [];
|}.

Definition BUMPER_FOBP := {| event_num := 119; priority := 10; group := Group.BUMPER |}.

Definition four_motors (v : Q) (names : list string) : list Motor :=
  [ motor Orientation.PFWD v names; motor Orientation.SFWD v names;
    motor Orientation.PAFT v names; motor Orientation.SAFT v names ].

End Bench.

(** ** [IrqClock]: the second registry and the tick *)

Module IrqClockTick.
Import Py IrqClock.

(** [add_low_frequency_callback(self, callback)], lines 109-121. *)
Definition add_low_frequency_callback (callback : Value) (self : IrqClock)
  : Outcome unit * IrqClock :=
  if negb (callable callback) then
    (Raised (Exception "callback argument is not a function."), self)
  else if truthy callback then
    if bool_decide (callback ∈ __lf_callbacks self) then
      (Raised (Exception "callback already exists."), self)
    else
      (Returned tt,
       {| __callbacks := __callbacks self;
          __lf_callbacks := __lf_callbacks self ++ [callback] |})
  else (Raised (TypeError "null callback argument"), self).

(** What can end [_callback_method] early: the modulo by a zero
    [freq_divider], or the call of an entry that is not callable. *)
Inductive TickError : Type := ZeroDivisionError | NotCallable.

(** The clock as [_callback_method] sees it: the two registries, the
    [enabled] flag, [_freq_divider], the next value of [itertools.count()],
    and the callbacks called so far, in order.  A callback is opaque: calling
    it is recorded, and it is taken to return without touching the clock. *)
Record Clock : Type := {
  registry : IrqClock;
  enabled : bool;
  _freq_divider : Z;
  _counter : Z;
  invoked : list Value;
}.

(** [for callback in callbacks: callback()] *)
Fixpoint call_each (callbacks : list Value) (log : list Value)
  : option TickError * list Value :=
  match callbacks with
  | [] => (None, log)
  | callback :: rest =>
      if callable callback then call_each rest (log ++ [callback])
      else (Some NotCallable, log)
  end.

(** [_callback_method(self, gpio, level, tick)], lines 134-140. *)
Definition _callback_method (self : Clock) : option TickError * Clock :=
  if enabled self then
    match call_each (__callbacks (registry self)) (invoked self) with
    | (Some e, log) =>
        (Some e, {| registry := registry self; enabled := enabled self;
                    _freq_divider := _freq_divider self;
                    _counter := _counter self; invoked := log |})
    | (None, log) =>
        let n := _counter self in                 (* next(self._counter) *)
        let after := fun log' =>
          {| registry := registry self; enabled := enabled self;
             _freq_divider := _freq_divider self;
             _counter := (n + 1)%Z; invoked := log' |} in
        if Z.eqb (_freq_divider self) 0 then (Some ZeroDivisionError, after log)
        else if Z.eqb (n mod _freq_divider self) 0 then
          match call_each (__lf_callbacks (registry self)) log with
          | (e, log') => (e, after log')
          end
        else (None, after log)
    end
  else (None, self).

(** [n] interrupts in a row; an error ends the run. *)
Fixpoint ticks (n : nat) (self : Clock) : option TickError * Clock :=
  match n with
  | O => (None, self)
  | S n' =>
      match _callback_method self with
      | (None, self') => ticks n' self'
      | r => r
      end
  end.

(** What a registry built by the [add_] methods satisfies: no callback twice
    in a list, and only callables. *)
Definition well_kept (self : IrqClock) : Prop :=
  NoDup (__callbacks self) ∧ Forall (fun v => callable v = true) (__callbacks self)
  ∧ NoDup (__lf_callbacks self)
  ∧ Forall (fun v => callable v = true) (__lf_callbacks self).

End IrqClockTick.


(** ** The AFRS steering angle: [_set_afrs_steering_angle_from_inner_angle] *)

Module Steering.
Import Py.

(** The two calls of lines 406-461 to collaborators that [Call] does not
    list: [servo_controller.set_afrs_angle(port, stbd)] and
    [Player.instance().play_from_thread(sound)]. *)
Inductive SteeringCall : Type :=
| servo_controller_set_afrs_angle (_port_angle _stbd_angle : Q)
| player_play_from_thread (sound : string).

(** What the two calls do to the hardware is code outside the sources. *)
Class SteeringCollaborators : Type := {
  steering_effect : SteeringCall → Hardware → Hardware;
}.

(** The controller with the attributes of the AFRS steering: the inner angle
    last set, the two motor ratios that the steering lambdas read, and the
    log of the two calls above.  The calls of [set_steering_mode] are logged
    in [base] as before; in one run of the method they come first. *)
Record Controller : Type := {
  base : MotionController;
  _afrs_angle : Q;
  _port_motor_ratio : Q;
  _stbd_motor_ratio : Q;
  steering_calls : list SteeringCall;
}.

(** [self._afrs_clamp = lambda n: max(min(_max_angle, n), -1.0 * _max_angle)],
    line 111; [_max_angle] is the configured [afrs_max_angle]. *)
Definition _afrs_clamp (_max_angle n : Q) : Q :=
  Qmax (Qmin _max_angle n) (-1.0 * _max_angle).

Section Method.
Context {collaborators : Collaborators} {table : Chadburn.Table}
        {steering_collaborators : SteeringCollaborators}
        {cpython : Geometry.Binary64.CPython}.
Local Open Scope Q_scope.

(** The hardware of [base] after the calls [cs], made in that order. *)
Definition after_steering_calls (cs : list SteeringCall) (base : MotionController)
  : MotionController :=
  with_hardware (fold_left (fun h c => steering_effect c h) cs (hardware base)) base.

(** [_set_afrs_steering_angle_from_inner_angle(self, inner_angle)], lines
    406-461.  [geometry] is the vehicle read from the configuration and
    [_max_angle] the angle [_afrs_clamp] closes over.  The solver runs on the
    float of the clamped angle's absolute value, and [int] truncates the
    float it returns; an exception of either ends the method after the change
    of mode, before anything of the steering is assigned. *)
Definition _set_afrs_steering_angle_from_inner_angle
    (geometry : Geometry.Vehicle float) (_max_angle : Q)
    (inner_angle : Q) (self : Controller) : Outcome unit * Controller :=
  if negb (Qeq_bool inner_angle (_afrs_angle self)) then
    (* only pay attention to changes *)
    match set_steering_mode (Some SteeringMode.AFRS) (base self) with
    | (Returned _, base') =>
        let inner_angle := _afrs_clamp _max_angle inner_angle in
        match Geometry.and_then
                (Geometry.calculate_afrs_steering geometry
                   (float_of_Q (Qabs inner_angle)))
                int_of_float with
        | inl e =>
            (Raised e,
             {| base := base'; _afrs_angle := _afrs_angle self;
                _port_motor_ratio := _port_motor_ratio self;
                _stbd_motor_ratio := _stbd_motor_ratio self;
                steering_calls := steering_calls self |})
        | inr _outer_angle =>
        let _outer_angle := inject_Z _outer_angle in
        if Qeq_bool inner_angle 0 then
          (* no rotation *)
          let _port_angle := 0.0 in
          let _stbd_angle := 0.0 in
          let cs := [player_play_from_thread "ZZT";
                     servo_controller_set_afrs_angle _port_angle _stbd_angle] in
          (Returned tt,
           {| base := after_steering_calls cs base';
              _afrs_angle := inner_angle;
              _port_motor_ratio := 1.0;
              _stbd_motor_ratio := 1.0;
              steering_calls := steering_calls self ++ cs |})
        else if Qlt_le_dec inner_angle 0 then
          (* counter-clockwise (port is inner) *)
          let _port_angle := inner_angle in
          let _stbd_angle := _outer_angle in
          let cs := [servo_controller_set_afrs_angle _port_angle _stbd_angle] in
          (Returned tt,
           {| base := after_steering_calls cs base';
              _afrs_angle := inner_angle;
              _port_motor_ratio := steering_translation base' (-1 * inner_angle);
              _stbd_motor_ratio := 1.0;
              steering_calls := steering_calls self ++ cs |})
        else
          (* clockwise (stbd is inner) *)
          let _port_angle := _outer_angle in
          let _stbd_angle := inner_angle in
          let cs := [servo_controller_set_afrs_angle _port_angle _stbd_angle] in
          (Returned tt,
           {| base := after_steering_calls cs base';
              _afrs_angle := inner_angle;
              _port_motor_ratio := 1.0;
              _stbd_motor_ratio := steering_translation base' inner_angle;
              steering_calls := steering_calls self ++ cs |})
        end
    | (Raised e, base') =>
        (Raised e,
         {| base := base'; _afrs_angle := _afrs_angle self;
            _port_motor_ratio := _port_motor_ratio self;
            _stbd_motor_ratio := _stbd_motor_ratio self;
            steering_calls := steering_calls self |})
    | (Unfinished, base') =>
        (Unfinished,
         {| base := base'; _afrs_angle := _afrs_angle self;
            _port_motor_ratio := _port_motor_ratio self;
            _stbd_motor_ratio := _stbd_motor_ratio self;
            steering_calls := steering_calls self |})
    end
  else
    (Returned tt,
     {| base := base self; _afrs_angle := _afrs_angle self;
        _port_motor_ratio := 1.0;
        _stbd_motor_ratio := 1.0;
        steering_calls := steering_calls self |}).

End Method.
End Steering.

(** The bench for the AFRS steering angle. *)
Module SteeringBench.
Import Steering.
Local Open Scope Q_scope.

(** Modelled from the spec: the servo controller is among the "external
    collaborators, interfaces only" ([set_afrs_angle(port_deg, stbd_deg)]).
    On the bench an angle pair leaves the servos not rotated, and the sound
    leaves the hardware as it is. *)
Definition bench_steering_effect (c : SteeringCall) (h : Hardware) : Hardware :=
  match c with
  | servo_controller_set_afrs_angle _ _ =>
      {| motors := motors h; is_rotated := false; is_stopped := is_stopped h |}
  | player_play_from_thread _ => h
  end.

#[local] Instance steering_collaborators : SteeringCollaborators := {|
  steering_effect := bench_steering_effect;
|}.

Definition geometry : Geometry.Vehicle float := Binary64Bench.vehicle.

(** The steering attributes as [__init__] leaves them (lines 121-128), over
    the bench controller with the motors [ms]. *)
Definition controller (ms : list Motor) : Controller := {|
  base := Bench.controller ms false;
  _afrs_angle := 0;
  _port_motor_ratio := 1.0;
  _stbd_motor_ratio := 1.0;
  steering_calls := [];
|}.

(** The bench controller before [set_imu] has been called. *)
Definition controller_without_imu : MotionController := {|
  _config := Bench.config;
  _steering_mode := None;
  _chadburn_index := 0;
  _chadburn := Bench.STOP;
  _digital_pot := true;
  _imu := None;
  hardware := {| motors := Bench.four_motors 0 []; is_rotated := false;
                 is_stopped := true |};
  calls := [];
|}.

(** The bench controller built with no component registry in [globals]:
    [__init__] has not assigned [_digital_pot]. *)
Definition controller_without_registry : MotionController := {|
  _config := Bench.config;
  _steering_mode := None;
  _chadburn_index := 0;
  _chadburn := Bench.STOP;
  _digital_pot := false;
  _imu := Some {| is_calibrated := true |};
  hardware := {| motors := Bench.four_motors 0 []; is_rotated := false;
                 is_stopped := true |};
  calls := [];
|}.

End SteeringBench.

(* ===================================================================== *)
(** * Part II: the properties                                             *)
(* ===================================================================== *)

(** ** The callback registry of [IrqClock] *)

Section IrqClockFacts.
Import Py IrqClock.

Lemma list_remove_None {A} `{EqDecision A} (x : A) (l : list A) :
  list_remove x l = None ↔ x ∉ l.
Proof.
  induction l as [|y l IH]; simpl.
  - split; [intros _; apply not_elem_of_nil | reflexivity].
  - destruct (decide (y = x)) as [->|Hne].
    + split; [discriminate | intros Hn; exfalso; apply Hn; left].
    + destruct (list_remove x l) eqn:E.
      * split; [discriminate|].
        intros Hn. exfalso. apply not_elem_of_cons in Hn as [_ Hn].
        apply IH in Hn. discriminate.
      * split; [|reflexivity].
        intros _. apply not_elem_of_cons. split; [congruence|].
        apply IH. reflexivity.
Qed.

Lemma list_remove_Some_length {A} `{EqDecision A} (x : A) (l r : list A) :
  list_remove x l = Some r → length l = S (length r).
Proof.
  revert r. induction l as [|y l IH]; simpl; intros r; [discriminate|].
  destruct (decide (y = x)).
  - intros [= <-]. reflexivity.
  - destruct (list_remove x l) eqn:E; [|discriminate].
    intros [= <-]. simpl. f_equal. apply IH. reflexivity.
Qed.

(** C9, as the code has it: removing a callback that is not registered is
    an error.  For every callable [f] that is not in the registry,
    [remove_callback(f)] raises the [ValueError] of [list.remove] and leaves
    the registry as it was. *)
Theorem remove_callback_absent_raises (id : nat) (self : IrqClock) :
  Callable id ∉ __callbacks self →
  remove_callback (Callable id) self
  = (Raised (ValueError "list.remove(x): x not in list"), self).
Proof.
  intros Habsent. unfold remove_callback. simpl.
  apply list_remove_None in Habsent. rewrite Habsent. reflexivity.
Qed.

Lemma remove_callback_absent_raises_witness :
  remove_callback (Callable 7)
    {| __callbacks := [Callable 1; Callable 2]; __lf_callbacks := [] |}
  = (Raised (ValueError "list.remove(x): x not in list"),
     {| __callbacks := [Callable 1; Callable 2]; __lf_callbacks := [] |}).
Proof.
  apply (remove_callback_absent_raises 7
           {| __callbacks := [Callable 1; Callable 2]; __lf_callbacks := [] |}).
  simpl. intros Hin. apply list_elem_of_In in Hin. simpl in Hin.
  destruct Hin as [H|[H|[]]]; discriminate.
Defined.

(** C9 as the spec words it (a tolerated no-op that returns normally) fails
    on the registry holding one callback when another one is removed. *)
Lemma remove_callback_absent_is_not_a_noop :
  remove_callback (Callable 7)
    {| __callbacks := [Callable 1]; __lf_callbacks := [] |}
  ≠ (Returned tt, {| __callbacks := [Callable 1]; __lf_callbacks := [] |}).
Proof. vm_compute. discriminate. Qed.

(** The registered case, for contrast: the first occurrence goes. *)
Lemma remove_callback_present (id : nat) (self : IrqClock) :
  Callable id ∈ __callbacks self →
  ∃ l, remove_callback (Callable id) self
       = (Returned tt, {| __callbacks := l; __lf_callbacks := __lf_callbacks self |})
       ∧ length (__callbacks self) = S (length l).
Proof.
  intros Hin. unfold remove_callback. simpl.
  destruct (list_remove (Callable id) (__callbacks self)) as [l|] eqn:E.
  - exists l. split; [reflexivity|]. eapply list_remove_Some_length, E.
  - apply list_remove_None in E. contradiction.
Qed.

End IrqClockFacts.

(** ** The monad: what a method adds to the log *)

Section LogFacts.
Context {collaborators : Collaborators} {table : Chadburn.Table}.

(** [logs m P]: whatever the controller before, [m] only appends to the log,
    and every call it appends satisfies [P]. *)
Definition logs {A} (m : M A) (P : Call → Prop) : Prop :=
  ∀ s, ∃ l, calls (snd (m s)) = calls s ++ l ∧ Forall P l.

Lemma logs_ret {A} (a : A) P : logs (ret a) P.
Proof. intros s. exists []. simpl. rewrite app_nil_r. auto. Qed.

Lemma logs_raise {A} e P : logs (@raise A e) P.
Proof. intros s. exists []. simpl. rewrite app_nil_r. auto. Qed.

Lemma logs_unfinished {A} P : logs (fun s => (@Py.Unfinished A, s)) P.
Proof. intros s. exists []. simpl. rewrite app_nil_r. auto. Qed.

Lemma logs_call c (P : Call → Prop) : P c → logs (call c) P.
Proof. intros Hc s. exists [c]. simpl. auto. Qed.

Lemma logs_bind {A B} (m : M A) (k : A → M B) P :
  logs m P → (∀ a, logs (k a) P) → logs (bind m k) P.
Proof.
  intros Hm Hk s. unfold bind.
  destruct (Hm s) as (l1 & E1 & F1).
  destruct (m s) as [[a| e|] s1] eqn:Em; simpl in *.
  - destruct (Hk a s1) as (l2 & E2 & F2).
    exists (l1 ++ l2). rewrite E2, E1, app_assoc. split; [reflexivity|].
    apply Forall_app; auto.
  - exists l1; auto.
  - exists l1; auto.
Qed.

End LogFacts.

(** ** The dispatcher's bumper branch *)

Section DispatcherFacts.
Context {collaborators : Collaborators} {table : Chadburn.Table}.

Lemma bumper_fold_le (es : list Event) (acc : Z) :
  (fold_left (fun p e => Z.min p (priority e)) es acc <= acc)%Z.
Proof.
  revert acc. induction es as [|e es IH]; intros acc; simpl; [lia|].
  etransitivity; [apply IH|]. lia.
Qed.

(** The minimum starts from 0, so it never exceeds 0. *)
Lemma bumper_priority_nonpositive (es : list Event) :
  (bumper_priority es <= 0)%Z.
Proof. apply bumper_fold_le. Qed.

(** Whatever the batch, the bumper branch calls [stop], never [halt]. *)
Lemma process_bumper_always_stops (d : SensorData) :
  process_bumper d = call stop_handler_stop.
Proof.
  unfold process_bumper.
  pose proof (bumper_priority_nonpositive (events d)) as Hle.
  destruct (Z.eqb_spec (bumper_priority (events d)) 10); [lia | reflexivity].
Qed.


End DispatcherFacts.

Section DispatcherOnTheBench.
#[local] Existing Instance Bench.collaborators.
#[local] Existing Instance Bench.table.



End DispatcherOnTheBench.

(** ** [steering_translation] *)

Section SteeringTranslationFacts.
Context {collaborators : Collaborators} {table : Chadburn.Table}.
Local Open Scope Q_scope.

Lemma steering_translation_unfold (self : MotionController) (v : Q) :
  steering_translation self v == 1 + v * (1 # 45) * (afrs_max_ratio (_config self) - 1).
Proof. unfold steering_translation. field. Qed.

Lemma steering_translation_difference (self : MotionController) (u v : Q) :
  steering_translation self v - steering_translation self u
  == (1 # 45) * ((v - u) * (afrs_max_ratio (_config self) - 1)).
Proof. rewrite !steering_translation_unfold. ring. Qed.

(** C6, as the code has it: [steering_translation(0)] is 1.0 and
    [steering_translation(45)] is the configured ratio (in exact arithmetic),
    and over [0, 45] the function is monotone in the direction the ratio
    sets: non-decreasing when the ratio is at least 1, non-increasing when it
    is at most 1, as it is for the documented range from 1.0 to 0.36016. *)
Theorem steering_translation_endpoints_and_direction (self : MotionController) :
  let ratio := afrs_max_ratio (_config self) in
  steering_translation self 0 == 1
  ∧ steering_translation self 45 == ratio
  ∧ (∀ u v, 0 <= u → u <= v → v <= 45 →
       (1 <= ratio → steering_translation self u <= steering_translation self v)
       ∧ (ratio <= 1 → steering_translation self v <= steering_translation self u)).
Proof.
  cbv zeta.
  split; [rewrite steering_translation_unfold; ring|].
  split; [rewrite steering_translation_unfold; ring|].
  intros u v _ Huv _.
  pose proof (steering_translation_difference self u v) as Hd.
  set (r := afrs_max_ratio (_config self)) in *.
  split; intros Hr.
  - assert (0 <= (v - u) * (r - 1)) as Hp by (apply Qmult_le_0_compat; lra).
    set (p := (v - u) * (r - 1)) in *.
    set (a := steering_translation self u) in *.
    set (b := steering_translation self v) in *.
    clearbody p a b. lra.
  - assert (0 <= (v - u) * (1 - r)) as Hp by (apply Qmult_le_0_compat; lra).
    assert ((v - u) * (1 - r) == - ((v - u) * (r - 1))) as Hn by ring.
    rewrite Hn in Hp.
    set (p := (v - u) * (r - 1)) in *.
    set (a := steering_translation self u) in *.
    set (b := steering_translation self v) in *.
    clearbody p a b. lra.
Qed.

Lemma steering_translation_endpoints_and_direction_witness :
  steering_translation (Bench.controller [] false) 30
  <= steering_translation (Bench.controller [] false) 10.
Proof.
  apply (proj2 (proj2 (proj2 (steering_translation_endpoints_and_direction
                                (Bench.controller [] false)))
                 10 30 ltac:(lra) ltac:(lra) ltac:(lra))).
  simpl. lra.
Defined.

(** C6 as the spec words it (non-decreasing over [0, 45]) fails for the ratio
    of the docstring, 0.36016, which is the bench's configuration: from input
    0 to input 45 the value falls from 1.0 to 0.36016. *)
Lemma steering_translation_decreases_for_documented_ratio :
  afrs_max_ratio (_config (Bench.controller [] false)) = 0.36016
  ∧ ¬ (steering_translation (Bench.controller [] false) 0
       <= steering_translation (Bench.controller [] false) 45).
Proof.
  split; [reflexivity|]. unfold steering_translation, Qle. simpl. lia.
Qed.

(** In binary64 the value at 45 is the ratio only up to rounding in the last
    place: for 0.36016 (0x1.70cdc8754f377p-2) it is 0.36016000000000004
    (0x1.70cdc8754f378p-2).  The value at 0 is exactly 1.0, and the fall from
    input 0 to input 45 is the same as in exact arithmetic. *)
Lemma steering_translation_binary64_documented_ratio :
  steering_translation_binary64 0x1.70cdc8754f377p-2%float 45%float
  = 0x1.70cdc8754f378p-2%float
  ∧ steering_translation_binary64 0x1.70cdc8754f377p-2%float 0%float = 1%float
  ∧ PrimFloat.ltb (steering_translation_binary64 0x1.70cdc8754f377p-2%float 45%float)
                  (steering_translation_binary64 0x1.70cdc8754f377p-2%float 0%float)
    = true.
Proof. repeat split; vm_compute; reflexivity. Qed.

End SteeringTranslationFacts.

(** ** [change_speed] *)

Section ChangeSpeedFacts.
Context {collaborators : Collaborators} {table : Chadburn.Table}.
Local Open Scope Q_scope.

(** [int(_vel / 16.0)] is the quotient of [_vel] by 16 rounded toward zero. *)
Lemma int_of_sixteenths (z : Z) : Py.int (inject_Z z / 16.0) = Z.quot z 16.
Proof.
  unfold Py.int. simpl.
  change (Z.pos (1 * 160)) with (16 * 10)%Z.
  apply Z.quot_mul_cancel_r; lia.
Qed.

Lemma isclose_zero (a t : Q) :
  0 <= t → (Py.isclose a 0.0 t = true ↔ Qabs a <= t).
Proof.
  intros Ht. unfold Py.isclose. rewrite Qle_bool_iff.
  assert (Qabs (a - 0.0) == Qabs a) as -> by (apply Qabs_wd; ring).
  pose proof (Qabs_nonneg a) as Ha.
  assert (Qmax (Qabs a) (Qabs 0.0) == Qabs a) as Hm.
  { apply Q.max_l. assert (Qabs 0.0 == 0) as -> by reflexivity. exact Ha. }
  rewrite Hm. rewrite Q.max_le_iff. unfold Py.rel_tol.
  set (x := Qabs a) in *. clearbody x.
  split.
  - intros [H|H]; [|exact H].
    assert (1e-9 * x == (1 # 1000000000) * x) as E by reflexivity.
    rewrite E in H. lra.
  - intros H. right. exact H.
Qed.

Lemma not_isclose_zero (a t : Q) :
  0 <= t → (negb (Py.isclose a 0.0 t) = true ↔ t < Qabs a).
Proof.
  intros Ht. pose proof (isclose_zero a t Ht) as H.
  destruct (Py.isclose a 0.0 t); simpl; split; intros H'.
  - discriminate.
  - exfalso. apply (Qlt_not_le _ _ H'). apply H. reflexivity.
  - apply Qnot_le_lt. intros Hle. apply H in Hle. discriminate.
  - reflexivity.
Qed.

(** The drivers neither add nor remove a motor. *)
Definition keeps_motor_count : Prop :=
  ∀ c h, length (motors (effect c h)) = length (motors h).

Lemma change_speed_loop_spec (delta : Q) (Hk : keeps_motor_count) (n : nat) :
  ∀ (i : nat) (s : MotionController),
    (i + n)%nat = length (motors (hardware s)) →
    ∃ cmds,
      change_speed_loop delta i n s
      = (Py.Returned tt,
         with_calls (calls s ++ cmds) (with_hardware (replay cmds (hardware s)) s))
      ∧ length cmds = n
      ∧ ∀ (k : nat) (m : Motor),
          motors (replay (take k cmds) (hardware s)) !! (i + k)%nat = Some m →
          (k < n)%nat →
          cmds !! k = Some (motor_controller_set_motor_speed
                              (orientation m) (target_speed m + delta)).
Proof.
  induction n as [|n IH]; intros i s Hlen.
  - exists []. simpl. split; [|split; [reflexivity | intros; lia]].
    unfold ret. rewrite app_nil_r. destruct s; reflexivity.
  - destruct (motors (hardware s) !! i) as [m0|] eqn:Em0.
    2:{ apply lookup_ge_None in Em0. lia. }
    set (c := motor_controller_set_motor_speed (orientation m0) (target_speed m0 + delta)).
    set (s1 := with_calls (calls s ++ [c]) (with_hardware (effect c (hardware s)) s)).
    destruct (IH (S i) s1) as (cmds & Erun & Elen & Hcmds).
    { unfold s1. simpl. rewrite Hk. lia. }
    exists (c :: cmds). split; [|split].
    + simpl. unfold bind at 1. unfold get at 1. simpl.
      rewrite Em0. unfold bind at 1. unfold call at 1, modify at 1. simpl.
      fold c. fold s1. rewrite Erun. f_equal.
      unfold s1, with_calls, with_hardware. simpl.
      rewrite <- app_assoc. reflexivity.
    + simpl. rewrite Elen. reflexivity.
    + intros k m Hm Hk'. destruct k as [|k]; simpl in *.
      * rewrite Nat.add_0_r in Hm. rewrite Em0 in Hm.
        injection Hm as <-. reflexivity.
      * apply Hcmds; [|lia].
        replace (i + S k)%nat with (S (i + k)) in Hm by lia.
        exact Hm.
Qed.

(** C8, as the code has it: the increment is [int((127 - raw) / 16.0)], the
    quotient rounded toward zero (not to the nearest integer), clamped to
    [-7, 7]; the delta is the increment times 0.01428/5.0.  After
    [clear_speed_multipliers], and only when the delta's absolute value
    exceeds 0.01 (that is when the increment's is at least 4), each motor in
    turn is commanded to its own current target speed plus the delta;
    otherwise no motor speed command is issued.  This holds for every raw
    value, the axis range 0-255 included. *)
Theorem change_speed_truncates_then_nudges (Hk : keeps_motor_count)
    (value : Z) (s : MotionController) :
  let _increment := _incr_clamp (Z.quot (127 - value) 16) in
  let _speed_delta := inject_Z _increment * (0.01428 / 5.0) in
  let h0 := effect motor_controller_clear_speed_multipliers (hardware s) in
  change_speed_increment value = _increment
  ∧ change_speed_delta value = _speed_delta
  ∧ (1e-2 < Qabs _speed_delta ↔ (4 <= Z.abs _increment)%Z)
  ∧ ∃ cmds,
      fst (change_speed value s) = Py.Returned tt
      ∧ calls (snd (change_speed value s))
        = calls s ++ motor_controller_clear_speed_multipliers :: cmds
      ∧ hardware (snd (change_speed value s)) = replay cmds h0
      ∧ (1e-2 < Qabs _speed_delta →
           length cmds = length (motors h0)
           ∧ ∀ (k : nat) (m : Motor),
               motors (replay (take k cmds) h0) !! k = Some m →
               cmds !! k = Some (motor_controller_set_motor_speed
                                   (orientation m) (target_speed m + _speed_delta)))
      ∧ (Qabs _speed_delta <= 1e-2 → cmds = []).
Proof.
  cbv zeta.
  assert (change_speed_increment value = _incr_clamp (Z.quot (127 - value) 16)) as Einc.
  { unfold change_speed_increment. rewrite int_of_sixteenths. reflexivity. }
  assert (change_speed_delta value
          = inject_Z (_incr_clamp (Z.quot (127 - value) 16)) * (0.01428 / 5.0)) as Edelta.
  { unfold change_speed_delta. rewrite Einc. reflexivity. }
  split; [exact Einc|]. split; [exact Edelta|]. split.
  { unfold _incr_clamp.
    set (n := Z.max (Z.min 7 (Z.quot (127 - value) 16)) (-7)).
    assert (-7 <= n <= 7)%Z as Hn by (unfold n; lia).
    clearbody n.
    assert (n = -7 ∨ n = -6 ∨ n = -5 ∨ n = -4 ∨ n = -3 ∨ n = -2 ∨ n = -1 ∨ n = 0
            ∨ n = 1 ∨ n = 2 ∨ n = 3 ∨ n = 4 ∨ n = 5 ∨ n = 6 ∨ n = 7)%Z as Hcases by lia.
    repeat (destruct Hcases as [->|Hcases]); try subst n;
      (split; [intros H; vm_compute in H; try discriminate; vm_compute; discriminate
              | intros H; vm_compute in H; try (exfalso; apply H; reflexivity);
                reflexivity]). }
  unfold change_speed. rewrite <- Edelta.
  set (delta := change_speed_delta value).
  set (h0 := effect motor_controller_clear_speed_multipliers (hardware s)).
  set (s0 := with_calls (calls s ++ [motor_controller_clear_speed_multipliers])
               (with_hardware h0 s)).
  assert (∀ X (k : unit → M X), bind _prepare_to_move k s = k tt s0) as Eprep.
  { intros X k. reflexivity. }
  rewrite Eprep.
  destruct (negb (Py.isclose delta 0.0 1e-2)) eqn:Eclose.
  - apply not_isclose_zero in Eclose; [|discriminate].
    destruct (change_speed_loop_spec delta Hk (length (motors (hardware s0))) 0 s0)
      as (cmds & Erun & Elen & Hcmds); [reflexivity|].
    exists cmds.
    assert (∀ X (k : MotionController → M X) st, bind get k st = k st st) as Eget
      by reflexivity.
    rewrite Eget, Erun. simpl.
    split; [reflexivity|]. split; [rewrite <- app_assoc; reflexivity|].
    split; [reflexivity|]. split.
    + intros _. split; [exact Elen|].
      intros k m Hm. apply Hcmds; [exact Hm|].
      destruct (decide (k < length (motors (hardware s0)))%nat) as [Hlt|Hge]; [exact Hlt|].
      exfalso.
      assert (∀ cs h, length (motors (replay cs h)) = length (motors h)) as Hrep.
      { clear -Hk. induction cs as [|c cs IH]; intros h; simpl; [reflexivity|].
        unfold replay in *. simpl. rewrite IH. apply Hk. }
      apply lookup_lt_Some in Hm. rewrite Hrep in Hm. simpl in Hge. lia.
    + intros Hle. exfalso. apply (Qlt_not_le _ _ Eclose). exact Hle.
  - exists [].
    split; [reflexivity|]. split; [reflexivity|]. split; [reflexivity|]. split.
    + intros Hlt. exfalso.
      apply not_isclose_zero in Hlt; [|discriminate]. rewrite Hlt in Eclose. discriminate.
    + reflexivity.
Qed.

End ChangeSpeedFacts.

Section ChangeSpeedOnTheBench.
Import Bench.
#[local] Existing Instance Bench.collaborators.
#[local] Existing Instance Bench.table.
Local Open Scope Q_scope.

Lemma bench_keeps_motor_count : keeps_motor_count.
Proof.
  intros c h. destruct c; simpl; rewrite ?length_map; reflexivity.
Qed.

Lemma change_speed_truncates_then_nudges_witness :
  let s := controller (four_motors 0.2 []) false in
  change_speed_increment 0 = 7%Z
  ∧ calls (snd (change_speed 0 s))
    = [ motor_controller_clear_speed_multipliers;
        motor_controller_set_motor_speed Orientation.PFWD (0.2 + change_speed_delta 0);
        motor_controller_set_motor_speed Orientation.SFWD (0.2 + change_speed_delta 0);
        motor_controller_set_motor_speed Orientation.PAFT (0.2 + change_speed_delta 0);
        motor_controller_set_motor_speed Orientation.SAFT (0.2 + change_speed_delta 0) ].
Proof.
  cbv zeta.
  pose proof (change_speed_truncates_then_nudges bench_keeps_motor_count 0
                (controller (four_motors 0.2 []) false)) as H.
  cbv zeta in H. destruct H as (Hinc & _).
  split; [rewrite Hinc; reflexivity | reflexivity].
Defined.

(** C8 as the spec words it fails at the raw value 67: [(127 - 67) / 16] is
    3.75, which [int] cuts to 3 and rounding would take to 4. *)
Lemma change_speed_increment_is_not_rounded :
  change_speed_increment 67
  ≠ _incr_clamp (Py.round (inject_Z (127 - 67) / 16)).
Proof. vm_compute. discriminate. Qed.

(** The difference shows: at 67 the code issues no speed command, where the
    rounded increment 4 would give a delta above the threshold. *)
Lemma change_speed_at_67_issues_no_command :
  calls (snd (change_speed 67 (controller (four_motors 0.2 []) false)))
  = [motor_controller_clear_speed_multipliers]
  ∧ 1e-2 < Qabs (inject_Z (_incr_clamp (Py.round (inject_Z (127 - 67) / 16)))
                 * _scale_factor).
Proof. split; [reflexivity | vm_compute; reflexivity]. Qed.

End ChangeSpeedOnTheBench.

(** ** [calculate_afrs_steering] *)

Section GeometryFacts.
Import Geometry Geometry.Exact.
Local Open Scope R_scope.

(** [math.radians] and [math.degrees] in exact arithmetic. *)
Definition radians (x : R) : R := x * PI / 180.
Definition degrees (x : R) : R := x * 180 / PI.

Lemma radians_range (θ : R) : 0 < θ < 90 → 0 < radians θ < PI / 2.
Proof.
  intros [H0 H90]. unfold radians. pose proof PI_RGT_0 as Hpi.
  split; nra.
Qed.

Lemma degrees_radians (θ : R) : degrees (radians θ) = θ.
Proof.
  unfold degrees, radians. pose proof PI_RGT_0 as Hpi. field. lra.
Qed.

Lemma degrees_increasing (x y : R) : x < y → degrees x < degrees y.
Proof.
  intros Hxy. unfold degrees. pose proof PI_RGT_0 as Hpi.
  apply Rmult_lt_compat_r; [apply Rinv_0_lt_compat; exact Hpi | lra].
Qed.

Lemma degrees_0 : degrees 0 = 0.
Proof. unfold degrees. pose proof PI_RGT_0 as Hpi. field. lra. Qed.

Lemma atan2_right_half_plane (y x : R) : 0 < x → atan2 y x = atan (y / x).
Proof. intros Hx. unfold atan2. destruct (Rlt_dec 0 x); [reflexivity | contradiction]. Qed.

(** In exact arithmetic the solver returns whenever the inner angle is not 0
    and its tangent is not 0; the two hypotenuses and the two radii have no
    part in the result. *)
Lemma calculate_afrs_steering_exact (v : Vehicle R) (θ : R) :
  θ ≠ 0 → tan (radians θ) ≠ 0 →
  calculate_afrs_steering v θ
  = inr (degrees (atan2 (_half_length v)
                    (_half_length v / tan (radians θ) + _half_width v * 2))).
Proof.
  intros Hθ Ht. unfold calculate_afrs_steering.
  cbn [eqb of_int number math_radians math_tan div pow math_sqrt math_atan2
       math_degrees add sub mul and_then].
  destruct (Req_dec_T θ 0) as [E|_]; [contradiction|].
  fold (radians θ).
  destruct (Req_dec_T (tan (radians θ)) 0) as [E|_]; [contradiction|].
  cbn [and_then].
  assert (∀ x y, ¬ powerRZ x 2 + powerRZ y 2 < 0) as Hsquares.
  { intros x y. simpl. nra. }
  repeat match goal with
         | |- context [Rlt_dec (powerRZ ?x 2 + powerRZ ?y 2) 0] =>
             destruct (Rlt_dec (powerRZ x 2 + powerRZ y 2) 0) as [Hneg|_];
             [exfalso; exact (Hsquares x y Hneg) | cbn [and_then]]
         end.
  reflexivity.
Qed.

(** The outer wheel, on the wider circle, is turned less than the inner one:
    for an inner angle strictly between 0 and 90 degrees the computed outer
    angle lies strictly between 0 and the inner angle. *)
Lemma outer_angle_between (v : Vehicle R) (θ : R) :
  0 < θ < 90 → 0 < _half_length v → 0 < _half_width v →
  ∃ outer, calculate_afrs_steering v θ = inr outer ∧ 0 < outer < θ.
Proof.
  intros Hθ HL HW.
  pose proof (radians_range θ Hθ) as [Hr0 Hr1].
  pose proof (tan_gt_0 (radians θ) Hr0 Hr1) as Ht.
  eexists. split; [apply calculate_afrs_steering_exact; lra|].
  set (t := tan (radians θ)) in *.
  set (L := _half_length v) in *. set (W := _half_width v) in *.
  assert (0 < L / t) as Hd by (apply Rdiv_lt_0_compat; assumption).
  set (d := L / t) in *.
  assert (0 < d + W * 2) as HD by lra.
  rewrite atan2_right_half_plane by exact HD.
  assert (0 < L / (d + W * 2)) as Hq0 by (apply Rdiv_lt_0_compat; assumption).
  assert (L / (d + W * 2) < t) as Hq1.
  { assert (t = L / d) as Et by (unfold d; field; split; lra).
    clearbody d. rewrite Et. unfold Rdiv.
    apply Rmult_lt_compat_l; [exact HL|].
    apply Rinv_lt_contravar; [nra | lra]. }
  split.
  - rewrite <- degrees_0. apply degrees_increasing.
    rewrite <- atan_0. apply atan_increasing. exact Hq0.
  - apply Rlt_le_trans with (degrees (radians θ));
      [|rewrite degrees_radians; lra].
    apply degrees_increasing.
    rewrite <- (atan_tan (radians θ)) by (split; lra).
    apply atan_increasing. exact Hq1.
Qed.

(** C2, as the code has it, read in exact real arithmetic: the solver maps
    inner angle 0 to outer angle 0, and for every inner steering angle
    strictly between 0 and 90 degrees, with positive half-wheelbase and
    half-track (and any wheel offset, which the result does not use), it
    returns an outer steering angle that is positive and strictly smaller
    than the inner angle. *)
Theorem calculate_afrs_steering_zero_and_outer_below_inner (v : Vehicle R) :
  calculate_afrs_steering v 0 = inr 0
  ∧ ∀ θ, 0 < θ < 90 → 0 < _half_length v → 0 < _half_width v →
         ∃ outer, calculate_afrs_steering v θ = inr outer ∧ 0 < outer < θ.
Proof.
  split.
  - unfold calculate_afrs_steering. cbn [eqb of_int number].
    destruct (Req_dec_T 0 0) as [_|Hne]; [reflexivity | contradiction].
  - intros θ. apply outer_angle_between.
Qed.

Lemma calculate_afrs_steering_zero_and_outer_below_inner_witness :
  ∃ outer,
    calculate_afrs_steering
      {| _half_length := 1; _half_width := 1; _wheel_offset := 1 |} 45 = inr outer
    ∧ 0 < outer < 45.
Proof.
  apply (proj2 (calculate_afrs_steering_zero_and_outer_below_inner
                  {| _half_length := 1; _half_width := 1; _wheel_offset := 1 |}) 45);
    simpl; lra.
Defined.

(** C2 as the spec words it (outer angle strictly greater than the inner one)
    fails at 45 degrees on a vehicle whose half-wheelbase, half-track and
    wheel offset are all 1: the solver returns atan(1/3) in degrees, about
    18.4. *)
Lemma calculate_afrs_steering_outer_not_above_inner :
  ∃ outer,
    calculate_afrs_steering
      {| _half_length := 1; _half_width := 1; _wheel_offset := 1 |} 45 = inr outer
    ∧ ¬ (outer > 45).
Proof.
  destruct (outer_angle_between
              {| _half_length := 1; _half_width := 1; _wheel_offset := 1 |} 45)
    as (outer & E & H); [lra | simpl; lra | simpl; lra |].
  exists outer. split; [exact E | lra].
Qed.

End GeometryFacts.

(** *** The solver on binary64 *)

Section GeometryBinary64Facts.
Import Geometry Geometry.Binary64.
Local Open Scope float_scope.

(** On Python's floats the exact reading is met only up to rounding, and not
    for every angle between 0 and 90.  For the smallest positive float,
    5e-324, [math.radians] rounds to 0.0; with any interpreter whose tangent
    of 0.0 is 0.0, the division of line 331 raises [ZeroDivisionError],
    whatever the vehicle. *)
Lemma calculate_afrs_steering_binary64_divides_by_zero
    {cpython : CPython} (v : Vehicle float) :
  float_tan 0 = inr 0 →
  calculate_afrs_steering v 0x0.0000000000001p-1022
  = inl (Py.ZeroDivisionError "float division by zero").
Proof.
  intros Htan. unfold calculate_afrs_steering.
  cbn [eqb of_int number math_radians math_tan div and_then].
  assert (PrimFloat.eqb 0x0.0000000000001p-1022 (Py.float_of_Z 0) = false) as ->
    by (vm_compute; reflexivity).
  assert (0x0.0000000000001p-1022 * degToRad = 0) as -> by (vm_compute; reflexivity).
  rewrite Htan. cbn [and_then].
  assert (PrimFloat.eqb 0 0 = true) as -> by (vm_compute; reflexivity).
  reflexivity.
Qed.

End GeometryBinary64Facts.

Section GeometryBinary64OnTheBench.
Import Geometry Geometry.Binary64 Binary64Bench.
Local Open Scope float_scope.

(** The solver on the bench, in the arithmetic of the code.  At 45 degrees
    it returns 18.43494882292201, below the inner angle as in exact
    arithmetic.  At 30 degrees the exact outer angle is 15, and the float
    returned is 14.999999999999998.  At 5e-324 the division raises, and at
    1e-160 the square of the inside distance does.  At 1e-15 the track is
    lost in the rounding of the outside distance and the outer angle returned
    is the inner angle; at 3e-15 it is the next float above the inner angle. *)
Lemma calculate_afrs_steering_binary64_on_the_bench :
  calculate_afrs_steering vehicle 45 = inr 0x1.26f58ce59e23cp+4
  ∧ calculate_afrs_steering vehicle 30 = inr 0x1.dffffffffffffp+3
  ∧ calculate_afrs_steering vehicle 0x0.0000000000001p-1022
    = inl (Py.ZeroDivisionError "float division by zero")
  ∧ calculate_afrs_steering vehicle 0x1.67e9c127b6e74p-532
    = inl (Py.OverflowError "(34, 'Numerical result out of range')")
  ∧ calculate_afrs_steering vehicle 0x1.203af9ee75616p-50 = inr 0x1.203af9ee75616p-50
  ∧ calculate_afrs_steering vehicle 0x1.b05876e5b0120p-49 = inr 0x1.b05876e5b0121p-49
  ∧ PrimFloat.ltb 0x1.b05876e5b0120p-49 0x1.b05876e5b0121p-49 = true.
Proof. repeat split; vm_compute; reflexivity. Qed.

End GeometryBinary64OnTheBench.

(** ** The steering-mode state machine *)

Section SteeringModeFacts.
Context {collaborators : Collaborators} {table : Chadburn.Table}.

Definition not_a_reposition (c : Call) : Prop := ∀ m, c ≠ self_reposition m.

(** The calls the reposition protocol makes after its marker: speed commands,
    sleeps, the servo command and the motor controller's own reposition. *)
Definition ramp_call (c : Call) : Prop :=
  match c with
  | motor_controller_set_speed _ _ | time_sleep _
  | servo_controller_set_mode _ | motor_controller_reposition _ => True
  | _ => False
  end.

Lemma ramp_call_not_a_reposition (c : Call) : ramp_call c → not_a_reposition c.
Proof. destruct c; simpl; intros H m'; try contradiction; discriminate. Qed.

(** [runs_calls m P]: [m] always returns, and all it does is make calls that
    satisfy [P], one after the other. *)
Definition runs_calls (m : M unit) (P : Call → Prop) : Prop :=
  ∀ s, ∃ l,
    m s = (Py.Returned tt,
           with_calls (calls s ++ l) (with_hardware (replay l (hardware s)) s))
    ∧ Forall P l.

Lemma replay_app (l1 l2 : list Call) (h : Hardware) :
  replay (l1 ++ l2) h = replay l2 (replay l1 h).
Proof. unfold replay. apply fold_left_app. Qed.

Lemma bind_get {A} (k : MotionController → M A) (s : MotionController) :
  bind get k s = k s s.
Proof. reflexivity. Qed.

Lemma runs_calls_ret P : runs_calls (ret tt) P.
Proof.
  intros s. exists []. split; [|constructor].
  unfold ret. rewrite app_nil_r. destruct s; reflexivity.
Qed.

Lemma runs_calls_call c (P : Call → Prop) : P c → runs_calls (call c) P.
Proof. intros Hc s. exists [c]. split; [reflexivity | auto]. Qed.

Lemma runs_calls_seq (m : M unit) (k : unit → M unit) P :
  runs_calls m P → (∀ u, runs_calls (k u) P) → runs_calls (bind m k) P.
Proof.
  intros Hm Hk s. destruct (Hm s) as (l1 & E1 & F1).
  unfold bind. rewrite E1.
  destruct (Hk tt (with_calls (calls s ++ l1)
                     (with_hardware (replay l1 (hardware s)) s))) as (l2 & E2 & F2).
  exists (l1 ++ l2). rewrite E2. split; [|apply Forall_app; auto].
  simpl. rewrite replay_app, app_assoc. reflexivity.
Qed.

Lemma runs_calls_get (k : MotionController → M unit) P :
  (∀ s0, runs_calls (k s0) P) → runs_calls (bind get k) P.
Proof. intros Hk s. rewrite bind_get. apply Hk. Qed.

Lemma runs_calls_for_each {A} (xs : list A) (body : A → M unit) P :
  (∀ x, runs_calls (body x) P) → runs_calls (for_each xs body) P.
Proof.
  intros Hb. induction xs as [|x xs IH]; simpl.
  - apply runs_calls_ret.
  - apply runs_calls_seq; auto.
Qed.

Ltac runs_calls_steps :=
  repeat first
    [ apply runs_calls_get; intros ?
    | apply runs_calls_seq; [|intros ?]
    | apply runs_calls_for_each; intros ?
    | apply runs_calls_ret
    | apply runs_calls_call; exact I ].

Lemma for_each_call_runs (cs : list Call) (P : Call → Prop) :
  Forall P cs → runs_calls (for_each cs call) P.
Proof.
  induction 1 as [|c cs Hc _ IH]; simpl.
  - apply runs_calls_ret.
  - apply runs_calls_seq; [apply runs_calls_call; exact Hc | intros _; exact IH].
Qed.

Lemma _reposition_motors_ramp (s : MotionController) (m : SteeringMode.t) :
  Forall ramp_call (_reposition_motors s m).
Proof.
  unfold _reposition_motors.
  repeat (apply Forall_app; split);
    try (apply Forall_flat_map, Forall_forall; intros ? _);
    repeat constructor.
Qed.

(** One entry into [reposition] logs its marker once, then the calls of the
    ramp; it always returns and touches no attribute of the controller. *)
Lemma reposition_runs (m : SteeringMode.t) (s : MotionController) :
  ∃ l, reposition m s
       = (Py.Returned tt,
          with_calls (calls s ++ self_reposition m :: l)
            (with_hardware (replay (self_reposition m :: l) (hardware s)) s))
       ∧ Forall ramp_call l.
Proof.
  pose proof (_reposition_motors_ramp s m) as Hthread.
  unfold reposition. rewrite bind_get.
  destruct (thread_head_start (calls s)) as [i j].
  assert (runs_calls
            (for_each (take i (_reposition_motors s m)) call ;;
             call (time_sleep (initial_reposition_delay_sec (_config s))) ;;
             for_each (take j (drop i (_reposition_motors s m))) call ;;
             (if decide (m = SteeringMode.ROTATE)
              then call (servo_controller_set_mode SteeringMode.ROTATE)
              else call (servo_controller_set_mode SteeringMode.SKID)) ;;
             for_each (drop j (drop i (_reposition_motors s m))) call) ramp_call)
    as Hrest.
  { apply runs_calls_seq;
      [apply for_each_call_runs, Forall_take, Hthread | intros _].
    apply runs_calls_seq; [apply runs_calls_call; exact I | intros _].
    apply runs_calls_seq;
      [apply for_each_call_runs, Forall_take, Forall_drop, Hthread | intros _].
    apply runs_calls_seq;
      [destruct (decide (m = SteeringMode.ROTATE)); apply runs_calls_call; exact I
      | intros _].
    apply for_each_call_runs, Forall_drop, Forall_drop, Hthread. }
  set (s1 := with_calls (calls s ++ [self_reposition m])
               (with_hardware (effect (self_reposition m) (hardware s)) s)).
  destruct (Hrest s1) as (l & E & F).
  exists l. split; [|exact F].
  unfold bind at 1. unfold call at 1, modify at 1. fold s1.
  rewrite E. unfold s1. simpl. rewrite <- app_assoc. reflexivity.
Qed.

Lemma count_repositions_app (l1 l2 : list Call) :
  count_repositions (l1 ++ l2) = (count_repositions l1 + count_repositions l2)%nat.
Proof. unfold count_repositions. rewrite filter_app, length_app. reflexivity. Qed.

Lemma count_repositions_none (l : list Call) :
  Forall not_a_reposition l → count_repositions l = 0%nat.
Proof.
  unfold count_repositions. induction 1 as [|c l Hc _ IH]; [reflexivity|].
  rewrite filter_cons. destruct (decide (∃ m : SteeringMode.t, c = self_reposition m)) as [[m ->]|_].
  - exfalso. apply (Hc m). reflexivity.
  - exact IH.
Qed.

Lemma count_repositions_marker (m : SteeringMode.t) (l : list Call) :
  Forall ramp_call l → count_repositions (self_reposition m :: l) = 1%nat.
Proof.
  intros Hl.
  apply (Forall_impl _ not_a_reposition) in Hl;
    [|exact ramp_call_not_a_reposition].
  unfold count_repositions. rewrite filter_cons.
  destruct (decide (∃ m0 : SteeringMode.t, self_reposition m = self_reposition m0)) as [_|Hn].
  - simpl. f_equal. apply count_repositions_none. exact Hl.
  - exfalso. apply Hn. eauto.
Qed.

(** Lines 989-999: whether the servos have to move. *)
Definition needs_reposition (m : SteeringMode.t) (_rotated : bool) : bool :=
  if bool_decide (m = SteeringMode.ROTATE) && _rotated then false
  else if bool_decide (m ≠ SteeringMode.ROTATE) && negb _rotated then false
  else true.

(** Lines 1012-1035: the commit of the mode. *)
Definition commit_mode (m : SteeringMode.t) : M unit :=
  match m with
  | SteeringMode.AFRS =>
      modify (with_steering_mode (Some SteeringMode.AFRS)) ;;
      s' <- get ;;
      let '(ms, e) := install_afrs_lambdas (motors (hardware s')) in
      update_motors (fun _ => ms) ;;
      match e with
      | Some e => raise e
      | None => ret tt
      end
  | SteeringMode.ROTATE => modify (with_steering_mode (Some SteeringMode.ROTATE))
  | SteeringMode.SKID => modify (with_steering_mode (Some SteeringMode.SKID))
  | SteeringMode.Other _ => raise (Py.Exception "unsupported steering mode")
  end.

(** The controller after lines 1001-1010. *)
Definition after_reposition (m : SteeringMode.t) (l : list Call)
    (s : MotionController) : MotionController :=
  let h := with_motors (map remove_mode_lambdas (motors (hardware s))) (hardware s) in
  with_calls (calls s ++ self_reposition m :: l)
    (with_hardware (replay (self_reposition m :: l) h) s).

Lemma set_steering_mode_same (m : SteeringMode.t) (s : MotionController) :
  _steering_mode s = Some m →
  set_steering_mode (Some m) s = (Py.Returned tt, s).
Proof.
  intros E. unfold set_steering_mode. rewrite bind_get.
  destruct (decide (_steering_mode s = Some m)); [reflexivity | contradiction].
Qed.

Lemma set_steering_mode_other (m : SteeringMode.t) (s : MotionController) :
  _steering_mode s ≠ Some m →
  ∃ l, Forall ramp_call l
       ∧ set_steering_mode (Some m) s
         = commit_mode m (if needs_reposition m (is_rotated (hardware s))
                          then after_reposition m l s else s).
Proof.
  intros Hne. unfold set_steering_mode. rewrite bind_get.
  destruct (decide (_steering_mode s = Some m)) as [E|_]; [contradiction|].
  fold (needs_reposition m (is_rotated (hardware s))).
  fold (commit_mode m).
  destruct (needs_reposition m (is_rotated (hardware s))).
  - set (s0 := with_hardware
                 (with_motors (map remove_mode_lambdas (motors (hardware s))) (hardware s)) s).
    destruct (reposition_runs m s0) as (l & E & F).
    exists l. split; [exact F|].
    unfold bind at 1. unfold bind at 1. unfold update_motors at 1, modify at 1.
    fold s0. rewrite E. reflexivity.
  - exists []. split; [constructor | reflexivity].
Qed.

Lemma commit_mode_supported (m : SteeringMode.t) (s : MotionController) :
  SteeringMode.supported m = true →
  _steering_mode (snd (commit_mode m s)) = Some m
  ∧ calls (snd (commit_mode m s)) = calls s.
Proof.
  destruct m; simpl; intros Hs; try discriminate; try (split; reflexivity).
  unfold bind, modify, get, update_motors. simpl.
  destruct (install_afrs_lambdas (motors (hardware s))) as [ms [e|]];
    split; reflexivity.
Qed.

Lemma commit_mode_unsupported (tag : nat) (s : MotionController) :
  commit_mode (SteeringMode.Other tag) s
  = (Py.Raised (Py.Exception "unsupported steering mode"), s).
Proof. reflexivity. Qed.

(** C4, as the code has it: a mode outside AFRS, ROTATE and SKID (that is not
    the stored mode) makes [set_steering_mode] raise, and the stored mode is
    left as it was.  The argument is only rejected on the last line, though:
    when the servos report not rotated nothing at all has changed by then,
    but when they report rotated the call has already removed the "steering"
    and "stop" multipliers of every motor that had a "steering" multiplier
    and has run the reposition protocol (its marker, then the calls of the
    ramp). *)
Theorem set_steering_mode_unsupported_raises_late
    (tag : nat) (s : MotionController) :
  _steering_mode s ≠ Some (SteeringMode.Other tag) →
  let r := set_steering_mode (Some (SteeringMode.Other tag)) s in
  fst r = Py.Raised (Py.Exception "unsupported steering mode")
  ∧ _steering_mode (snd r) = _steering_mode s
  ∧ (is_rotated (hardware s) = false → snd r = s)
  ∧ (is_rotated (hardware s) = true →
       ∃ l, Forall ramp_call l
            ∧ snd r = after_reposition (SteeringMode.Other tag) l s).
Proof.
  intros Hne r.
  destruct (set_steering_mode_other _ s Hne) as (l & F & E).
  subst r. rewrite E, commit_mode_unsupported. simpl.
  unfold needs_reposition. simpl.
  destruct (is_rotated (hardware s)); simpl.
  - split; [reflexivity|]. split; [reflexivity|].
    split; [discriminate|]. intros _. exists l. auto.
  - split; [reflexivity|]. split; [reflexivity|].
    split; [reflexivity|]. discriminate.
Qed.

(** C7, as the code has it: for a mode among AFRS, ROTATE and SKID, after
    [set_steering_mode(m)] the stored mode is [m], and a second
    [set_steering_mode(m)] right after it returns without changing anything.
    The two calls together enter [reposition] at most once: once when the
    first call found another mode stored and servos whose rotated state did
    not match [m], and not at all otherwise. *)
Theorem set_steering_mode_twice_repositions_at_most_once
    (m : SteeringMode.t) (s : MotionController) :
  SteeringMode.supported m = true →
  let r1 := set_steering_mode (Some m) s in
  let r2 := set_steering_mode (Some m) (snd r1) in
  _steering_mode (snd r1) = Some m
  ∧ r2 = (Py.Returned tt, snd r1)
  ∧ ∃ l, calls (snd r2) = calls s ++ l
         ∧ count_repositions l
           = if decide (_steering_mode s = Some m) then 0%nat
             else if needs_reposition m (is_rotated (hardware s)) then 1%nat
             else 0%nat.
Proof.
  intros Hs r1 r2.
  assert (_steering_mode (snd r1) = Some m
          ∧ ∃ l, calls (snd r1) = calls s ++ l
                 ∧ count_repositions l
                   = if decide (_steering_mode s = Some m) then 0%nat
                     else if needs_reposition m (is_rotated (hardware s)) then 1%nat
                     else 0%nat) as (Hmode & l & Hcalls & Hcount).
  { subst r1 r2. destruct (decide (_steering_mode s = Some m)) as [E|Hne].
    - rewrite (set_steering_mode_same m s E). simpl. split; [exact E|].
      exists []. rewrite app_nil_r. split; reflexivity.
    - destruct (set_steering_mode_other m s Hne) as (l & F & E). rewrite E.
      destruct (commit_mode_supported m
                  (if needs_reposition m (is_rotated (hardware s))
                   then after_reposition m l s else s) Hs) as (Hm & Hc).
      split; [exact Hm|]. rewrite Hc.
      destruct (needs_reposition m (is_rotated (hardware s))).
      + exists (self_reposition m :: l). split; [reflexivity|].
        apply count_repositions_marker. exact F.
      + exists []. rewrite app_nil_r. split; reflexivity. }
  split; [exact Hmode|].
  assert (r2 = (Py.Returned tt, snd r1)) as E2.
  { subst r2. apply set_steering_mode_same. exact Hmode. }
  split; [exact E2|].
  exists l. rewrite E2. simpl. split; [exact Hcalls | exact Hcount].
Qed.

End SteeringModeFacts.

Section SteeringModeOnTheBench.
Import Bench.
#[local] Existing Instance Bench.collaborators.
#[local] Existing Instance Bench.table.
Local Open Scope Q_scope.

Lemma set_steering_mode_unsupported_raises_late_witness :
  fst (set_steering_mode (Some (SteeringMode.Other 0))
         (controller (four_motors 0 ["steering"; "stop"]%string) true))
  = Py.Raised (Py.Exception "unsupported steering mode").
Proof.
  apply (set_steering_mode_unsupported_raises_late 0
           (controller (four_motors 0 ["steering"; "stop"]%string) true)).
  simpl. discriminate.
Defined.

(** C4 as the spec words it (no multiplier removed by the failed call) fails
    on four motors that each carry a "steering" and a "stop" multiplier while
    the servos report rotated: the call raises, and by then every motor has
    lost both multipliers. *)
Lemma set_steering_mode_unsupported_strips_multipliers :
  let s := controller (four_motors 0 ["steering"; "stop"]%string) true in
  let r := set_steering_mode (Some (SteeringMode.Other 0)) s in
  fst r = Py.Raised (Py.Exception "unsupported steering mode")
  ∧ map (fun m => (has_speed_multiplier "steering" m, has_speed_multiplier "stop" m))
        (motors (hardware s))
    = [(true, true); (true, true); (true, true); (true, true)]
  ∧ map (fun m => (has_speed_multiplier "steering" m, has_speed_multiplier "stop" m))
        (motors (hardware (snd r)))
    = [(false, false); (false, false); (false, false); (false, false)]
  ∧ count_repositions (calls (snd r)) = 1%nat.
Proof. vm_compute. repeat split. Qed.

Lemma set_steering_mode_twice_repositions_at_most_once_witness :
  let s := controller (four_motors 0 []) false in
  let r1 := set_steering_mode (Some SteeringMode.ROTATE) s in
  set_steering_mode (Some SteeringMode.ROTATE) (snd r1) = (Py.Returned tt, snd r1).
Proof.
  cbv zeta.
  apply (set_steering_mode_twice_repositions_at_most_once SteeringMode.ROTATE
           (controller (four_motors 0 []) false)).
  reflexivity.
Defined.

(** C7 as the spec words it (exactly one reposition for every mode) fails on
    a controller fresh from [__init__] whose servos are not rotated: two
    calls of [set_steering_mode(AFRS)] enter [reposition] not once but
    never. *)
Lemma set_steering_mode_twice_without_reposition :
  let s := controller (four_motors 0 []) false in
  let r1 := set_steering_mode (Some SteeringMode.AFRS) s in
  let r2 := set_steering_mode (Some SteeringMode.AFRS) (snd r1) in
  fst r1 = Py.Returned tt ∧ fst r2 = Py.Returned tt
  ∧ count_repositions (calls (snd r2)) ≠ 1%nat.
Proof. vm_compute. repeat split. discriminate. Qed.

End SteeringModeOnTheBench.

(** ** The Chadburn ladder and [increment_speed] *)

Section ChadburnFacts.
Context {table : Chadburn.Table}.
Import Chadburn ChadburnLaws.

Lemma closer_fold_member (value : Q) (rest : list t) (c : t) :
  fold_left (closer value) rest c ∈ c :: rest.
Proof.
  revert c. induction rest as [|d rest IH]; intros c; simpl.
  - left.
  - unfold closer at 2.
    destruct (Qlt_le_dec _ _).
    + right. apply IH.
    + specialize (IH c). apply elem_of_cons in IH as [->|IH].
      * left.
      * right. right. exact IH.
Qed.

Lemma get_closest_value_member (value : Q) :
  members ≠ [] → get_closest_value value ∈ members.
Proof.
  unfold get_closest_value. destruct members as [|c rest]; [congruence|].
  intros _. apply closer_fold_member.
Qed.

Lemma from_index_Some (i : Z) (c : t) :
  from_index i = Some c → num c = i ∧ c ∈ members.
Proof.
  unfold from_index. intros H. apply find_some in H as [Hin Heq].
  split; [apply Z.eqb_eq; exact Heq | apply list_elem_of_In; exact Hin].
Qed.

Lemma has_index_Some (i : Z) :
  has_index i = true → ∃ c, from_index i = Some c ∧ num c = i.
Proof.
  unfold has_index. destruct (from_index i) as [c|] eqn:E; [|discriminate].
  intros _. exists c. split; [reflexivity|]. apply (from_index_Some i c E).
Qed.

Lemma is_member_num (c : t) :
  is_member c = true → ∃ d, d ∈ members ∧ num d = num c.
Proof.
  unfold is_member. intros H. apply existsb_exists in H as (d & Hin & Hd).
  apply andb_prop in Hd as [Hn _].
  exists d. split; [apply list_elem_of_In; exact Hin | apply Z.eqb_eq; exact Hn].
Qed.

Lemma contiguous_neighbours (c d : t) :
  contiguous = true → c ∈ members → d ∈ members →
  ((num c < num d)%Z → has_index (num c + 1) = true)
  ∧ ((num d < num c)%Z → has_index (num c - 1) = true).
Proof.
  unfold contiguous. intros H Hc Hd.
  rewrite forallb_forall in H. apply list_elem_of_In in Hc, Hd.
  specialize (H c Hc). rewrite forallb_forall in H. specialize (H d Hd).
  apply andb_prop in H as [H1 H2].
  split; intros Hlt.
  - apply Z.ltb_lt in Hlt. rewrite Hlt in H1. exact H1.
  - apply Z.ltb_lt in Hlt. rewrite Hlt in H2. exact H2.
Qed.

Lemma well_formed_parts :
  well_formed = true →
  contiguous = true ∧ members ≠ []
  ∧ (∃ d, d ∈ members ∧ num d = num FULL_ASTERN)
  ∧ (∃ d, d ∈ members ∧ num d = num FULL_AHEAD)
  ∧ (num FULL_ASTERN <= num FULL_AHEAD)%Z.
Proof.
  unfold well_formed. intros H.
  apply andb_prop in H as [H H5]. apply andb_prop in H as [H H4].
  apply andb_prop in H as [H H3]. apply andb_prop in H as [H1 H2].
  split; [exact H1|]. split.
  - apply is_member_num in H4 as (d & Hd & _). intros E. rewrite E in Hd.
    apply not_elem_of_nil in Hd. exact Hd.
  - split; [apply is_member_num; exact H2|].
    split; [apply is_member_num; exact H3 | apply Z.leb_le; exact H5].
Qed.

(** On a well-formed table the step that [increment_speed] takes from the
    closest member lands on a member. *)
Lemma step_up_exists (value : Q) :
  well_formed = true →
  (num (get_closest_value value) < num FULL_AHEAD)%Z →
  ∃ c, from_index (num (get_closest_value value) + 1) = Some c
       ∧ num c = (num (get_closest_value value) + 1)%Z.
Proof.
  intros Hwf Hlt. apply well_formed_parts in Hwf as (Hc & Hne & _ & (d & Hd & Ed) & _).
  apply has_index_Some.
  apply (contiguous_neighbours (get_closest_value value) d Hc
           (get_closest_value_member value Hne) Hd). lia.
Qed.

Lemma step_down_exists (value : Q) :
  well_formed = true →
  (num FULL_ASTERN < num (get_closest_value value))%Z →
  ∃ c, from_index (num (get_closest_value value) - 1) = Some c
       ∧ num c = (num (get_closest_value value) - 1)%Z.
Proof.
  intros Hwf Hlt. apply well_formed_parts in Hwf as (Hc & Hne & (d & Hd & Ed) & _).
  apply has_index_Some.
  apply (contiguous_neighbours (get_closest_value value) d Hc
           (get_closest_value_member value Hne) Hd). lia.
Qed.

End ChadburnFacts.

Section IncrementSpeedFacts.
Context {collaborators : Collaborators} {table : Chadburn.Table}.
Import Chadburn ChadburnLaws.

(** The index that lines 561-568 leave, from the index of the closest
    member. *)
Definition stepped_index (value : Z) (closest : t) : Z :=
  if (value =? -1)%Z
  then if (num closest <? num FULL_AHEAD)%Z then (num closest + 1)%Z else num closest
  else if (num closest >? num FULL_ASTERN)%Z then (num closest - 1)%Z else num closest.

Lemma increment_speed_step (value : Z) (mean : Q) (s0 : MotionController) :
  well_formed = true →
  let closest := get_closest_value mean in
  let s1 := with_chadburn_index (num closest) (with_chadburn closest s0) in
  ∃ c, num c = stepped_index value closest
       ∧ (stepped_index value closest = num closest → c = closest)
       ∧ (stepped_index value closest ≠ num closest
          → from_index (stepped_index value closest) = Some c)
       ∧ (if (value =? -1)%Z then
            s <- get ;;
            if (_chadburn_index s <? num FULL_AHEAD)%Z then
              modify (with_chadburn_index (_chadburn_index s + 1)) ;;
              set_chadburn_from_index
            else ret tt
          else
            s <- get ;;
            if (_chadburn_index s >? num FULL_ASTERN)%Z then
              modify (with_chadburn_index (_chadburn_index s - 1)) ;;
              set_chadburn_from_index
            else ret tt) s1
         = (Py.Returned tt,
            with_chadburn c (with_chadburn_index (stepped_index value closest) s1)).
Proof.
  intros Hwf closest s1. unfold stepped_index.
  destruct (value =? -1)%Z.
  - rewrite bind_get. change (_chadburn_index s1) with (num closest).
    destruct (num closest <? num FULL_AHEAD)%Z eqn:Elt.
    + apply Z.ltb_lt in Elt.
      destruct (step_up_exists mean Hwf Elt) as (c & Ec & Hc).
      exists c. split; [exact Hc|]. split; [intros; lia|].
      split; [intros _; exact Ec|].
      unfold set_chadburn_from_index, bind, modify, get. simpl.
      fold closest. fold closest in Ec. rewrite Ec. reflexivity.
    + exists closest. split; [reflexivity|]. split; [reflexivity|].
      split; [intros H; exfalso; apply H; reflexivity | reflexivity].
  - rewrite bind_get. change (_chadburn_index s1) with (num closest).
    destruct (num closest >? num FULL_ASTERN)%Z eqn:Egt.
    + apply Z.gtb_lt in Egt.
      destruct (step_down_exists mean Hwf Egt) as (c & Ec & Hc).
      exists c. split; [exact Hc|]. split; [intros; lia|].
      split; [intros _; exact Ec|].
      unfold set_chadburn_from_index, bind, modify, get. simpl.
      fold closest. fold closest in Ec. rewrite Ec. reflexivity.
    + exists closest. split; [reflexivity|]. split; [reflexivity|].
      split; [intros H; exfalso; apply H; reflexivity | reflexivity].
Qed.

(** The controller that [increment_speed] leaves when the member [c] is the
    one it ends on. *)
Definition after_increment (value : Z) (c : t) (s : MotionController)
  : MotionController :=
  let h0 := effect motor_controller_clear_speed_multipliers (hardware s) in
  let closest := get_closest_value (get_mean_speed Orientation.CNTR h0) in
  let port := motor_controller_set_speed Orientation.PORT (speed c) in
  let stbd := motor_controller_set_speed Orientation.STBD (speed c) in
  with_calls (calls s ++ [motor_controller_clear_speed_multipliers; port; stbd])
    (with_hardware (effect stbd (effect port h0))
       (with_chadburn c (with_chadburn_index (stepped_index value closest) s))).

Lemma increment_speed_run (value : Z) (s : MotionController) :
  well_formed = true →
  let h0 := effect motor_controller_clear_speed_multipliers (hardware s) in
  let closest := get_closest_value (get_mean_speed Orientation.CNTR h0) in
  ∃ c, num c = stepped_index value closest
       ∧ (stepped_index value closest = num closest → c = closest)
       ∧ (stepped_index value closest ≠ num closest
          → from_index (stepped_index value closest) = Some c)
       ∧ increment_speed value s = (Py.Returned tt, after_increment value c s).
Proof.
  intros Hwf h0 closest.
  set (s0 := with_calls (calls s ++ [motor_controller_clear_speed_multipliers])
               (with_hardware h0 s)).
  destruct (increment_speed_step value (get_mean_speed Orientation.CNTR h0) s0 Hwf)
    as (c & Hc & Hsame & Hfrom & Estep).
  fold closest in Hc, Hsame, Hfrom, Estep.
  exists c. split; [exact Hc|]. split; [exact Hsame|]. split; [exact Hfrom|].
  unfold increment_speed.
  unfold bind at 1. unfold _prepare_to_move at 1, call at 1, modify at 1.
  fold h0. fold s0. rewrite bind_get.
  unfold bind at 1. unfold modify at 1.
  unfold bind at 1. unfold modify at 1.
  change (get_mean_speed Orientation.CNTR (hardware s0))
    with (get_mean_speed Orientation.CNTR h0).
  fold closest.
  unfold bind at 1. rewrite Estep.
  unfold bind, call, modify, get, after_increment. simpl.
  fold h0. fold closest. rewrite <- !app_assoc. reflexivity.
Qed.


(** Where the index can end: one step from the closest member toward the
    interval from FULL_ASTERN to FULL_AHEAD, so inside it exactly when the
    closest member is inside it or one step outside on the far side of the
    step. *)
Lemma increment_speed_index_in_range (value : Z) (s : MotionController) :
  well_formed = true →
  let h0 := effect motor_controller_clear_speed_multipliers (hardware s) in
  let closest := get_closest_value (get_mean_speed Orientation.CNTR h0) in
  (num FULL_ASTERN <= num closest <= num FULL_AHEAD)%Z →
  (num FULL_ASTERN <= _chadburn_index (snd (increment_speed value s))
   <= num FULL_AHEAD)%Z.
Proof.
  intros Hwf h0 closest Hin.
  destruct (increment_speed_run value s Hwf) as (c & Hc & _ & _ & Er).
  rewrite Er. simpl. fold h0. fold closest. unfold stepped_index.
  destruct (value =? -1)%Z.
  - destruct (Z.ltb_spec (num closest) (num FULL_AHEAD)); lia.
  - destruct (Z.gtb_spec (num closest) (num FULL_ASTERN)); lia.
Qed.

(** C5, the code where the claim fails: when the measured mean speed is
    closest to a member whose index lies beyond FULL_AHEAD's (a MAXIMUM
    member), [increment_speed(-1)] adopts that index, finds it not below
    FULL_AHEAD's and leaves it there: after the call the index is outside the
    interval from FULL_ASTERN to FULL_AHEAD, and that member's speed is what
    both motors are sent. *)
Theorem increment_speed_keeps_index_beyond_full_ahead (s : MotionController) :
  well_formed = true →
  let h0 := effect motor_controller_clear_speed_multipliers (hardware s) in
  let closest := get_closest_value (get_mean_speed Orientation.CNTR h0) in
  (num FULL_AHEAD < num closest)%Z →
  let r := increment_speed (-1) s in
  fst r = Py.Returned tt
  ∧ _chadburn (snd r) = closest
  ∧ _chadburn_index (snd r) = num closest
  ∧ ¬ (num FULL_ASTERN <= _chadburn_index (snd r) <= num FULL_AHEAD)%Z
  ∧ calls (snd r)
    = calls s ++
      [ motor_controller_clear_speed_multipliers;
        motor_controller_set_speed Orientation.PORT (speed closest);
        motor_controller_set_speed Orientation.STBD (speed closest) ].
Proof.
  intros Hwf h0 closest Hout r.
  destruct (increment_speed_run (-1) s Hwf) as (c & Hc & Hsame & _ & Er).
  fold h0 in Hc, Hsame. fold closest in Hc, Hsame.
  assert (stepped_index (-1) closest = num closest) as Estay.
  { unfold stepped_index. simpl.
    destruct (Z.ltb_spec (num closest) (num FULL_AHEAD)); [lia | reflexivity]. }
  rewrite (Hsame Estay) in Er. subst r. rewrite Er. simpl.
  fold h0. fold closest. rewrite Estay.
  split; [reflexivity|]. split; [reflexivity|]. split; [reflexivity|].
  split; [lia | reflexivity].
Qed.

End IncrementSpeedFacts.

Section IncrementSpeedOnTheBench.
Import Bench.
#[local] Existing Instance Bench.collaborators.
#[local] Existing Instance Bench.table.
Local Open Scope Q_scope.

Lemma bench_table_well_formed : ChadburnLaws.well_formed = true.
Proof. reflexivity. Qed.


(** On the bench: with the four motors at full speed the measured mean speed
    1.0 is closest to MAXIMUM_AHEAD, whose index 6 lies beyond FULL_AHEAD's
    5; the index is 6 after [increment_speed(-1)], and still 6 after a
    second one. *)
Lemma increment_speed_keeps_index_beyond_full_ahead_witness :
  let s := controller (four_motors 1.0 []) false in
  let r1 := increment_speed (-1) s in
  let r2 := increment_speed (-1) (snd r1) in
  Chadburn.num Chadburn.FULL_AHEAD = 5%Z
  ∧ _chadburn_index (snd r1) = 6%Z
  ∧ calls (snd r1)
    = [ motor_controller_clear_speed_multipliers;
        motor_controller_set_speed Orientation.PORT 1.0;
        motor_controller_set_speed Orientation.STBD 1.0 ]
  ∧ _chadburn_index (snd r2) = 6%Z.
Proof.
  cbv zeta.
  pose proof (increment_speed_keeps_index_beyond_full_ahead
                (controller (four_motors 1.0 []) false) bench_table_well_formed) as H.
  cbv zeta in H.
  destruct H as (_ & _ & Hindex & _ & Hcalls); [vm_compute; reflexivity|].
  split; [reflexivity|]. split; [rewrite Hindex; reflexivity|].
  split; [rewrite Hcalls; reflexivity | vm_compute; reflexivity].
Defined.

End IncrementSpeedOnTheBench.

(** ** [set_heading] under a SIGINT *)

Section HeadingFacts.
Context {collaborators : Collaborators} {table : Chadburn.Table}.
Local Open Scope Q_scope.
Local Arguments set_steering_mode : simpl never.
Local Arguments set_heading_epilogue : simpl never.

Definition not_rotate_stopped (c : Call) : Prop :=
  c ≠ motor_controller_rotate Rotation.STOPPED.

Lemma bind_call {A} (c : Call) (k : unit → M A) (s : MotionController) :
  bind (call c) k s
  = k tt (with_calls (calls s ++ [c]) (with_hardware (effect c (hardware s)) s)).
Proof. reflexivity. Qed.

Lemma bind_assoc {A B C} (m : M A) (f : A → M B) (g : B → M C) (s : MotionController) :
  bind (bind m f) g s = bind m (fun a => bind (f a) g) s.
Proof. unfold bind. destruct (m s) as [[a|e|] s']; reflexivity. Qed.

(** The controller after the SIGINT handler has run. *)
Definition interrupted (s : MotionController) : MotionController :=
  with_calls (calls s ++ [motor_controller_stop; self_disable; self_close])
    (with_hardware
       (effect self_close
          (effect self_disable (effect motor_controller_stop (hardware s)))) s).

Lemma bind_rotate_sigint_handler {A} (k : unit → M A) (s : MotionController) :
  bind _rotate_sigint_handler k s = k tt (interrupted s).
Proof.
  unfold _rotate_sigint_handler, _shutdown.
  rewrite bind_assoc, bind_call, bind_assoc, !bind_call. unfold interrupted.
  cbn [calls with_calls with_hardware hardware].
  rewrite <- !app_assoc. reflexivity.
Qed.

Lemma heading_loop_keeps_mode (target : Q) (feed : list Tick) :
  ∀ (d : Q) (s : MotionController),
    _steering_mode (snd (heading_loop target d feed s)) = _steering_mode s.
Proof.
  induction feed as [|tick feed IH]; intros d s; simpl.
  - destruct (Py.isclose d 0.0 1.0); reflexivity.
  - destruct (Py.isclose d 0.0 1.0); [reflexivity|].
    destruct tick as [pot heading|];
      [|rewrite bind_rotate_sigint_handler, IH; reflexivity].
    rewrite !bind_call.
    destruct (Py.isclose (pot * (difference_in_degrees heading target / 180.0)) 0.0 1e-4);
      rewrite bind_assoc, !bind_call; rewrite IH; reflexivity.
Qed.

Lemma heading_loop_not_rotate_stopped (target : Q) (feed : list Tick) :
  ∀ d, logs (heading_loop target d feed) not_rotate_stopped.
Proof.
  induction feed as [|tick feed IH]; intros d; simpl.
  - destruct (Py.isclose d 0.0 1.0); [apply logs_ret | apply logs_unfinished].
  - destruct (Py.isclose d 0.0 1.0); [apply logs_ret|].
    destruct tick as [pot heading|];
      [|unfold _rotate_sigint_handler, _shutdown;
        repeat (apply logs_bind; [|intros _]);
        try (apply logs_call; discriminate); apply IH].
    apply logs_bind; [apply logs_call; discriminate | intros _].
    apply logs_bind.
    + destruct (Py.isclose _ 0.0 1e-4);
        (apply logs_bind; [apply logs_call; discriminate | intros _];
         apply logs_call; discriminate).
    + intros _. apply logs_bind; [apply logs_call; discriminate | intros _].
      apply IH.
Qed.

(** [set_steering_mode(ROTATE)] returns with ROTATE stored, having made at
    most the calls of one reposition. *)
Lemma set_steering_mode_rotate (s : MotionController) :
  ∃ l s2,
    set_steering_mode (Some SteeringMode.ROTATE) s = (Py.Returned tt, s2)
    ∧ _steering_mode s2 = Some SteeringMode.ROTATE
    ∧ calls s2 = calls s ++ l
    ∧ Forall not_rotate_stopped l.
Proof.
  destruct (decide (_steering_mode s = Some SteeringMode.ROTATE)) as [E|Hne].
  - exists [], s. rewrite (set_steering_mode_same _ s E), app_nil_r. auto.
  - destruct (set_steering_mode_other _ s Hne) as (l & F & E).
    rewrite E. simpl.
    destruct (needs_reposition SteeringMode.ROTATE (is_rotated (hardware s))).
    + eexists (self_reposition SteeringMode.ROTATE :: l), _.
      split; [reflexivity|]. split; [reflexivity|]. split; [reflexivity|].
      constructor; [discriminate|].
      eapply Forall_impl; [exact F|]. intros c Hc. destruct c; try contradiction; discriminate.
    + eexists [], _. split; [reflexivity|]. split; [reflexivity|].
      simpl. rewrite app_nil_r. auto.
Qed.

Lemma commit_mode_finishes (m : SteeringMode.t) (s : MotionController) :
  fst (commit_mode m s) ≠ Py.Unfinished.
Proof.
  destruct m; simpl; try discriminate.
  unfold bind, modify, get, update_motors. simpl.
  destruct (install_afrs_lambdas (motors (hardware s))) as [ms [e|]];
    simpl; discriminate.
Qed.

Lemma set_steering_mode_finishes (m : option SteeringMode.t) (s : MotionController) :
  fst (set_steering_mode m s) ≠ Py.Unfinished.
Proof.
  destruct m as [m|]; [|simpl; discriminate].
  destruct (decide (_steering_mode s = Some m)) as [E|Hne].
  - rewrite (set_steering_mode_same m s E). simpl. discriminate.
  - destruct (set_steering_mode_other m s Hne) as (l & _ & E). rewrite E.
    apply commit_mode_finishes.
Qed.

Lemma set_heading_epilogue_finishes (s : MotionController) :
  fst (set_heading_epilogue s) ≠ Py.Unfinished.
Proof.
  unfold set_heading_epilogue. rewrite bind_call. unfold bind.
  pose proof (set_steering_mode_finishes (Some SteeringMode.AFRS)
                (with_calls (calls s ++ [motor_controller_rotate Rotation.STOPPED])
                   (with_hardware
                      (effect (motor_controller_rotate Rotation.STOPPED) (hardware s)) s)))
    as H.
  destruct (set_steering_mode _ _) as [[u|e|] s']; simpl in *;
    [discriminate | discriminate | contradiction].
Qed.

(** With a potentiometer and a calibrated IMU the prologue returns, with
    ROTATE stored; it never commands the rotation to stop. *)
Lemma set_heading_prologue_ready (deg start : Q) (s : MotionController) :
  _digital_pot s = true →
  (∃ imu, _imu s = Some imu ∧ is_calibrated imu = true) →
  ∃ d l s2, set_heading_prologue deg start s = (Py.Returned d, s2)
            ∧ _steering_mode s2 = Some SteeringMode.ROTATE
            ∧ calls s2 = calls s ++ l
            ∧ Forall not_rotate_stopped l.
Proof.
  intros Hpot (imu & Ei & Hcal).
  unfold set_heading_prologue. rewrite bind_get, Hpot. cbn [negb].
  unfold _prepare_to_move. rewrite !bind_call, Ei, Hcal. cbn [negb].
  rewrite bind_call.
  match goal with
  | |- context [bind (set_steering_mode _) _ ?s0] =>
      destruct (set_steering_mode_rotate s0) as (l & s2 & E & Hm & Hc & F)
  end.
  unfold bind at 1. rewrite E. rewrite !bind_call.
  eexists _, (_ :: _ :: _ :: l ++ [_; _]), _.
  split; [reflexivity|]. split; [exact Hm|]. split.
  - simpl. rewrite Hc. simpl. rewrite <- !app_assoc. simpl. reflexivity.
  - repeat (constructor; [discriminate|]).
    apply Forall_app. split; [exact F|].
    repeat (constructor; [discriminate|]). constructor.
Qed.

(** The prologue either raises, or returns with ROTATE stored; it never
    commands the rotation to stop. *)
Lemma set_heading_prologue_returns (deg start : Q) (s : MotionController) :
  (∃ e s2, set_heading_prologue deg start s = (Py.Raised e, s2))
  ∨ (∃ d l s2, set_heading_prologue deg start s = (Py.Returned d, s2)
               ∧ _steering_mode s2 = Some SteeringMode.ROTATE
               ∧ calls s2 = calls s ++ l
               ∧ Forall not_rotate_stopped l).
Proof.
  destruct (_digital_pot s) eqn:Hpot.
  - destruct (_imu s) as [imu|] eqn:Ei.
    + destruct (is_calibrated imu) eqn:Hcal.
      * right. apply set_heading_prologue_ready; eauto.
      * left. unfold set_heading_prologue. rewrite bind_get, Hpot. cbn [negb].
        unfold _prepare_to_move. rewrite !bind_call, Ei, Hcal. cbn [negb]. eauto.
    + left. unfold set_heading_prologue. rewrite bind_get, Hpot. cbn [negb].
      unfold _prepare_to_move. rewrite !bind_call, Ei. eauto.
  - left. unfold set_heading_prologue. rewrite bind_get, Hpot. cbn [negb]. eauto.
Qed.






End HeadingFacts.

Section HeadingOnTheBench.
Import Bench.
#[local] Existing Instance Bench.collaborators.
#[local] Existing Instance Bench.table.
Local Open Scope Q_scope.



(** A run without a signal: once the heading is within a degree of the
    target the loop ends, the rotation is stopped and AFRS is restored. *)
Lemma set_heading_converged_run_cleans_up :
  let s := controller (four_motors 0 []) false in
  let r := set_heading Rotation.CLOCKWISE 90 10 [Sample 0.5 40; Sample 0.5 89.5] s in
  fst r = Py.Returned tt
  ∧ _steering_mode (snd r) = Some SteeringMode.AFRS
  ∧ motor_controller_rotate Rotation.STOPPED ∈ calls (snd r).
Proof.
  cbv zeta. split; [vm_compute; reflexivity|]. split; [vm_compute; reflexivity|].
  apply list_elem_of_In. vm_compute. tauto.
Qed.

End HeadingOnTheBench.

(* ===================================================================== *)
(** * Part III: further properties of the two files                       *)
(* ===================================================================== *)

(** ** [IrqClock]: registering, removing and ticking *)

Section IrqClockTickFacts.
Import Py IrqClock IrqClockTick.

Lemma filter_keeps_all {A} (P : A → Prop) `{∀ x, Decision (P x)} (l : list A) :
  (∀ z, z ∈ l → P z) → filter P l = l.
Proof.
  induction l as [|y l IH]; intros Hall; [reflexivity|].
  rewrite filter_cons_True by (apply Hall; left).
  f_equal. apply IH. intros z Hz. apply Hall. right. exact Hz.
Qed.

Lemma list_remove_filter {A} `{EqDecision A} (x : A) (l : list A) :
  NoDup l → x ∈ l → list_remove x l = Some (filter (fun y => y ≠ x) l).
Proof.
  induction l as [|y l IH]; intros Hnd Hin.
  - apply not_elem_of_nil in Hin. contradiction.
  - apply NoDup_cons in Hnd as [Hy Hnd]. simpl.
    destruct (decide (y = x)) as [->|Hne].
    + rewrite filter_cons_False by (intros H'; apply H'; reflexivity).
      f_equal. symmetry. apply filter_keeps_all.
      intros z Hz ->. contradiction.
    + rewrite filter_cons_True by exact Hne.
      apply elem_of_cons in Hin as [->|Hin]; [congruence|].
      rewrite (IH Hnd Hin). reflexivity.
Qed.

Lemma list_remove_app_new {A} `{EqDecision A} (x : A) (l : list A) :
  x ∉ l → list_remove x (l ++ [x]) = Some l.
Proof.
  induction l as [|y l IH]; intros Hx; simpl.
  - destruct (decide (x = x)); [reflexivity | contradiction].
  - apply not_elem_of_cons in Hx as [Hne Hx].
    destruct (decide (y = x)) as [->|_]; [contradiction|].
    rewrite (IH Hx). reflexivity.
Qed.

Lemma add_callback_new (id : nat) (self : IrqClock) :
  Callable id ∉ __callbacks self →
  add_callback (Callable id) self
  = (Returned tt, {| __callbacks := __callbacks self ++ [Callable id];
                     __lf_callbacks := __lf_callbacks self |}).
Proof.
  intros Hout. unfold add_callback. simpl.
  destruct (bool_decide_reflect (Callable id ∈ __callbacks self));
    [contradiction | reflexivity].
Qed.

(** X1: registering a callback that is not registered and removing it again
    gives back the registry exactly as it was. *)
Theorem add_then_remove_callback (id : nat) (self : IrqClock) :
  Callable id ∉ __callbacks self →
  fst (add_callback (Callable id) self) = Returned tt
  ∧ remove_callback (Callable id) (snd (add_callback (Callable id) self))
    = (Returned tt, self).
Proof.
  intros Hout. rewrite (add_callback_new id self Hout). simpl.
  split; [reflexivity|].
  unfold remove_callback. simpl.
  rewrite (list_remove_app_new _ _ Hout). destruct self; reflexivity.
Qed.

Lemma add_then_remove_callback_witness :
  remove_callback (Callable 3)
    (snd (add_callback (Callable 3)
            {| __callbacks := [Callable 1; Callable 2]; __lf_callbacks := [Callable 3] |}))
  = (Returned tt,
     {| __callbacks := [Callable 1; Callable 2]; __lf_callbacks := [Callable 3] |}).
Proof.
  apply (add_then_remove_callback 3
           {| __callbacks := [Callable 1; Callable 2]; __lf_callbacks := [Callable 3] |}).
  simpl. intros Hin. apply list_elem_of_In in Hin. simpl in Hin.
  destruct Hin as [H|[H|[]]]; discriminate.
Defined.

(** X2: on a registry without duplicates, removing a registered callback
    returns, takes exactly that callback out and keeps every other one in its
    place; the low-frequency list is not touched. *)
Theorem remove_callback_takes_it_out (id : nat) (self : IrqClock) :
  NoDup (__callbacks self) →
  Callable id ∈ __callbacks self →
  remove_callback (Callable id) self
  = (Returned tt,
     {| __callbacks := filter (fun v => v ≠ Callable id) (__callbacks self);
        __lf_callbacks := __lf_callbacks self |})
  ∧ (Callable id ∉ __callbacks (snd (remove_callback (Callable id) self)))
  ∧ ∀ v, v ≠ Callable id →
         (v ∈ __callbacks (snd (remove_callback (Callable id) self))
          ↔ v ∈ __callbacks self).
Proof.
  intros Hnd Hin. unfold remove_callback. simpl.
  rewrite (list_remove_filter _ _ Hnd Hin). simpl.
  split; [reflexivity|]. split.
  - intros H. apply list_elem_of_filter in H as [H _]. apply H. reflexivity.
  - intros v Hv. rewrite list_elem_of_filter. tauto.
Qed.

Lemma remove_callback_takes_it_out_witness :
  remove_callback (Callable 2)
    {| __callbacks := [Callable 1; Callable 2; Callable 3]; __lf_callbacks := [] |}
  = (Returned tt,
     {| __callbacks := filter (fun v => v ≠ Callable 2)
                         [Callable 1; Callable 2; Callable 3];
        __lf_callbacks := [] |}).
Proof.
  apply (remove_callback_takes_it_out 2
           {| __callbacks := [Callable 1; Callable 2; Callable 3]; __lf_callbacks := [] |}).
  - simpl. refine (bool_decide_unpack _ _). vm_compute. exact I.
  - simpl. refine (bool_decide_unpack _ _). vm_compute. exact I.
Defined.

(** X3: the three registry methods keep a registry well kept, whatever their
    argument and however the call ends: no callback twice in either list, and
    nothing in them that is not callable. *)
Theorem registry_stays_well_kept (v : Value) (self : IrqClock) :
  well_kept self →
  well_kept (snd (add_callback v self))
  ∧ well_kept (snd (add_low_frequency_callback v self))
  ∧ well_kept (snd (remove_callback v self)).
Proof.
  intros (Hnd & Hc & Hnd' & Hc'). split; [|split].
  - unfold add_callback. destruct v as [|id]; simpl; [repeat split; assumption|].
    destruct (bool_decide_reflect (Callable id ∈ __callbacks self)) as [Hin|Hout];
      simpl; [repeat split; assumption|].
    split; [|split; [|split; assumption]].
    + apply NoDup_app. split; [exact Hnd|]. split; [|apply NoDup_singleton].
      intros x Hx Hx'. apply list_elem_of_singleton in Hx'. subst x. contradiction.
    + apply Forall_app. split; [exact Hc|]. constructor; [reflexivity | constructor].
  - unfold add_low_frequency_callback.
    destruct v as [|id]; simpl; [repeat split; assumption|].
    destruct (bool_decide_reflect (Callable id ∈ __lf_callbacks self)) as [Hin|Hout];
      simpl; [repeat split; assumption|].
    split; [exact Hnd|]. split; [exact Hc|]. split.
    + apply NoDup_app. split; [exact Hnd'|]. split; [|apply NoDup_singleton].
      intros x Hx Hx'. apply list_elem_of_singleton in Hx'. subst x. contradiction.
    + apply Forall_app. split; [exact Hc'|]. constructor; [reflexivity | constructor].
  - unfold remove_callback. destruct v as [|id]; simpl; [repeat split; assumption|].
    destruct (decide (Callable id ∈ __callbacks self)) as [Hin|Hout].
    + rewrite (list_remove_filter _ _ Hnd Hin). simpl.
      split; [apply NoDup_filter; exact Hnd|].
      split; [|split; assumption].
      apply Forall_forall. intros x Hx. apply list_elem_of_filter in Hx as [_ Hx].
      rewrite Forall_forall in Hc. apply Hc. exact Hx.
    + apply list_remove_None in Hout. rewrite Hout. simpl. repeat split; assumption.
Qed.

Lemma registry_stays_well_kept_witness :
  well_kept (snd (add_callback (Callable 1) {| __callbacks := []; __lf_callbacks := [] |})).
Proof.
  apply (registry_stays_well_kept (Callable 1)
           {| __callbacks := []; __lf_callbacks := [] |}).
  unfold well_kept. simpl. repeat split; constructor.
Defined.

(** *** The tick *)

Lemma call_each_callable (callbacks log : list Value) :
  Forall (fun v => callable v = true) callbacks →
  call_each callbacks log = (None, log ++ callbacks).
Proof.
  revert log. induction callbacks as [|c cs IH]; intros log Hall; simpl.
  - rewrite app_nil_r. reflexivity.
  - apply Forall_cons in Hall as [Hc Hcs]. rewrite Hc, (IH _ Hcs), <- app_assoc.
    reflexivity.
Qed.

(** What one interrupt calls when the counter stands at [k]. *)
Definition round_of (r : IrqClock) (d k : Z) : list Value :=
  __callbacks r ++ (if (k mod d =? 0)%Z then __lf_callbacks r else []).

Definition ticking (self : Clock) : Prop :=
  enabled self = true ∧ _freq_divider self ≠ 0%Z
  ∧ Forall (fun v => callable v = true) (__callbacks (registry self))
  ∧ Forall (fun v => callable v = true) (__lf_callbacks (registry self)).

Lemma _callback_method_ticking (self : Clock) :
  ticking self →
  _callback_method self
  = (None, {| registry := registry self; enabled := enabled self;
              _freq_divider := _freq_divider self;
              _counter := (_counter self + 1)%Z;
              invoked := invoked self
                         ++ round_of (registry self) (_freq_divider self) (_counter self) |}).
Proof.
  intros (He & Hd & Hc & Hlf). unfold _callback_method, round_of.
  rewrite He, (call_each_callable _ _ Hc).
  apply Z.eqb_neq in Hd. rewrite Hd.
  destruct (_counter self mod _freq_divider self =? 0)%Z.
  - rewrite (call_each_callable _ _ Hlf), app_assoc. reflexivity.
  - rewrite app_nil_r. reflexivity.
Qed.

Lemma ticks_run (n : nat) (self : Clock) :
  ticking self →
  ticks n self
  = (None, {| registry := registry self; enabled := true;
              _freq_divider := _freq_divider self;
              _counter := (_counter self + Z.of_nat n)%Z;
              invoked := invoked self
                         ++ flat_map (round_of (registry self) (_freq_divider self))
                              (seqZ (_counter self) (Z.of_nat n)) |}).
Proof.
  revert self. induction n as [|n IH]; intros self Ht.
  - simpl. rewrite app_nil_r, Z.add_0_r.
    destruct Ht as (He & _). destruct self; simpl in *; subst; reflexivity.
  - cbn [ticks]. rewrite (_callback_method_ticking self Ht).
    rewrite IH by exact Ht. cbn [registry enabled _freq_divider _counter invoked].
    rewrite (seqZ_cons (_counter self) (Z.of_nat (S n))) by lia.
    cbn [flat_map]. rewrite <- app_assoc.
    replace (Z.pred (Z.of_nat (S n))) with (Z.of_nat n) by lia.
    replace (Z.succ (_counter self)) with (_counter self + 1)%Z by lia.
    replace (_counter self + 1 + Z.of_nat n)%Z
      with (_counter self + Z.of_nat (S n))%Z by lia.
    reflexivity.
Qed.

(** X4: on an enabled clock with a divider other than zero and callable
    entries, [n] interrupts in a row all return; the counter has advanced by
    [n], the registries are as before, and the callbacks called are, for
    each counter value [k] met in turn, every regular callback in registration
    order followed, when [k] is a multiple of the divider, by every
    low-frequency callback in registration order. *)
Theorem ticks_call_the_schedule (n : nat) (self : Clock) :
  enabled self = true →
  _freq_divider self ≠ 0%Z →
  Forall (fun v => callable v = true) (__callbacks (registry self)) →
  Forall (fun v => callable v = true) (__lf_callbacks (registry self)) →
  ticks n self
  = (None, {| registry := registry self; enabled := true;
              _freq_divider := _freq_divider self;
              _counter := (_counter self + Z.of_nat n)%Z;
              invoked := invoked self
                         ++ flat_map (fun k =>
                              __callbacks (registry self)
                              ++ (if (k mod _freq_divider self =? 0)%Z
                                  then __lf_callbacks (registry self) else []))
                              (seqZ (_counter self) (Z.of_nat n)) |}).
Proof.
  intros He Hd Hc Hlf. apply ticks_run. repeat split; assumption.
Qed.

Lemma ticks_call_the_schedule_witness :
  invoked (snd (ticks 3 {| registry := {| __callbacks := [Callable 1];
                                          __lf_callbacks := [Callable 2] |};
                           enabled := true; _freq_divider := 2; _counter := 0;
                           invoked := [] |}))
  = [Callable 1; Callable 2; Callable 1; Callable 1; Callable 2].
Proof.
  rewrite (ticks_call_the_schedule 3
             {| registry := {| __callbacks := [Callable 1];
                               __lf_callbacks := [Callable 2] |};
                enabled := true; _freq_divider := 2; _counter := 0;
                invoked := [] |});
    [reflexivity | reflexivity | discriminate
    | repeat constructor | repeat constructor].
Defined.

Lemma count_occ_flat_map_rounds (f : Value) (regular low : list Value) (d : Z) :
  (0 < d)%Z →
  ∀ n : nat,
    count_occ Value_eq_dec
      (flat_map (fun k => regular ++ (if (k mod d =? 0)%Z then low else []))
                (seqZ 0 (Z.of_nat n))) f
    = (n * count_occ Value_eq_dec regular f
       + Z.to_nat ((Z.of_nat n + d - 1) / d) * count_occ Value_eq_dec low f)%nat.
Proof.
  intros Hd. induction n as [|n IH].
  - assert ((Z.of_nat 0 + d - 1) / d = 0)%Z as -> by (apply Z.div_small; lia).
    reflexivity.
  - rewrite seqZ_S, flat_map_app, count_occ_app, IH. cbn [flat_map].
    rewrite app_nil_r, count_occ_app, Z.add_0_l.
    pose proof (Z.div_mod (Z.of_nat n) d ltac:(lia)) as Hdm.
    pose proof (Z.mod_pos_bound (Z.of_nat n) d Hd) as Hr.
    set (q := (Z.of_nat n / d)%Z) in *. set (r := (Z.of_nat n mod d)%Z) in *.
    assert (0 <= q)%Z as Hq by (apply Z.div_pos; lia).
    assert ((Z.of_nat (S n) + d - 1) / d = q + 1)%Z as E1.
    { symmetry. apply (Z.div_unique _ _ _ r); lia. }
    rewrite E1.
    destruct (Z.eqb_spec r 0) as [Hr0|Hr0].
    + assert ((Z.of_nat n + d - 1) / d = q)%Z as E0.
      { symmetry. apply (Z.div_unique _ _ _ (d - 1)); lia. }
      rewrite E0. replace (Z.to_nat (q + 1)) with (S (Z.to_nat q)) by lia. lia.
    + assert ((Z.of_nat n + d - 1) / d = q + 1)%Z as E0.
      { symmetry. apply (Z.div_unique _ _ _ (r - 1)); lia. }
      rewrite E0. simpl. lia.
Qed.

(** X5: from a fresh counter, with a positive divider [d], [n] interrupts
    call a callback once per interrupt for each time it is registered as a
    regular callback, and once per [d] interrupts, the first interrupt
    included, for each time it is registered as a low-frequency callback:
    [n] times and the ceiling of [n / d] times. *)
Theorem ticks_call_counts (n : nat) (f : Value) (self : Clock) :
  enabled self = true →
  (0 < _freq_divider self)%Z →
  _counter self = 0%Z →
  invoked self = [] →
  Forall (fun v => callable v = true) (__callbacks (registry self)) →
  Forall (fun v => callable v = true) (__lf_callbacks (registry self)) →
  count_occ Value_eq_dec (invoked (snd (ticks n self))) f
  = (n * count_occ Value_eq_dec (__callbacks (registry self)) f
     + Z.to_nat ((Z.of_nat n + _freq_divider self - 1) / _freq_divider self)
       * count_occ Value_eq_dec (__lf_callbacks (registry self)) f)%nat.
Proof.
  intros He Hd Hz Hi Hc Hlf.
  rewrite ticks_run by (repeat split; [assumption | lia | assumption | assumption]).
  cbn [snd invoked]. rewrite Hi, Hz, app_nil_l.
  apply count_occ_flat_map_rounds. exact Hd.
Qed.

Lemma ticks_call_counts_witness :
  count_occ Value_eq_dec
    (invoked (snd (ticks 7 {| registry := {| __callbacks := [Callable 1];
                                             __lf_callbacks := [Callable 2] |};
                              enabled := true; _freq_divider := 3; _counter := 0;
                              invoked := [] |})))
    (Callable 2)
  = 3%nat.
Proof.
  rewrite (ticks_call_counts 7 (Callable 2)
             {| registry := {| __callbacks := [Callable 1];
                               __lf_callbacks := [Callable 2] |};
                enabled := true; _freq_divider := 3; _counter := 0;
                invoked := [] |});
    [reflexivity | reflexivity | reflexivity | reflexivity | reflexivity
    | repeat constructor | repeat constructor].
Defined.

(** X6: with a divider of zero the first interrupt fails on the modulo: by
    then every regular callback has been called and the counter has advanced,
    no low-frequency callback is called, and a run of interrupts ends there. *)
Theorem tick_with_zero_divider (n : nat) (self : Clock) :
  enabled self = true →
  _freq_divider self = 0%Z →
  Forall (fun v => callable v = true) (__callbacks (registry self)) →
  ticks (S n) self
  = (Some ZeroDivisionError,
     {| registry := registry self; enabled := true; _freq_divider := 0;
        _counter := (_counter self + 1)%Z;
        invoked := invoked self ++ __callbacks (registry self) |}).
Proof.
  intros He Hd Hc. cbn [ticks]. unfold _callback_method.
  rewrite He, (call_each_callable _ _ Hc), Hd. reflexivity.
Qed.

Lemma tick_with_zero_divider_witness :
  fst (ticks 5 {| registry := {| __callbacks := [Callable 1];
                                 __lf_callbacks := [Callable 2] |};
                  enabled := true; _freq_divider := 0; _counter := 0;
                  invoked := [] |})
  = Some ZeroDivisionError.
Proof.
  rewrite (tick_with_zero_divider 4
             {| registry := {| __callbacks := [Callable 1];
                               __lf_callbacks := [Callable 2] |};
                enabled := true; _freq_divider := 0; _counter := 0;
                invoked := [] |});
    [reflexivity | reflexivity | reflexivity | repeat constructor].
Defined.

End IrqClockTickFacts.

(** ** The dispatcher: the branches keyed on the event's group *)

Section DispatcherBranches.
Context {collaborators : Collaborators} {table : Chadburn.Table}.

(** The controller after the calls [l], made in that order. *)
Definition after_calls (l : list Call) (s : MotionController) : MotionController :=
  with_calls (calls s ++ l) (with_hardware (replay l (hardware s)) s).

Lemma after_calls_nil (s : MotionController) : after_calls [] s = s.
Proof. unfold after_calls. simpl. rewrite app_nil_r. destruct s; reflexivity. Qed.

Lemma call_after_calls (c : Call) (l : list Call) (s : MotionController) :
  call c (after_calls l s) = (Py.Returned tt, after_calls (l ++ [c]) s).
Proof.
  unfold call, modify, after_calls. simpl.
  rewrite replay_app, <- app_assoc. reflexivity.
Qed.

Lemma call_run (c : Call) (s : MotionController) :
  call c s = (Py.Returned tt, after_calls [c] s).
Proof. reflexivity. Qed.

(** X7: a BUMPER message never halts the robot.  Whatever the events of the
    batch and their priorities, the dispatcher calls the stop handler's
    [stop] and then forwards the message; [halt] is not called. *)
Theorem bumper_message_stops_never_halts
    (by_event_num : Message → M unit) (message : Message) (d : SensorData)
    (s : MotionController) :
  group (event message) = Group.BUMPER →
  value message = SensorValue d →
  process_message by_event_num message s
  = (Py.Returned tt,
     after_calls [stop_handler_stop; subscriber_process_message message] s)
  ∧ stop_handler_halt ∉ [stop_handler_stop; subscriber_process_message message].
Proof.
  intros Hg Hv. split.
  - unfold process_message. rewrite Hg, Hv, process_bumper_always_stops.
    unfold bind. rewrite call_run.
    rewrite (call_after_calls _ [stop_handler_stop]). reflexivity.
  - intros Hin. apply list_elem_of_In in Hin. simpl in Hin.
    destruct Hin as [H|[H|[]]]; discriminate.
Qed.

(** X8: an IMU message stops the robot unless the motor controller reports
    it stopped already: then nothing is done.  When it is moving the stop
    handler's [stop] is called and the CHATTER_3 sound played.  Either way
    the message is forwarded afterwards. *)
Theorem imu_message_stops_a_moving_robot
    (by_event_num : Message → M unit) (message : Message) (s : MotionController) :
  group (event message) = Group.IMU →
  process_message by_event_num message s
  = (Py.Returned tt,
     after_calls
       ((if is_stopped (hardware s) then []
         else [stop_handler_stop; player_play "CHATTER_3"])
        ++ [subscriber_process_message message]) s).
Proof.
  intros Hg. unfold process_message. rewrite Hg.
  unfold bind at 1. rewrite bind_get.
  destruct (is_stopped (hardware s)).
  - reflexivity.
  - unfold _handle_imu_event, bind. rewrite call_run.
    rewrite (call_after_calls _ [stop_handler_stop]).
    rewrite (call_after_calls _ [stop_handler_stop; player_play "CHATTER_3"]).
    reflexivity.
Qed.

(** X9: a STOP message reaches the stop handler only when its value is 0 and
    the motor controller does not report the robot stopped; in every other
    case the dispatcher does nothing with it.  Either way the message is
    forwarded afterwards. *)
Theorem stop_message_reaches_the_handler_once_needed
    (by_event_num : Message → M unit) (message : Message) (s : MotionController) :
  group (event message) = Group.STOP →
  process_message by_event_num message s
  = (Py.Returned tt,
     after_calls
       ((match value message with
         | IntValue 0 =>
             if is_stopped (hardware s) then []
             else [stop_handler_process_message message]
         | _ => []
         end)
        ++ [subscriber_process_message message]) s).
Proof.
  intros Hg. unfold process_message. rewrite Hg.
  destruct (value message) as [v|d] eqn:Ev.
  - destruct v as [|p|p]; try reflexivity.
    unfold bind at 1. rewrite bind_get.
    destruct (is_stopped (hardware s)); [reflexivity|].
    rewrite call_run. cbv beta iota.
    rewrite (call_after_calls _ [stop_handler_process_message message]).
    reflexivity.
  - reflexivity.
Qed.

End DispatcherBranches.

Section DispatcherBranchesOnTheBench.
#[local] Existing Instance Bench.collaborators.
#[local] Existing Instance Bench.table.

Lemma bumper_message_stops_never_halts_witness :
  let message :=
    {| event := Bench.BUMPER_FOBP;
       value := SensorValue {| events := [Bench.BUMPER_FOBP]; fop_cm := 3; fos_cm := 90 |} |} in
  fst (process_message (fun _ => ret tt) message (Bench.controller [] false))
  = Py.Returned tt.
Proof.
  cbv zeta.
  rewrite (proj1 (bumper_message_stops_never_halts (fun _ => ret tt)
             {| event := Bench.BUMPER_FOBP;
                value := SensorValue {| events := [Bench.BUMPER_FOBP];
                                        fop_cm := 3; fos_cm := 90 |} |}
             {| events := [Bench.BUMPER_FOBP]; fop_cm := 3; fos_cm := 90 |}
             (Bench.controller [] false) eq_refl eq_refl)).
  reflexivity.
Defined.

(** The bench controller while the robot moves. *)
Definition moving : MotionController :=
  with_hardware {| motors := []; is_rotated := false; is_stopped := false |}
    (Bench.controller [] false).

Lemma imu_message_stops_a_moving_robot_witness :
  let message := {| event := {| event_num := 300; priority := 1; group := Group.IMU |};
                    value := IntValue 1 |} in
  calls (snd (process_message (fun _ => ret tt) message moving))
  = [stop_handler_stop; player_play "CHATTER_3"; subscriber_process_message message]
  ∧ calls (snd (process_message (fun _ => ret tt) message (Bench.controller [] false)))
    = [subscriber_process_message message].
Proof.
  cbv zeta. split.
  - rewrite (imu_message_stops_a_moving_robot (fun _ => ret tt)
               {| event := {| event_num := 300; priority := 1; group := Group.IMU |};
                  value := IntValue 1 |}
               moving eq_refl).
    reflexivity.
  - rewrite (imu_message_stops_a_moving_robot (fun _ => ret tt)
               {| event := {| event_num := 300; priority := 1; group := Group.IMU |};
                  value := IntValue 1 |}
               (Bench.controller [] false) eq_refl).
    reflexivity.
Defined.

Lemma stop_message_reaches_the_handler_once_needed_witness :
  let message := {| event := {| event_num := 200; priority := 1; group := Group.STOP |};
                    value := IntValue 0 |} in
  calls (snd (process_message (fun _ => ret tt) message moving))
  = [stop_handler_process_message message; subscriber_process_message message]
  ∧ calls (snd (process_message (fun _ => ret tt) message (Bench.controller [] false)))
    = [subscriber_process_message message].
Proof.
  cbv zeta. split.
  - rewrite (stop_message_reaches_the_handler_once_needed (fun _ => ret tt)
               {| event := {| event_num := 200; priority := 1; group := Group.STOP |};
                  value := IntValue 0 |}
               moving eq_refl).
    reflexivity.
  - rewrite (stop_message_reaches_the_handler_once_needed (fun _ => ret tt)
               {| event := {| event_num := 200; priority := 1; group := Group.STOP |};
                  value := IntValue 0 |}
               (Bench.controller [] false) eq_refl).
    reflexivity.
Defined.

End DispatcherBranchesOnTheBench.

(** ** [change_speed]: the dead zone of the joystick *)

Section ChangeSpeedDeadZone.
Context {collaborators : Collaborators} {table : Chadburn.Table}.
Local Open Scope Q_scope.

Lemma change_speed_increment_cases (value : Z) :
  ((64 <= value <= 190)%Z ∧ (-3 <= change_speed_increment value <= 3)%Z)
  ∨ ((value < 64)%Z ∧ (4 <= change_speed_increment value <= 7)%Z)
  ∨ ((190 < value)%Z ∧ (-7 <= change_speed_increment value <= -4)%Z).
Proof.
  unfold change_speed_increment. rewrite int_of_sixteenths. unfold _incr_clamp.
  Z.to_euclidean_division_equations. lia.
Qed.

Lemma delta_of_increment (n : Z) :
  (-7 <= n <= 7)%Z →
  inject_Z n * _scale_factor == inject_Z n * (357 # 125000).
Proof. intros _. unfold _scale_factor. field. Qed.

Lemma increment_bounds_delta (n lo hi : Z) :
  (lo <= n <= hi)%Z →
  inject_Z lo * (357 # 125000) <= inject_Z n * _scale_factor
  ∧ inject_Z n * _scale_factor <= inject_Z hi * (357 # 125000).
Proof.
  intros [Hlo Hhi].
  assert (inject_Z n * _scale_factor == inject_Z n * (357 # 125000)) as E
    by (unfold _scale_factor; field).
  rewrite E. rewrite Zle_Qle in Hlo, Hhi.
  set (x := inject_Z n) in *. set (a := inject_Z lo) in *. set (b := inject_Z hi) in *.
  clearbody x a b. split; lra.
Qed.

Lemma tolerance_value : 1e-2 == 1 # 100.
Proof. reflexivity. Qed.

Lemma change_speed_delta_cases (value : Z) :
  ((64 <= value <= 190)%Z ∧ Qabs (change_speed_delta value) <= 1 # 100)
  ∨ ((value < 64)%Z ∧ 1 # 100 < change_speed_delta value
     ∧ change_speed_delta value <= 1 # 50)
  ∨ ((190 < value)%Z ∧ change_speed_delta value < - (1 # 100)
     ∧ - (1 # 50) <= change_speed_delta value).
Proof.
  unfold change_speed_delta.
  destruct (change_speed_increment_cases value) as [[Hv Hn]|[[Hv Hn]|[Hv Hn]]];
    apply increment_bounds_delta in Hn; destruct Hn as [Hlo Hhi];
    set (d := inject_Z (change_speed_increment value) * _scale_factor) in *;
    clearbody d.
  - left. split; [exact Hv|]. apply Qabs_Qle_condition.
    assert (inject_Z (-3) * (357 # 125000) == - (1071 # 125000)) as E1 by reflexivity.
    assert (inject_Z 3 * (357 # 125000) == 1071 # 125000) as E2 by reflexivity.
    rewrite E1 in Hlo. rewrite E2 in Hhi. split; lra.
  - right. left. split; [exact Hv|].
    assert (inject_Z 4 * (357 # 125000) == 1428 # 125000) as E1 by reflexivity.
    assert (inject_Z 7 * (357 # 125000) == 2499 # 125000) as E2 by reflexivity.
    rewrite E1 in Hlo. rewrite E2 in Hhi. split; lra.
  - right. right. split; [exact Hv|].
    assert (inject_Z (-7) * (357 # 125000) == - (2499 # 125000)) as E1 by reflexivity.
    assert (inject_Z (-4) * (357 # 125000) == - (1428 # 125000)) as E2 by reflexivity.
    rewrite E1 in Hlo. rewrite E2 in Hhi. split; lra.
Qed.

Lemma replay_keeps_motor_count (Hk : keeps_motor_count) (cs : list Call) :
  ∀ h, length (motors (replay cs h)) = length (motors h).
Proof.
  induction cs as [|c cs IH]; intros h; [reflexivity|].
  unfold replay in *. simpl. rewrite IH. apply Hk.
Qed.

(** What a run of [change_speed] is: it returns, having cleared the speed
    multipliers and then issued the commands [cmds]. *)
Lemma change_speed_run (Hk : keeps_motor_count) (value : Z) (s : MotionController) :
  let h0 := effect motor_controller_clear_speed_multipliers (hardware s) in
  let delta := change_speed_delta value in
  ∃ cmds,
    change_speed value s
    = (Py.Returned tt, after_calls (motor_controller_clear_speed_multipliers :: cmds) s)
    ∧ (Qabs delta <= 1e-2 → cmds = [])
    ∧ (1e-2 < Qabs delta →
         length cmds = length (motors h0)
         ∧ ∀ (k : nat) (m : Motor),
             motors (replay (take k cmds) h0) !! k = Some m →
             cmds !! k = Some (motor_controller_set_motor_speed
                                 (orientation m) (target_speed m + delta))).
Proof.
  cbv zeta. unfold change_speed.
  set (delta := change_speed_delta value).
  set (h0 := effect motor_controller_clear_speed_multipliers (hardware s)).
  unfold _prepare_to_move. rewrite bind_call. fold h0.
  set (s0 := with_calls (calls s ++ [motor_controller_clear_speed_multipliers])
               (with_hardware h0 s)).
  destruct (negb (Py.isclose delta 0.0 1e-2)) eqn:Eclose.
  - apply not_isclose_zero in Eclose; [|discriminate].
    destruct (change_speed_loop_spec delta Hk (length (motors (hardware s0))) 0 s0)
      as (cmds & Erun & Elen & Hcmds); [reflexivity|].
    exists cmds. rewrite bind_get, Erun. split; [|split].
    + f_equal. unfold after_calls, s0, with_calls, with_hardware. simpl.
      rewrite <- app_assoc. reflexivity.
    + intros Hle. exfalso. apply (Qlt_not_le _ _ Eclose). exact Hle.
    + intros _. split; [exact Elen|].
      intros k m Hm. apply Hcmds; [exact Hm|].
      apply lookup_lt_Some in Hm.
      rewrite (replay_keeps_motor_count Hk) in Hm. exact Hm.
  - exists []. split; [reflexivity|]. split; [reflexivity|].
    intros Hlt. exfalso.
    apply not_isclose_zero in Hlt; [|discriminate]. rewrite Hlt in Eclose. discriminate.
Qed.

(** X10: the joystick has a dead zone.  With at least one motor,
    [change_speed(value)] issues no motor speed command (its only call is
    [clear_speed_multipliers]) exactly when the raw value is between 64 and
    190; for every other value it commands each motor once. *)
Theorem change_speed_dead_zone (Hk : keeps_motor_count)
    (value : Z) (s : MotionController) :
  let h0 := effect motor_controller_clear_speed_multipliers (hardware s) in
  motors h0 ≠ [] →
  fst (change_speed value s) = Py.Returned tt
  ∧ (calls (snd (change_speed value s))
     = calls s ++ [motor_controller_clear_speed_multipliers]
     ↔ (64 <= value <= 190)%Z)
  ∧ (¬ (64 <= value <= 190)%Z →
     length (calls (snd (change_speed value s)))
     = (length (calls s) + 1 + length (motors h0))%nat).
Proof.
  cbv zeta. intros Hmotors.
  destruct (change_speed_run Hk value s) as (cmds & Erun & Hin & Hout).
  rewrite Erun. cbn [fst snd]. unfold after_calls. cbn [calls with_calls].
  split; [reflexivity|].
  destruct (change_speed_delta_cases value) as [[Hv Hd]|Hv].
  - rewrite <- tolerance_value in Hd.
    rewrite (Hin Hd). split; [tauto|]. intros Hn. contradiction.
  - assert (1e-2 < Qabs (change_speed_delta value) ∧ ¬ (64 <= value <= 190)%Z)
      as [Hd Hnot].
    { rewrite tolerance_value.
      destruct Hv as [(Hv & Hlo & _)|(Hv & Hhi & _)]; (split; [|lia]).
      - eapply Qlt_le_trans; [exact Hlo | apply Qle_Qabs].
      - rewrite <- Qabs_opp. eapply Qlt_le_trans; [|apply Qle_Qabs].
        set (d := change_speed_delta value) in *. clearbody d. lra. }
    destruct (Hout Hd) as [Hlen _]. split; [split|].
    + intros E. apply app_inv_head in E. injection E as E.
      subst cmds. simpl in Hlen. symmetry in Hlen.
      apply length_zero_iff_nil in Hlen. contradiction.
    + intros Hz. contradiction.
    + intros _. rewrite length_app. simpl. rewrite Hlen. lia.
Qed.

(** X11: one call of [change_speed] moves no motor's target speed by more
    than 0.02.  Each command it issues (at most one per motor, in the order
    of the motors) addresses the motor at that place by its orientation with
    a speed that differs from the motor's target speed by the same delta, at
    most 0.02 in absolute value: an increase for raw values below 64, a
    decrease for raw values above 190. *)
Theorem change_speed_step_is_bounded (Hk : keeps_motor_count)
    (value : Z) (s : MotionController) :
  let h0 := effect motor_controller_clear_speed_multipliers (hardware s) in
  ∃ (delta : Q) (cmds : list Call),
    calls (snd (change_speed value s))
    = calls s ++ motor_controller_clear_speed_multipliers :: cmds
    ∧ Qabs delta <= 0.02
    ∧ ((value < 64)%Z → 0 < delta) ∧ ((190 < value)%Z → delta < 0)
    ∧ (length cmds <= length (motors h0))%nat
    ∧ ∀ (k : nat) (c : Call),
        cmds !! k = Some c →
        ∃ m, motors (replay (take k cmds) h0) !! k = Some m
             ∧ c = motor_controller_set_motor_speed
                     (orientation m) (target_speed m + delta).
Proof.
  cbv zeta. exists (change_speed_delta value).
  destruct (change_speed_run Hk value s) as (cmds & Erun & Hin & Hout).
  exists cmds. rewrite Erun. cbn [snd]. unfold after_calls. cbn [calls with_calls].
  split; [reflexivity|].
  assert (Qabs (change_speed_delta value) <= 0.02
          ∧ ((value < 64)%Z → 0 < change_speed_delta value)
          ∧ ((190 < value)%Z → change_speed_delta value < 0)) as (Hb & Hup & Hdown).
  { destruct (change_speed_delta_cases value)
      as [[Hv Hd]|[(Hv & Hlo & Hhi)|(Hv & Hlo & Hhi)]];
      set (d := change_speed_delta value) in *; clearbody d.
    - split; [|split; intros; lia].
      eapply Qle_trans; [exact Hd|]. discriminate.
    - split; [|split; intros; [lra | lia]].
      apply Qabs_Qle_condition. split; lra.
    - split; [|split; intros; [lia | lra]].
      apply Qabs_Qle_condition. split; lra. }
  split; [exact Hb|]. split; [exact Hup|]. split; [exact Hdown|].
  destruct (Qlt_le_dec 1e-2 (Qabs (change_speed_delta value))) as [Hd|Hd].
  - destruct (Hout Hd) as [Hlen Hcmds]. split; [lia|].
    intros k c Hc.
    assert (k < length (motors (replay (take k cmds)
                (effect motor_controller_clear_speed_multipliers (hardware s)))))%nat
      as Hk'.
    { rewrite (replay_keeps_motor_count Hk), <- Hlen.
      eapply lookup_lt_Some, Hc. }
    apply lookup_lt_is_Some in Hk' as [m Hm].
    exists m. split; [exact Hm|].
    rewrite (Hcmds k m Hm) in Hc. injection Hc as <-. reflexivity.
  - rewrite (Hin Hd). split; [simpl; lia|]. intros k c Hc. discriminate.
Qed.

End ChangeSpeedDeadZone.

Section ChangeSpeedDeadZoneOnTheBench.
Import Bench.
#[local] Existing Instance Bench.collaborators.
#[local] Existing Instance Bench.table.
Local Open Scope Q_scope.

Lemma change_speed_dead_zone_witness :
  calls (snd (change_speed 100 (controller (four_motors 0.2 []) false)))
  = [motor_controller_clear_speed_multipliers].
Proof.
  apply (proj1 (proj2 (change_speed_dead_zone bench_keeps_motor_count 100
                         (controller (four_motors 0.2 []) false)
                         ltac:(discriminate)))).
  lia.
Defined.

Lemma change_speed_step_is_bounded_witness :
  ∃ (delta : Q) (cmds : list Call),
    calls (snd (change_speed 0 (controller (four_motors 0.2 []) false)))
    = [] ++ motor_controller_clear_speed_multipliers :: cmds
    ∧ Qabs delta <= 0.02.
Proof.
  destruct (change_speed_step_is_bounded bench_keeps_motor_count 0
              (controller (four_motors 0.2 []) false))
    as (delta & cmds & E & Hb & _).
  exists delta, cmds. split; [exact E | exact Hb].
Defined.

End ChangeSpeedDeadZoneOnTheBench.

(** ** [set_steering_mode]: the speed multipliers of the modes *)

Section ModeLambdas.
Context {collaborators : Collaborators} {table : Chadburn.Table}.

Lemma has_speed_multiplier_true (name : string) (m : Motor) :
  has_speed_multiplier name m = true ↔ is_Some (speed_multipliers m !! name).
Proof. unfold has_speed_multiplier. apply bool_decide_eq_true. Qed.

Lemma has_speed_multiplier_false (name : string) (m : Motor) :
  has_speed_multiplier name m = false ↔ speed_multipliers m !! name = None.
Proof.
  unfold has_speed_multiplier. rewrite bool_decide_eq_false.
  rewrite <- eq_None_not_Some. reflexivity.
Qed.

(** X12: the loop that strips the multipliers of the mode left removes the
    "steering" and the "stop" multiplier of a motor that has a "steering"
    multiplier, and touches nothing else; a motor without a "steering"
    multiplier is left as it is, its "stop" multiplier included. *)
Theorem remove_mode_lambdas_follows_steering (_motor : Motor) :
  orientation (remove_mode_lambdas _motor) = orientation _motor
  ∧ target_speed (remove_mode_lambdas _motor) = target_speed _motor
  ∧ has_speed_multiplier "steering" (remove_mode_lambdas _motor) = false
  ∧ (∀ name, name ≠ "steering"%string → name ≠ "stop"%string →
       speed_multipliers (remove_mode_lambdas _motor) !! name
       = speed_multipliers _motor !! name)
  ∧ has_speed_multiplier "stop" (remove_mode_lambdas _motor)
    = has_speed_multiplier "stop" _motor && negb (has_speed_multiplier "steering" _motor).
Proof.
  unfold remove_mode_lambdas.
  destruct (has_speed_multiplier "steering" _motor) eqn:Hs.
  - simpl. split; [reflexivity|]. split; [reflexivity|]. split; [|split].
    + apply has_speed_multiplier_false. simpl.
      rewrite lookup_delete_ne by discriminate. apply lookup_delete_eq.
    + intros name H1 H2. rewrite !lookup_delete_ne by congruence. reflexivity.
    + rewrite andb_false_r. apply has_speed_multiplier_false. simpl.
      apply lookup_delete_eq.
  - rewrite andb_true_r. split; [reflexivity|]. split; [reflexivity|].
    split; [exact Hs|]. split; [intros; reflexivity | reflexivity].
Qed.

(** *** The AFRS lambdas *)

(** The name and the lambda that line 1018-1025 give a motor by its side. *)
Definition afrs_lambda_for (_motor : Motor) : option (string * SpeedLambda) :=
  match Orientation.side (orientation _motor) with
  | Orientation.PORT => Some (PORT_AFRS_STEERING_LAMBDA_NAME, _port_steering_lambda)
  | Orientation.STBD => Some (STBD_AFRS_STEERING_LAMBDA_NAME, _stbd_steering_lambda)
  | _ => None
  end.

(** [m'] is [m] equipped for AFRS: it has a multiplier under its side's name
    (the controller's lambda, unless [m] had one under that name already),
    and is [m] in everything else. *)
Definition afrs_equipped (m m' : Motor) : Prop :=
  orientation m' = orientation m
  ∧ target_speed m' = target_speed m
  ∧ speed_multipliers m ⊆ speed_multipliers m'
  ∧ ∃ name lam,
      afrs_lambda_for m = Some (name, lam)
      ∧ has_speed_multiplier name m' = true
      ∧ (has_speed_multiplier name m = false
         → speed_multipliers m' !! name = Some lam)
      ∧ ∀ other, other ≠ name →
          speed_multipliers m' !! other = speed_multipliers m !! other.

Lemma afrs_equipped_one (m : Motor) (name : string) (lam : SpeedLambda) :
  afrs_lambda_for m = Some (name, lam) →
  (has_speed_multiplier name m = true ∧ afrs_equipped m m)
  ∨ (has_speed_multiplier name m = false
     ∧ add_speed_multiplier name lam m
       = inr {| orientation := orientation m; target_speed := target_speed m;
                speed_multipliers := <[name := lam]> (speed_multipliers m) |}
     ∧ afrs_equipped m
         {| orientation := orientation m; target_speed := target_speed m;
            speed_multipliers := <[name := lam]> (speed_multipliers m) |}).
Proof.
  intros Hfor. destruct (has_speed_multiplier name m) eqn:Hhas.
  - left. split; [reflexivity|]. split; [reflexivity|]. split; [reflexivity|].
    split; [reflexivity|]. exists name, lam.
    split; [exact Hfor|]. split; [exact Hhas|]. split; [congruence|].
    intros; reflexivity.
  - right. split; [reflexivity|]. split.
    + unfold add_speed_multiplier. rewrite Hhas. reflexivity.
    + split; [reflexivity|]. split; [reflexivity|]. simpl. split.
      * apply insert_subseteq. apply has_speed_multiplier_false. exact Hhas.
      * exists name, lam. split; [exact Hfor|]. split; [|split].
        -- apply has_speed_multiplier_true. simpl. rewrite lookup_insert_eq. eauto.
        -- intros _. apply lookup_insert_eq.
        -- intros other Hne. apply lookup_insert_ne. congruence.
Qed.

Definition sided (m : Motor) : Prop :=
  Orientation.side (orientation m) ≠ Orientation.CNTR.

Lemma sided_afrs_lambda_for (m : Motor) :
  sided m → ∃ name lam, afrs_lambda_for m = Some (name, lam).
Proof.
  unfold sided, afrs_lambda_for.
  destruct (orientation m); simpl; intros H; eauto; contradiction.
Qed.

Lemma install_afrs_lambdas_step (m : Motor) (rest : list Motor)
    (name : string) (lam : SpeedLambda) :
  afrs_lambda_for m = Some (name, lam) →
  install_afrs_lambdas (m :: rest)
  = if has_speed_multiplier name m then
      (m :: fst (install_afrs_lambdas rest), snd (install_afrs_lambdas rest))
    else
      ({| orientation := orientation m; target_speed := target_speed m;
          speed_multipliers := <[name := lam]> (speed_multipliers m) |}
         :: fst (install_afrs_lambdas rest), snd (install_afrs_lambdas rest)).
Proof.
  unfold afrs_lambda_for. cbn [install_afrs_lambdas].
  destruct (Orientation.side (orientation m)); try discriminate;
    intros [= <- <-]; unfold add_speed_multiplier;
    destruct (has_speed_multiplier _ m); destruct (install_afrs_lambdas rest);
    reflexivity.
Qed.

Lemma install_afrs_lambdas_equips (ms : list Motor) :
  Forall sided ms →
  ∃ ms', install_afrs_lambdas ms = (ms', None) ∧ Forall2 afrs_equipped ms ms'.
Proof.
  induction ms as [|m rest IH]; intros Hs.
  - exists []. split; [reflexivity | constructor].
  - apply Forall_cons in Hs as [Hm Hrest].
    destruct (IH Hrest) as (rest' & Erest & Hequipped).
    destruct (sided_afrs_lambda_for m Hm) as (name & lam & Hfor).
    rewrite (install_afrs_lambdas_step m rest name lam Hfor), Erest. cbn [fst snd].
    destruct (afrs_equipped_one m name lam Hfor) as [[Hhas He]|(Hhas & _ & He)];
      rewrite Hhas; eexists; (split; [reflexivity|]); constructor; assumption.
Qed.

Lemma afrs_equipped_again (m m' : Motor) :
  afrs_equipped m m' → afrs_equipped m' m' ∧ sided m'.
Proof.
  intros (Ho & Ht & Hsub & name & lam & Hfor & Hhas & Hnew & Hother).
  assert (afrs_lambda_for m' = Some (name, lam)) as Hfor'.
  { unfold afrs_lambda_for in *. rewrite Ho. exact Hfor. }
  split.
  - split; [reflexivity|]. split; [reflexivity|]. split; [reflexivity|].
    exists name, lam. split; [exact Hfor'|]. split; [exact Hhas|].
    split; [congruence | intros; reflexivity].
  - unfold sided. unfold afrs_lambda_for in Hfor'.
    destruct (Orientation.side (orientation m')); discriminate.
Qed.

Lemma install_afrs_lambdas_settled (ms : list Motor) :
  Forall (fun m => afrs_equipped m m) ms →
  install_afrs_lambdas ms = (ms, None).
Proof.
  induction ms as [|m rest IH]; intros Hs; [reflexivity|].
  apply Forall_cons in Hs as [Hm Hrest].
  destruct Hm as (_ & _ & _ & name & lam & Hfor & Hhas & _).
  rewrite (install_afrs_lambdas_step m rest name lam Hfor), Hhas, (IH Hrest).
  reflexivity.
Qed.

(** A change to a mode that the servos are already set for: nothing is
    repositioned, and what is left is the last part of [set_steering_mode]. *)
Lemma set_steering_mode_in_place (m : SteeringMode.t) (s : MotionController) :
  _steering_mode s ≠ Some m →
  needs_reposition m (is_rotated (hardware s)) = false →
  set_steering_mode (Some m) s = commit_mode m s.
Proof.
  intros Hne Hn. unfold set_steering_mode. rewrite bind_get.
  destruct (decide (_steering_mode s = Some m)) as [E|_]; [contradiction|].
  unfold needs_reposition in Hn. cbv zeta.
  destruct (bool_decide (m = SteeringMode.ROTATE) && is_rotated (hardware s)).
  - destruct m; reflexivity.
  - destruct (bool_decide (m ≠ SteeringMode.ROTATE) && negb (is_rotated (hardware s)));
      [|discriminate].
    destruct m; reflexivity.
Qed.

Definition with_afrs (ms : list Motor) (s : MotionController) : MotionController :=
  with_hardware (with_motors ms (hardware s))
    (with_steering_mode (Some SteeringMode.AFRS) s).

Lemma commit_mode_afrs (s : MotionController) :
  commit_mode SteeringMode.AFRS s
  = (match snd (install_afrs_lambdas (motors (hardware s))) with
     | Some e => Py.Raised e
     | None => Py.Returned tt
     end,
     with_afrs (fst (install_afrs_lambdas (motors (hardware s)))) s).
Proof.
  unfold commit_mode, update_motors, modify, bind, get, raise, ret. simpl.
  destruct (install_afrs_lambdas (motors (hardware s))) as [ms [e|]]; reflexivity.
Qed.

(** X13: changing to AFRS while the servos are not rotated equips every
    motor in place.  Provided every motor is on the port or the starboard
    side, the call returns, makes no call to a collaborator, stores AFRS, and
    leaves each motor with a multiplier under its side's AFRS name: the
    controller's lambda for that side unless the name was taken already, and
    no other multiplier added, removed or replaced. *)
Theorem set_steering_mode_afrs_equips_motors (s : MotionController) :
  _steering_mode s ≠ Some SteeringMode.AFRS →
  is_rotated (hardware s) = false →
  Forall sided (motors (hardware s)) →
  ∃ ms',
    set_steering_mode (Some SteeringMode.AFRS) s = (Py.Returned tt, with_afrs ms' s)
    ∧ Forall2 afrs_equipped (motors (hardware s)) ms'.
Proof.
  intros Hne Hrot Hs.
  rewrite (set_steering_mode_in_place _ _ Hne)
    by (unfold needs_reposition; rewrite Hrot; reflexivity).
  destruct (install_afrs_lambdas_equips _ Hs) as (ms' & E & He).
  exists ms'. rewrite commit_mode_afrs, E. split; [reflexivity | exact He].
Qed.

(** X14: the AFRS lambdas outlive the AFRS mode, and are not installed
    twice.  From servos that are not rotated, AFRS then SKID then AFRS again
    all return without a call to a collaborator; SKID leaves the motors as
    AFRS equipped them, and the second AFRS finds them equipped and changes
    nothing (no duplicate registration is raised). *)
Theorem afrs_skid_afrs_keeps_the_lambdas (s : MotionController) :
  _steering_mode s ≠ Some SteeringMode.AFRS →
  is_rotated (hardware s) = false →
  Forall sided (motors (hardware s)) →
  let r1 := set_steering_mode (Some SteeringMode.AFRS) s in
  let r2 := set_steering_mode (Some SteeringMode.SKID) (snd r1) in
  let r3 := set_steering_mode (Some SteeringMode.AFRS) (snd r2) in
  fst r1 = Py.Returned tt ∧ fst r2 = Py.Returned tt ∧ fst r3 = Py.Returned tt
  ∧ _steering_mode (snd r2) = Some SteeringMode.SKID
  ∧ hardware (snd r2) = hardware (snd r1)
  ∧ snd r3 = snd r1
  ∧ calls (snd r3) = calls s.
Proof.
  intros Hne Hrot Hs. cbv zeta.
  rewrite (set_steering_mode_in_place _ _ Hne)
    by (unfold needs_reposition; rewrite Hrot; reflexivity).
  destruct (install_afrs_lambdas_equips _ Hs) as (ms' & E & He).
  rewrite commit_mode_afrs, E. cbn [fst snd].
  rewrite (set_steering_mode_in_place SteeringMode.SKID (with_afrs ms' s))
    by (try discriminate; unfold needs_reposition; simpl; rewrite Hrot; reflexivity).
  cbn [commit_mode modify fst snd].
  rewrite (set_steering_mode_in_place SteeringMode.AFRS)
    by (try discriminate; unfold needs_reposition; simpl; rewrite Hrot; reflexivity).
  rewrite commit_mode_afrs. cbn [hardware with_steering_mode with_afrs with_hardware
                                 motors with_motors].
  rewrite install_afrs_lambdas_settled.
  2:{ apply Forall_forall. intros m' Hin.
      apply list_elem_of_lookup in Hin as [i Hi].
      destruct (Forall2_lookup_r _ _ _ _ _ He Hi) as (m & _ & Hm).
      apply (afrs_equipped_again m m' Hm). }
  cbn [fst snd]. repeat split; reflexivity.
Qed.

(** The first motor that is on neither side, and the motors before it. *)
Lemma install_afrs_lambdas_center (before : list Motor) (m : Motor) (rest : list Motor) :
  Forall sided before →
  Orientation.side (orientation m) = Orientation.CNTR →
  ∃ before',
    install_afrs_lambdas (before ++ m :: rest)
    = (before' ++ m :: rest, Some (Py.Exception "unrecognised orientation"))
    ∧ Forall2 afrs_equipped before before'.
Proof.
  intros Hb Hm. induction before as [|b before IH].
  - exists []. split; [|constructor]. cbn [app install_afrs_lambdas].
    rewrite Hm. reflexivity.
  - apply Forall_cons in Hb as [Hb Hrest].
    destruct (IH Hrest) as (before' & E & He).
    destruct (sided_afrs_lambda_for b Hb) as (name & lam & Hfor).
    rewrite <- app_comm_cons.
    rewrite (install_afrs_lambdas_step b _ name lam Hfor), E. cbn [fst snd].
    destruct (afrs_equipped_one b name lam Hfor) as [[Hhas Hq]|(Hhas & _ & Hq)];
      rewrite Hhas; eexists (_ :: before');
      (split; [reflexivity|]); constructor; assumption.
Qed.

(** X15: a motor on neither side makes the change to AFRS fail half way.
    With servos that are not rotated, the call raises "unrecognised
    orientation" when it reaches the first such motor: by then AFRS is stored
    as the mode and the motors before it are equipped, the others are not
    touched.  A second call then finds the mode set and returns without an
    error and without equipping the rest. *)
Theorem set_steering_mode_afrs_fails_half_way
    (before : list Motor) (m : Motor) (rest : list Motor) (s : MotionController) :
  _steering_mode s ≠ Some SteeringMode.AFRS →
  is_rotated (hardware s) = false →
  motors (hardware s) = before ++ m :: rest →
  Forall sided before →
  Orientation.side (orientation m) = Orientation.CNTR →
  let r1 := set_steering_mode (Some SteeringMode.AFRS) s in
  ∃ before',
    r1 = (Py.Raised (Py.Exception "unrecognised orientation"),
          with_afrs (before' ++ m :: rest) s)
    ∧ Forall2 afrs_equipped before before'
    ∧ set_steering_mode (Some SteeringMode.AFRS) (snd r1) = (Py.Returned tt, snd r1).
Proof.
  intros Hne Hrot Hms Hb Hm. cbv zeta.
  rewrite (set_steering_mode_in_place _ _ Hne)
    by (unfold needs_reposition; rewrite Hrot; reflexivity).
  destruct (install_afrs_lambdas_center before m rest Hb Hm) as (before' & E & He).
  exists before'. rewrite commit_mode_afrs, Hms, E. cbn [fst snd].
  split; [reflexivity|]. split; [exact He|].
  apply set_steering_mode_same. reflexivity.
Qed.

End ModeLambdas.

Section ModeLambdasOnTheBench.
Import Bench.
#[local] Existing Instance Bench.collaborators.
#[local] Existing Instance Bench.table.
Local Open Scope Q_scope.

Lemma bench_four_motors_sided (v : Q) (names : list string) :
  Forall sided (four_motors v names).
Proof. repeat constructor; intros H; vm_compute in H; discriminate. Qed.

Lemma set_steering_mode_afrs_equips_motors_witness :
  ∃ ms',
    set_steering_mode (Some SteeringMode.AFRS)
      (controller (four_motors 0 ["steering"; "stop"]%string) false)
    = (Py.Returned tt,
       with_afrs ms' (controller (four_motors 0 ["steering"; "stop"]%string) false))
    ∧ Forall2 afrs_equipped (four_motors 0 ["steering"; "stop"]%string) ms'.
Proof.
  apply (set_steering_mode_afrs_equips_motors
           (controller (four_motors 0 ["steering"; "stop"]%string) false));
    [discriminate | reflexivity | apply bench_four_motors_sided].
Defined.

Lemma afrs_skid_afrs_keeps_the_lambdas_witness :
  let s := controller (four_motors 0 []) false in
  let r1 := set_steering_mode (Some SteeringMode.AFRS) s in
  let r2 := set_steering_mode (Some SteeringMode.SKID) (snd r1) in
  let r3 := set_steering_mode (Some SteeringMode.AFRS) (snd r2) in
  snd r3 = snd r1.
Proof.
  cbv zeta.
  apply (afrs_skid_afrs_keeps_the_lambdas (controller (four_motors 0 []) false));
    [discriminate | reflexivity | apply bench_four_motors_sided].
Defined.

Lemma set_steering_mode_afrs_fails_half_way_witness :
  let s := controller [motor Orientation.PFWD 0 []; motor Orientation.CNTR 0 [];
                       motor Orientation.SFWD 0 []] false in
  let r1 := set_steering_mode (Some SteeringMode.AFRS) s in
  fst r1 = Py.Raised (Py.Exception "unrecognised orientation")
  ∧ _steering_mode (snd r1) = Some SteeringMode.AFRS
  ∧ set_steering_mode (Some SteeringMode.AFRS) (snd r1) = (Py.Returned tt, snd r1).
Proof.
  cbv zeta.
  destruct (set_steering_mode_afrs_fails_half_way
              [motor Orientation.PFWD 0 []] (motor Orientation.CNTR 0 [])
              [motor Orientation.SFWD 0 []]
              (controller [motor Orientation.PFWD 0 []; motor Orientation.CNTR 0 [];
                           motor Orientation.SFWD 0 []] false))
    as (before' & E & _ & Hagain);
    [discriminate | reflexivity | reflexivity
    | repeat constructor; intros H; vm_compute in H; discriminate
    | reflexivity |].
  split; [rewrite E; reflexivity|]. split; [rewrite E; reflexivity | exact Hagain].
Defined.

End ModeLambdasOnTheBench.

(** ** [reposition]: the protocol of a mode change *)

Section RepositionProtocol.
Context {collaborators : Collaborators} {table : Chadburn.Table}.
Local Open Scope Q_scope.

(** One step of a ramp: the speed to both sides, port first, and the pause. *)
Definition ramp_step (_step_delay_sec _speed : Q) : list Call :=
  [ motor_controller_set_speed Orientation.PORT _speed;
    motor_controller_set_speed Orientation.STBD _speed;
    time_sleep _step_delay_sec ].

Lemma for_each_call_after (cs l : list Call) (s : MotionController) :
  for_each cs call (after_calls l s) = (Py.Returned tt, after_calls (l ++ cs) s).
Proof.
  revert l. induction cs as [|c cs IH]; intros l.
  - simpl. rewrite app_nil_r. reflexivity.
  - cbn [for_each]. unfold bind. rewrite call_after_calls, IH, <- app_assoc.
    reflexivity.
Qed.

(** X16: [reposition] always runs to its end, and its ramp thread leaves
    the motors commanded to rest.  Whatever the mode, the controller and the
    scheduler, it returns.  The thread's calls are, in order: the motor
    controller told the mode, the ramp up and the ramp down (each speed to
    port then starboard, then a pause of a twentieth of the reposition
    delay), both sides commanded to speed 0.0, and the motor controller told
    [Rotation.STOPPED].  The caller's two calls, the initial pause and then
    the servos sent to ROTATE for the mode ROTATE and to SKID for any other
    mode (AFRS included), fall among the thread's calls wherever the
    scheduler puts them, in that order. *)
Theorem reposition_ends_at_rest (steering_mode : SteeringMode.t) (s : MotionController) :
  let _step_delay_sec := reposition_delay_sec (_config s) / 20.0 in
  let _min_speed := 0.09 in
  let _max_speed := Chadburn.speed Chadburn.SLOW_AHEAD in
  let _speed_step := (_max_speed - _min_speed) / 10.0 in
  ∃ before_sleep before_servo at_join : list Call,
    before_sleep ++ before_servo ++ at_join
    = [ motor_controller_reposition (inl steering_mode) ]
      ++ flat_map (ramp_step _step_delay_sec) (frange _min_speed _max_speed _speed_step)
      ++ flat_map (ramp_step _step_delay_sec)
           (frange _max_speed _min_speed (-1.0 * _speed_step))
      ++ [ motor_controller_set_speed Orientation.PORT 0.0;
           motor_controller_set_speed Orientation.STBD 0.0;
           motor_controller_reposition (inr Rotation.STOPPED) ]
    ∧ reposition steering_mode s
      = (Py.Returned tt,
         after_calls
           ([ self_reposition steering_mode ]
            ++ before_sleep
            ++ [ time_sleep (initial_reposition_delay_sec (_config s)) ]
            ++ before_servo
            ++ [ servo_controller_set_mode
                   (if decide (steering_mode = SteeringMode.ROTATE)
                    then SteeringMode.ROTATE else SteeringMode.SKID) ]
            ++ at_join) s).
Proof.
  cbv zeta. unfold reposition. rewrite bind_get.
  destruct (thread_head_start (calls s)) as [i j].
  set (thread := _reposition_motors s steering_mode).
  exists (take i thread), (take j (drop i thread)), (drop j (drop i thread)).
  split.
  - rewrite (take_drop j (drop i thread)), (take_drop i thread). reflexivity.
  - rewrite bind_call.
    change (with_calls (calls s ++ [self_reposition steering_mode])
              (with_hardware (effect (self_reposition steering_mode) (hardware s)) s))
      with (after_calls [self_reposition steering_mode] s).
    unfold bind at 1. rewrite for_each_call_after.
    unfold bind at 1. rewrite call_after_calls.
    unfold bind at 1. rewrite for_each_call_after.
    unfold bind at 1.
    assert ((if decide (steering_mode = SteeringMode.ROTATE)
             then call (servo_controller_set_mode SteeringMode.ROTATE)
             else call (servo_controller_set_mode SteeringMode.SKID))
            = call (servo_controller_set_mode
                      (if decide (steering_mode = SteeringMode.ROTATE)
                       then SteeringMode.ROTATE else SteeringMode.SKID))) as ->
      by (destruct (decide (steering_mode = SteeringMode.ROTATE)); reflexivity).
    rewrite call_after_calls, for_each_call_after.
    f_equal. f_equal. rewrite <- !app_assoc. reflexivity.
Qed.

End RepositionProtocol.

(** ** [increment_speed]: the ladder *)

Section IncrementSpeedLadder.
Import Chadburn ChadburnLaws.
Context {collaborators : Collaborators} {table : Chadburn.Table}.

(** X17: [increment_speed] stays on the ladder when the robot is on it.  On
    a well-formed table, when the member closest to the measured mean speed
    lies between FULL_ASTERN and FULL_AHEAD, the call returns with the stored
    index between the two as well, at most one step from the closest member's,
    and with the stored member the table's member of that index: the one
    [Chadburn.from_index] gives for it where a step was made, the closest
    member itself where none was; it is that member's speed that both sides
    are sent. *)
Theorem increment_speed_stays_on_the_ladder (value : Z) (s : MotionController) :
  well_formed = true →
  let h0 := effect motor_controller_clear_speed_multipliers (hardware s) in
  let closest := get_closest_value (get_mean_speed Orientation.CNTR h0) in
  (num FULL_ASTERN <= num closest <= num FULL_AHEAD)%Z →
  let r := increment_speed value s in
  fst r = Py.Returned tt
  ∧ (num FULL_ASTERN <= _chadburn_index (snd r) <= num FULL_AHEAD)%Z
  ∧ (Z.abs (_chadburn_index (snd r) - num closest) <= 1)%Z
  ∧ num (_chadburn (snd r)) = _chadburn_index (snd r)
  ∧ _chadburn (snd r) ∈ members
  ∧ (_chadburn_index (snd r) ≠ num closest
     → from_index (_chadburn_index (snd r)) = Some (_chadburn (snd r)))
  ∧ (_chadburn_index (snd r) = num closest → _chadburn (snd r) = closest)
  ∧ calls (snd r)
    = calls s ++
      [ motor_controller_clear_speed_multipliers;
        motor_controller_set_speed Orientation.PORT (speed (_chadburn (snd r)));
        motor_controller_set_speed Orientation.STBD (speed (_chadburn (snd r))) ].
Proof.
  intros Hwf h0 closest Hin r.
  destruct (increment_speed_run value s Hwf) as (c & Hc & Hsame & Hfrom & Er).
  subst r. rewrite Er. cbn [fst snd]. unfold after_increment.
  cbn [_chadburn_index _chadburn with_calls with_hardware with_chadburn
       with_chadburn_index calls].
  fold h0 in Hc, Hsame, Hfrom |- *. fold closest in Hc, Hsame, Hfrom |- *.
  assert (c ∈ members) as Hmem.
  { destruct (Z.eq_dec (stepped_index value closest) (num closest)) as [E|Hne].
    - rewrite (Hsame E). apply get_closest_value_member.
      apply (well_formed_parts Hwf).
    - apply (from_index_Some _ _ (Hfrom Hne)). }
  split; [reflexivity|].
  assert ((num FULL_ASTERN <= stepped_index value closest <= num FULL_AHEAD)%Z
          ∧ (Z.abs (stepped_index value closest - num closest) <= 1)%Z) as [H1 H2].
  { unfold stepped_index. destruct (value =? -1)%Z.
    - destruct (Z.ltb_spec (num closest) (num FULL_AHEAD)); split; lia.
    - destruct (Z.gtb_spec (num closest) (num FULL_ASTERN)); split; lia. }
  split; [exact H1|]. split; [exact H2|]. split; [exact Hc|].
  split; [exact Hmem|]. split; [exact Hfrom|]. split; [exact Hsame | reflexivity].
Qed.

End IncrementSpeedLadder.

Section IncrementSpeedLadderOnTheBench.
Import Bench.
#[local] Existing Instance Bench.collaborators.
#[local] Existing Instance Bench.table.
Local Open Scope Q_scope.

Lemma increment_speed_stays_on_the_ladder_witness :
  let r := increment_speed (-1) (controller (four_motors 0.2 []) false) in
  fst r = Py.Returned tt
  ∧ (-5 <= _chadburn_index (snd r) <= 5)%Z.
Proof.
  cbv zeta.
  pose proof (increment_speed_stays_on_the_ladder (-1)
                (controller (four_motors 0.2 []) false)
                bench_table_well_formed) as H.
  cbv zeta in H.
  destruct H as (Hret & Hrange & _).
  - vm_compute. split; discriminate.
  - split; [exact Hret | exact Hrange].
Defined.

End IncrementSpeedLadderOnTheBench.

(** ** [set_heading]: refusals and the way out *)

Section HeadingWayOut.
Context {collaborators : Collaborators} {table : Chadburn.Table}.
Local Open Scope Q_scope.
Local Arguments set_steering_mode : simpl never.
Local Arguments set_heading_epilogue : simpl never.

(** X19: [set_heading] does not start on a controller that has no
    [_digital_pot] attribute, or no calibrated IMU.  Without the attribute
    (no component registry at construction) the test of line 769 raises
    [AttributeError], and nothing has been done.  With it, the IMU is looked
    at only after the speed multipliers have been cleared and the SIGINT
    handler installed: the [Exception] says that the IMU has not been set, or
    has not been calibrated, these two calls have been made, and nothing else
    has changed. *)
Theorem set_heading_refused
    (rotation : Rotation.t) (cardinal_degrees start : Q) (feed : list Tick)
    (s : MotionController) :
  _digital_pot s = false ∨ (∀ imu, _imu s = Some imu → is_calibrated imu = false) →
  set_heading rotation cardinal_degrees start feed s
  = if _digital_pot s
    then (Py.Raised
            (Py.Exception
               match _imu s with
               | None => "cannot set heading: IMU has not been set."
               | Some _ => "cannot set heading: IMU has not been calibrated."
               end),
          after_calls [motor_controller_clear_speed_multipliers;
                       signal_signal_SIGINT] s)
    else (Py.Raised (Py.AttributeError "_digital_pot"), s).
Proof.
  intros Hwhy. unfold set_heading, set_heading_prologue.
  unfold bind at 1. rewrite bind_get.
  destruct (_digital_pot s) eqn:Hpot; cbn [negb].
  - destruct Hwhy as [Hno|Himu]; [discriminate|].
    unfold _prepare_to_move. rewrite !bind_call.
    destruct (_imu s) as [imu|] eqn:Ei.
    + rewrite (Himu imu eq_refl). cbn [negb]. unfold raise.
      f_equal. unfold after_calls. simpl.
      rewrite <- app_assoc. reflexivity.
    + unfold raise. f_equal. unfold after_calls. simpl.
      rewrite <- app_assoc. reflexivity.
  - reflexivity.
Qed.

Lemma set_steering_mode_returned (m : SteeringMode.t) (s s' : MotionController) :
  set_steering_mode (Some m) s = (Py.Returned tt, s') →
  _steering_mode s' = Some m ∧ ∃ l, calls s' = calls s ++ l.
Proof.
  intros E.
  destruct (decide (_steering_mode s = Some m)) as [Esame|Hne].
  - rewrite (set_steering_mode_same m s Esame) in E. injection E as <-.
    split; [exact Esame|]. exists []. rewrite app_nil_r. reflexivity.
  - destruct (set_steering_mode_other m s Hne) as (l & _ & E').
    rewrite E' in E. clear E'.
    destruct (SteeringMode.supported m) eqn:Hsup.
    + match type of E with
      | commit_mode m ?s0 = _ =>
          destruct (commit_mode_supported m s0 Hsup) as [Hm Hc]
      end.
      rewrite E in Hm, Hc. cbn [snd] in Hm, Hc. split; [exact Hm|].
      rewrite Hc.
      destruct (needs_reposition m (is_rotated (hardware s))).
      * eexists. reflexivity.
      * exists []. rewrite app_nil_r. reflexivity.
    + destruct m; discriminate.
Qed.

(** X20: when [set_heading] returns, the rotation has been wound up.  Since
    the start the CHIRP_1 sound has been played and, right after it, the
    motor controller told to stop rotating; the stored mode is AFRS; and
    the last call is the pause of three seconds. *)
Theorem set_heading_returns_wound_up
    (rotation : Rotation.t) (cardinal_degrees start : Q) (feed : list Tick)
    (s : MotionController) :
  let r := set_heading rotation cardinal_degrees start feed s in
  fst r = Py.Returned tt →
  _steering_mode (snd r) = Some SteeringMode.AFRS
  ∧ ∃ l1 l2,
      calls (snd r)
      = calls s ++ l1
        ++ [player_play "CHIRP_1"; motor_controller_rotate Rotation.STOPPED]
        ++ l2 ++ [time_sleep 3].
Proof.
  cbv zeta.
  remember (set_heading rotation cardinal_degrees start feed s) as r eqn:Er.
  unfold set_heading in Er.
  destruct (set_heading_prologue_returns cardinal_degrees start s)
    as [(e & s2 & E)|(d & l & s2 & E & Hm & Hc & F)].
  { unfold bind at 1 in Er. rewrite E in Er. subst r. discriminate. }
  unfold bind at 1 in Er. rewrite E in Er.
  destruct (heading_loop cardinal_degrees d feed s2) as [o s3] eqn:Eloop.
  destruct (heading_loop_not_rotate_stopped cardinal_degrees feed d s2)
    as (l2 & Hc2 & _).
  rewrite Eloop in Hc2. cbn [snd] in Hc2.
  unfold bind at 1, try_except_finally in Er. rewrite Eloop in Er.
  destruct o as [[]|e|].
  - rewrite call_run in Er. cbv beta iota in Er.
    unfold set_heading_epilogue in Er.
    rewrite bind_call in Er. unfold bind at 1 in Er.
    match type of Er with
    | context [set_steering_mode _ ?s4] =>
        destruct (set_steering_mode (Some SteeringMode.AFRS) s4) as [o5 s5] eqn:Emode
    end.
    destruct o5 as [[]|e|]; [|subst r; discriminate|subst r; discriminate].
    apply set_steering_mode_returned in Emode as [Hmode (l5 & Hc5)].
    rewrite call_run in Er. subst r. cbn [snd fst]. intros _.
    split; [exact Hmode|].
    exists (l ++ l2), l5. unfold after_calls. cbn [calls with_calls].
    rewrite Hc5. cbn [calls with_calls with_hardware after_calls].
    rewrite Hc2, Hc, <- !app_assoc. reflexivity.
  - subst r. destruct e; simpl; discriminate.
  - subst r. discriminate.
Qed.


(** *** The rotation argument *)

Lemma logs_get {A} (k : MotionController → M A) (P : Call → Prop) :
  (∀ s0, logs (k s0) P) → logs (bind get k) P.
Proof. intros Hk s. rewrite bind_get. apply Hk. Qed.

Lemma logs_modify (f : MotionController → MotionController) (P : Call → Prop) :
  (∀ s, calls (f s) = calls s) → logs (modify f) P.
Proof.
  intros Hf s. exists []. simpl. rewrite Hf, app_nil_r. split; [reflexivity | constructor].
Qed.

Lemma logs_for_each {A} (xs : list A) (body : A → M unit) (P : Call → Prop) :
  (∀ x, logs (body x) P) → logs (for_each xs body) P.
Proof.
  intros Hb. induction xs as [|x xs IH]; simpl.
  - apply logs_ret.
  - apply logs_bind; [apply Hb | intros _; exact IH].
Qed.

Lemma logs_try_except_finally {A} (body : M A) (handler : Py.Exn → option (M A))
    (final : M unit) (P : Call → Prop) :
  logs body P → (∀ e h, handler e = Some h → logs h P) → logs final P →
  logs (try_except_finally body handler final) P.
Proof.
  intros Hb Hh Hf s. unfold try_except_finally.
  destruct (Hb s) as (l1 & E1 & F1).
  destruct (body s) as [[a|e|] s1] eqn:Eb; cbn [snd] in E1.
  - destruct (Hf s1) as (l2 & E2 & F2).
    exists (l1 ++ l2). split; [|apply Forall_app; auto].
    destruct (final s1) as [[u|e|] s2]; cbn [snd] in *;
      rewrite E2, E1, app_assoc; reflexivity.
  - destruct (handler e) as [h|] eqn:Eh.
    + destruct (Hh e h Eh s1) as (l2 & E2 & F2).
      destruct (h s1) as [[a|e'|] s2] eqn:Ehs; cbn [snd] in E2.
      * destruct (Hf s2) as (l3 & E3 & F3).
        exists (l1 ++ l2 ++ l3). split; [|repeat (apply Forall_app; split); auto].
        destruct (final s2) as [[u|e''|] s3]; cbn [snd] in *;
          rewrite E3, E2, E1, <- !app_assoc; reflexivity.
      * destruct (Hf s2) as (l3 & E3 & F3).
        exists (l1 ++ l2 ++ l3). split; [|repeat (apply Forall_app; split); auto].
        destruct (final s2) as [[u|e''|] s3]; cbn [snd] in *;
          rewrite E3, E2, E1, <- !app_assoc; reflexivity.
      * exists (l1 ++ l2). split; [|apply Forall_app; auto].
        cbn [snd]. rewrite E2, E1, app_assoc. reflexivity.
    + destruct (Hf s1) as (l2 & E2 & F2).
      exists (l1 ++ l2). split; [|apply Forall_app; auto].
      destruct (final s1) as [[u|e'|] s2]; cbn [snd] in *;
        rewrite E2, E1, app_assoc; reflexivity.
  - exists l1. split; [exact E1 | exact F1].
Qed.

Definition not_counter_clockwise (c : Call) : Prop :=
  c ≠ motor_controller_rotate Rotation.COUNTER_CLOCKWISE.

Ltac logs_steps :=
  repeat first
    [ apply logs_ret
    | apply logs_raise
    | apply logs_call; discriminate
    | apply logs_modify; intros ?; reflexivity
    | apply logs_get; intros ?
    | apply logs_for_each; intros ?
    | apply logs_bind; [|intros ?] ].

Lemma for_each_call_logs (cs : list Call) (P : Call → Prop) :
  Forall P cs → logs (for_each cs call) P.
Proof.
  induction 1 as [|c cs Hc _ IH]; simpl.
  - apply logs_ret.
  - apply logs_bind; [apply logs_call; exact Hc | intros _; exact IH].
Qed.

Lemma reposition_not_counter_clockwise (m : SteeringMode.t) :
  logs (reposition m) not_counter_clockwise.
Proof.
  unfold reposition. apply logs_get; intros s0.
  assert (Forall not_counter_clockwise (_reposition_motors s0 m)) as Hthread.
  { eapply Forall_impl; [apply _reposition_motors_ramp|].
    intros c Hc. destruct c; try contradiction; discriminate. }
  destruct (thread_head_start (calls s0)) as [i j].
  apply logs_bind; [apply logs_call; discriminate | intros _].
  apply logs_bind; [apply for_each_call_logs, Forall_take, Hthread | intros _].
  apply logs_bind; [apply logs_call; discriminate | intros _].
  apply logs_bind;
    [apply for_each_call_logs, Forall_take, Forall_drop, Hthread | intros _].
  apply logs_bind;
    [destruct (decide _); apply logs_call; discriminate | intros _].
  apply for_each_call_logs, Forall_drop, Forall_drop, Hthread.
Qed.

Lemma set_steering_mode_not_counter_clockwise (m : option SteeringMode.t) :
  logs (set_steering_mode m) not_counter_clockwise.
Proof.
  unfold set_steering_mode. destruct m as [m|]; [|apply logs_raise].
  apply logs_get; intros s0.
  destruct (decide (_steering_mode s0 = Some m)); [apply logs_ret|].
  cbv zeta. apply logs_bind.
  - match goal with |- logs (if ?b then _ else _) _ => destruct b end;
      [|apply logs_ret].
    apply logs_bind; [|intros _; apply reposition_not_counter_clockwise].
    apply logs_modify. intros ?; reflexivity.
  - intros _. destruct m; [|logs_steps..].
    apply logs_bind; [apply logs_modify; intros ?; reflexivity | intros _].
    apply logs_get; intros s1.
    destruct (install_afrs_lambdas (motors (hardware s1))) as [ms [e|]];
      (apply logs_bind; [apply logs_modify; intros ?; reflexivity | intros _]);
      [apply logs_raise | apply logs_ret].
Qed.

Lemma heading_loop_not_counter_clockwise (target : Q) (feed : list Tick) :
  ∀ d, logs (heading_loop target d feed) not_counter_clockwise.
Proof.
  unfold not_counter_clockwise.
  induction feed as [|t feed IH]; intros d; simpl.
  - destruct (Py.isclose d 0.0 1.0); [apply logs_ret | apply logs_unfinished].
  - destruct (Py.isclose d 0.0 1.0); [apply logs_ret|].
    destruct t as [pot heading|];
      [|unfold _rotate_sigint_handler, _shutdown;
        repeat (apply logs_bind; [|intros _]);
        try (apply logs_call; discriminate); apply IH].
    apply logs_bind; [apply logs_call; discriminate | intros _].
    apply logs_bind.
    + match goal with |- logs (if ?b then _ else _) _ => destruct b end; logs_steps.
    + intros _. apply logs_bind; [apply logs_call; discriminate | intros _]. apply IH.
Qed.

(** X21: [set_heading] never rotates counter-clockwise, and does not look at
    its [rotation] argument.  Whatever the argument, the run is the one for
    [Rotation.CLOCKWISE]; the calls it makes are appended to the log, and
    none of them is [rotate(COUNTER_CLOCKWISE)]. *)
Theorem set_heading_ignores_rotation
    (rotation : Rotation.t) (cardinal_degrees start : Q) (feed : list Tick)
    (s : MotionController) :
  set_heading rotation cardinal_degrees start feed s
  = set_heading Rotation.CLOCKWISE cardinal_degrees start feed s
  ∧ ∃ l, calls (snd (set_heading rotation cardinal_degrees start feed s))
         = calls s ++ l
         ∧ motor_controller_rotate Rotation.COUNTER_CLOCKWISE ∉ l.
Proof.
  split; [reflexivity|].
  assert (logs (set_heading rotation cardinal_degrees start feed)
               not_counter_clockwise) as Hlogs.
  { unfold set_heading, set_heading_prologue, set_heading_epilogue, _prepare_to_move.
    apply logs_bind.
    - apply logs_get; intros s0.
      destruct (negb (_digital_pot s0)); [apply logs_raise|].
      apply logs_bind; [apply logs_call; discriminate | intros _].
      apply logs_bind; [apply logs_call; discriminate | intros _].
      destruct (_imu s0) as [imu|]; [|apply logs_raise].
      destruct (negb (is_calibrated imu)); [apply logs_raise|].
      apply logs_bind; [apply logs_call; discriminate | intros _].
      apply logs_bind; [apply set_steering_mode_not_counter_clockwise | intros _].
      logs_steps.
    - intros d. apply logs_bind.
      + apply logs_try_except_finally.
        * apply heading_loop_not_counter_clockwise.
        * intros e h He. destruct e; try discriminate.
          injection He as <-. apply logs_raise.
        * apply logs_call. discriminate.
      + intros _.
        apply logs_bind; [apply logs_call; discriminate | intros _].
        apply logs_bind; [apply set_steering_mode_not_counter_clockwise | intros _].
        apply logs_call. discriminate. }
  destruct (Hlogs s) as (l & E & F). exists l. split; [exact E|].
  intros Hin. rewrite Forall_forall in F. apply (F _ Hin). reflexivity.
Qed.


(** *** The speeds of the control loop *)

(** [Convert.difference_in_degrees] is a signed difference on the circle. *)
Definition half_turn_at_most : Prop :=
  ∀ current target, Qabs (difference_in_degrees current target) <= 180.

Definition speed_within (limit : Q) (c : Call) : Prop :=
  match c with
  | motor_controller_set_speed _ speed => Qabs speed <= limit
  | _ => True
  end.

Definition pot_within (limit : Q) (t : Tick) : Prop :=
  match t with
  | Sample pot _ => Qabs pot <= limit
  | Interrupt => True
  end.

Lemma scaled_speed_within (limit pot diff : Q) :
  Qabs pot <= limit → Qabs diff <= 180 → Qabs (pot * (diff / 180.0)) <= limit.
Proof.
  intros Hp Hd. rewrite Qabs_Qmult.
  assert (Qabs (diff / 180.0) <= 1) as Hm.
  { assert (diff / 180.0 == diff * (1 # 180)) as -> by field.
    rewrite Qabs_Qmult. assert (Qabs (1 # 180) == 1 # 180) as -> by reflexivity.
    set (x := Qabs diff) in *. clearbody x. lra. }
  pose proof (Qabs_nonneg pot) as H0. pose proof (Qabs_nonneg (diff / 180.0)) as H1.
  set (x := Qabs pot) in *. set (y := Qabs (diff / 180.0)) in *. clearbody x y.
  apply Qle_trans with (x * 1); [|lra].
  apply Qmult_le_compat_nonneg; split; lra.
Qed.

(** The calls of the control loop on the readings [feed]: polls, speed
    commands and waits, and, when a SIGINT is among [feed], the three calls of
    its handler. *)
Definition loop_call (feed : list Tick) (c : Call) : Prop :=
  c = icm20948_poll ∨ c = rate_wait
  ∨ (∃ o v, c = motor_controller_set_speed o v)
  ∨ (Interrupt ∈ feed ∧ c ∈ [motor_controller_stop; self_disable; self_close]).

(** X18: the control loop of [set_heading] never commands a speed above the
    potentiometer's.  When the difference in degrees is within a half turn
    and the readings of the potentiometer within a limit, every speed that
    the loop sends to the motors is within that limit, in either direction;
    the loop makes no call but polls, speed commands and waits, and, if a
    SIGINT arrives, the three calls of the handler. *)
Theorem heading_loop_speed_within_the_pot
    (limit target : Q) (feed : list Tick) (_diff_deg : Q) (s : MotionController) :
  half_turn_at_most →
  Forall (pot_within limit) feed →
  ∃ l, calls (snd (heading_loop target _diff_deg feed s)) = calls s ++ l
       ∧ Forall (speed_within limit) l
       ∧ Forall (fun c => c = icm20948_poll ∨ c = rate_wait
                          ∨ (∃ o v, c = motor_controller_set_speed o v)
                          ∨ (Interrupt ∈ feed
                             ∧ c ∈ [motor_controller_stop; self_disable; self_close])) l.
Proof.
  intros Hhalf Hfeed.
  assert (∀ rest, rest ⊆ feed →
          ∀ d, logs (heading_loop target d rest)
                 (fun c => speed_within limit c ∧ loop_call feed c)) as Hlogs.
  { intros rest. induction rest as [|t rest IH]; intros Hsub d; simpl.
    - destruct (Py.isclose d 0.0 1.0); [apply logs_ret | apply logs_unfinished].
    - destruct (Py.isclose d 0.0 1.0); [apply logs_ret|].
      assert (t ∈ feed) as Hin by (apply Hsub; left).
      assert (rest ⊆ feed) as Hrest by (intros x Hx; apply Hsub; right; exact Hx).
      specialize (IH Hrest).
      destruct t as [pot heading|].
      + assert (Qabs pot <= limit) as Ht.
        { rewrite Forall_forall in Hfeed. exact (Hfeed _ Hin). }
        assert (Qabs 0.0 <= limit) as Hlimit.
        { assert (Qabs 0.0 == 0) as -> by reflexivity.
          eapply Qle_trans; [apply Qabs_nonneg | exact Ht]. }
        apply logs_bind;
          [apply logs_call; split; [exact I | unfold loop_call; auto] | intros _].
        apply logs_bind.
        * match goal with |- logs (if ?b then _ else _) _ => destruct b end.
          -- apply logs_bind; [|intros _];
               (apply logs_call; split;
                [exact Hlimit | unfold loop_call; eauto 6]).
          -- apply logs_bind; [|intros _];
               (apply logs_call; split;
                [apply scaled_speed_within; [exact Ht | apply Hhalf]
                | unfold loop_call; eauto 6]).
        * intros _.
          apply logs_bind;
            [apply logs_call; split; [exact I | unfold loop_call; auto] | intros _].
          apply IH.
      + unfold _rotate_sigint_handler, _shutdown.
        repeat (apply logs_bind; [|intros _]);
          try (apply logs_call; split;
               [exact I
               |right; right; right; split; [exact Hin|];
                apply list_elem_of_In; simpl; tauto]).
        apply IH. }
  destruct (Hlogs feed (fun x Hx => Hx) _diff_deg s) as (l & E & F).
  exists l. split; [exact E|].
  split; eapply Forall_impl; try exact F; intros c [H1 H2]; assumption.
Qed.

End HeadingWayOut.

Section HeadingWayOutOnTheBench.
Import Bench.
#[local] Existing Instance Bench.collaborators.
#[local] Existing Instance Bench.table.
Local Open Scope Q_scope.

Lemma set_heading_refused_witness :
  set_heading Rotation.CLOCKWISE 90 10 [Sample 0.5 40] SteeringBench.controller_without_imu
  = (Py.Raised (Py.Exception "cannot set heading: IMU has not been set."),
     after_calls [motor_controller_clear_speed_multipliers; signal_signal_SIGINT]
       SteeringBench.controller_without_imu)
  ∧ set_heading Rotation.CLOCKWISE 90 10 [Sample 0.5 40]
      SteeringBench.controller_without_registry
    = (Py.Raised (Py.AttributeError "_digital_pot"),
       SteeringBench.controller_without_registry).
Proof.
  split.
  - apply (set_heading_refused Rotation.CLOCKWISE 90 10 [Sample 0.5 40]
             SteeringBench.controller_without_imu).
    right. intros imu H. discriminate.
  - apply (set_heading_refused Rotation.CLOCKWISE 90 10 [Sample 0.5 40]
             SteeringBench.controller_without_registry).
    left. reflexivity.
Defined.

Lemma set_heading_returns_wound_up_witness :
  let r := set_heading Rotation.CLOCKWISE 90 10 [Sample 0.5 40; Sample 0.5 89.5]
             (controller (four_motors 0 []) false) in
  _steering_mode (snd r) = Some SteeringMode.AFRS.
Proof.
  cbv zeta.
  apply (set_heading_returns_wound_up Rotation.CLOCKWISE 90 10
           [Sample 0.5 40; Sample 0.5 89.5] (controller (four_motors 0 []) false)).
  vm_compute. reflexivity.
Defined.

Lemma bench_half_turn_at_most : half_turn_at_most.
Proof.
  intros current target. unfold difference_in_degrees. simpl.
  unfold bench_difference_in_degrees. rewrite Qred_correct.
  set (d := target - current).
  pose proof (Qfloor_le ((d + 180) / 360)) as Hlo.
  pose proof (Qlt_floor ((d + 180) / 360)) as Hhi.
  rewrite inject_Z_plus in Hhi.
  set (f := inject_Z (Qfloor ((d + 180) / 360))) in *.
  assert ((d + 180) / 360 == (d + 180) * (1 # 360)) as E by field.
  rewrite E in Hlo, Hhi. clearbody f d.
  apply Qabs_Qle_condition. change (inject_Z 1) with 1 in Hhi. split; lra.
Qed.

Lemma heading_loop_speed_within_the_pot_witness :
  ∃ l, calls (snd (heading_loop 90 80 [Sample 0.5 40; Interrupt; Sample 0.5 89.5]
                     (controller (four_motors 0 []) false)))
       = [] ++ l
       ∧ Forall (speed_within 0.5) l.
Proof.
  destruct (heading_loop_speed_within_the_pot 0.5 90
              [Sample 0.5 40; Interrupt; Sample 0.5 89.5] 80
              (controller (four_motors 0 []) false) bench_half_turn_at_most)
    as (l & E & F & _).
  - repeat constructor; simpl; discriminate.
  - exists l. split; [exact E | exact F].
Defined.

End HeadingWayOutOnTheBench.

(** ** [calculate_afrs_steering]: the Ackermann condition *)

Section AckermannFacts.
Import Geometry Geometry.Exact.
Local Open Scope R_scope.

Lemma radians_degrees (x : R) : radians (degrees x) = x.
Proof. unfold degrees, radians. pose proof PI_RGT_0 as Hpi. field. lra. Qed.

(** In exact arithmetic, the outer angle for an inner angle between 0 and 90
    degrees: the angle whose tangent is the half wheelbase over the outer
    distance. *)
Lemma outer_angle_formula (v : Vehicle R) (θ : R) :
  0 < θ < 90 → 0 < _half_length v → 0 < _half_width v →
  0 < tan (radians θ)
  ∧ 0 < _half_length v / tan (radians θ) + _half_width v * 2
  ∧ calculate_afrs_steering v θ
    = inr (degrees (atan (_half_length v
                          / (_half_length v / tan (radians θ) + _half_width v * 2)))).
Proof.
  intros Hθ HL HW.
  pose proof (radians_range θ Hθ) as [Hr0 Hr1].
  pose proof (tan_gt_0 (radians θ) Hr0 Hr1) as Ht.
  assert (0 < _half_length v / tan (radians θ)) as Hd
    by (apply Rdiv_lt_0_compat; assumption).
  assert (0 < _half_length v / tan (radians θ) + _half_width v * 2) as HD by lra.
  split; [exact Ht|]. split; [exact HD|].
  rewrite calculate_afrs_steering_exact by lra.
  rewrite atan2_right_half_plane by exact HD. reflexivity.
Qed.

(** X22: read in exact real arithmetic, the two steering angles meet the
    Ackermann condition.  For an inner angle strictly between 0 and 90
    degrees, and a positive half wheelbase and half track, the solver returns
    an outer angle whose cotangent is the cotangent of the inner angle plus
    the wheel track over the half wheelbase, so the axes of the two wheels
    meet on one line across the vehicle.  (On the floats of the code the
    equation holds up to rounding only, and for the smallest angles the
    solver raises: [calculate_afrs_steering_binary64_on_the_bench].) *)
Theorem calculate_afrs_steering_ackermann (v : Vehicle R) (θ : R) :
  0 < θ < 90 → 0 < _half_length v → 0 < _half_width v →
  ∃ outer,
    calculate_afrs_steering v θ = inr outer
    ∧ 1 / tan (radians outer)
      = 1 / tan (radians θ) + (_half_width v * 2) / _half_length v.
Proof.
  intros Hθ HL HW.
  destruct (outer_angle_formula v θ Hθ HL HW) as (Ht & HD & E).
  eexists. split; [exact E|].
  rewrite radians_degrees, tan_atan.
  set (t := tan (radians θ)) in *. set (L := _half_length v) in *.
  set (W := _half_width v) in *. clearbody t L W.
  field. repeat split; try lra.
  intros E0. assert (L / t + W * 2 = (L + W * 2 * t) / t) as E' by (field; lra).
  rewrite E' in HD. rewrite E0 in HD. unfold Rdiv in HD. lra.
Qed.

Lemma calculate_afrs_steering_ackermann_witness :
  ∃ outer,
    calculate_afrs_steering
      {| _half_length := 1; _half_width := 1; _wheel_offset := 1 |} 45 = inr outer
    ∧ 1 / tan (radians outer) = 1 / tan (radians 45) + (1 * 2) / 1.
Proof.
  apply (calculate_afrs_steering_ackermann
           {| _half_length := 1; _half_width := 1; _wheel_offset := 1 |} 45);
    simpl; lra.
Defined.

(** X23: read in exact real arithmetic, turning the inner wheel further
    turns the outer wheel further.  On inner angles strictly between 0 and 90
    degrees, with a positive half wheelbase and half track, the solver
    returns, and the outer angle it returns is strictly increasing.  (On the
    floats of the code two neighbouring angles can get the same outer
    angle.) *)
Theorem calculate_afrs_steering_increasing (v : Vehicle R) (θ1 θ2 : R) :
  0 < θ1 → θ1 < θ2 → θ2 < 90 → 0 < _half_length v → 0 < _half_width v →
  ∃ outer1 outer2,
    calculate_afrs_steering v θ1 = inr outer1
    ∧ calculate_afrs_steering v θ2 = inr outer2
    ∧ outer1 < outer2.
Proof.
  intros H1 H12 H2 HL HW.
  destruct (outer_angle_formula v θ1 ltac:(lra) HL HW) as (Ht1 & HD1 & E1).
  destruct (outer_angle_formula v θ2 ltac:(lra) HL HW) as (Ht2 & HD2 & E2).
  eexists _, _. split; [exact E1|]. split; [exact E2|].
  apply degrees_increasing, atan_increasing.
  pose proof (radians_range θ1 ltac:(lra)) as [Ha1 Hb1].
  pose proof (radians_range θ2 ltac:(lra)) as [Ha2 Hb2].
  assert (radians θ1 < radians θ2) as Hr.
  { unfold radians. pose proof PI_RGT_0 as Hpi. nra. }
  assert (tan (radians θ1) < tan (radians θ2)) as Ht
    by (apply tan_increasing; lra).
  set (t1 := tan (radians θ1)) in *. set (t2 := tan (radians θ2)) in *.
  set (L := _half_length v) in *. set (W := _half_width v) in *.
  clearbody t1 t2 L W.
  assert (L / t2 < L / t1) as Hd.
  { unfold Rdiv. apply Rmult_lt_compat_l; [exact HL|].
    apply Rinv_lt_contravar; [nra | exact Ht]. }
  unfold Rdiv at 1 3. apply Rmult_lt_compat_l; [exact HL|].
  apply Rinv_lt_contravar; [nra | lra].
Qed.

Lemma calculate_afrs_steering_increasing_witness :
  ∃ outer1 outer2,
    calculate_afrs_steering
      {| _half_length := 1; _half_width := 1; _wheel_offset := 1 |} 30 = inr outer1
    ∧ calculate_afrs_steering
        {| _half_length := 1; _half_width := 1; _wheel_offset := 1 |} 45 = inr outer2
    ∧ outer1 < outer2.
Proof.
  apply (calculate_afrs_steering_increasing
           {| _half_length := 1; _half_width := 1; _wheel_offset := 1 |} 30 45);
    simpl; lra.
Defined.

End AckermannFacts.

(** ** The AFRS steering angle *)

Section SteeringAngleFacts.
Import Steering.
Context {collaborators : Collaborators} {table : Chadburn.Table}
        {steering_collaborators : SteeringCollaborators}
        {cpython : Geometry.Binary64.CPython}.
Local Open Scope Q_scope.

Lemma _afrs_clamp_range (M n : Q) :
  0 <= M → - M <= _afrs_clamp M n ∧ _afrs_clamp M n <= M.
Proof.
  intros HM. unfold _afrs_clamp.
  assert (-1.0 * M == - M) as E by ring. rewrite E.
  destruct (Q.max_spec (Qmin M n) (- M)) as [[H1 ->]|[H1 ->]];
    destruct (Q.min_spec M n) as [[H2 H3]|[H2 H3]];
    try rewrite H3 in *; split; lra.
Qed.

Lemma _afrs_clamp_in_range (M n : Q) :
  - M <= n → n <= M → _afrs_clamp M n == n.
Proof.
  intros Hlo Hhi. unfold _afrs_clamp.
  assert (-1.0 * M == - M) as E by ring. rewrite E.
  assert (Qmin M n == n) as -> by (apply Q.min_r; exact Hhi).
  apply Q.max_l. exact Hlo.
Qed.

Lemma set_steering_mode_keeps_config (m : SteeringMode.t) (s : MotionController) :
  _config (snd (set_steering_mode (Some m) s)) = _config s.
Proof.
  destruct (decide (_steering_mode s = Some m)) as [E|Hne].
  - rewrite (set_steering_mode_same m s E). reflexivity.
  - destruct (set_steering_mode_other m s Hne) as (l & _ & ->).
    assert (∀ s0, _config (snd (commit_mode m s0)) = _config s0) as Hcommit.
    { intros s0. destruct m; try reflexivity.
      unfold commit_mode, bind, modify, get, update_motors. simpl.
      destruct (install_afrs_lambdas (motors (hardware s0))) as [ms [e|]];
        reflexivity. }
    rewrite Hcommit.
    destruct (needs_reposition m (is_rotated (hardware s))); reflexivity.
Qed.

(** Line 416, [int(self.calculate_afrs_steering(abs(inner_angle)))]: the
    whole degrees of the outer angle, or the exception of the solver or of
    [int]. *)
Definition _outer_angle (geometry : Geometry.Vehicle float) (inner_angle : Q)
  : Geometry.Result Z :=
  Geometry.and_then
    (Geometry.calculate_afrs_steering geometry (Py.float_of_Q (Qabs inner_angle)))
    Py.int_of_float.

(** What a run with a new angle leaves, once [set_steering_mode] has
    returned. *)
Lemma new_angle_run (geometry : Geometry.Vehicle float) (M a : Q) (self : Controller)
    (base' : MotionController) :
  ¬ a == _afrs_angle self →
  set_steering_mode (Some SteeringMode.AFRS) (base self) = (Py.Returned tt, base') →
  let c := _afrs_clamp M a in
  _set_afrs_steering_angle_from_inner_angle geometry M a self
  = match _outer_angle geometry c with
    | inl e =>
        (Py.Raised e,
         {| base := base'; _afrs_angle := _afrs_angle self;
            _port_motor_ratio := _port_motor_ratio self;
            _stbd_motor_ratio := _stbd_motor_ratio self;
            steering_calls := steering_calls self |})
    | inr o =>
        let cs :=
          if Qeq_bool c 0 then
            [player_play_from_thread "ZZT"; servo_controller_set_afrs_angle 0.0 0.0]
          else if Qlt_le_dec c 0 then
            [servo_controller_set_afrs_angle c (inject_Z o)]
          else [servo_controller_set_afrs_angle (inject_Z o) c] in
        (Py.Returned tt,
         {| base := after_steering_calls cs base';
            _afrs_angle := c;
            _port_motor_ratio :=
              if Qeq_bool c 0 then 1.0
              else if Qlt_le_dec c 0 then steering_translation (base self) (-1 * c)
              else 1.0;
            _stbd_motor_ratio :=
              if Qeq_bool c 0 then 1.0
              else if Qlt_le_dec c 0 then 1.0
              else steering_translation (base self) c;
            steering_calls := steering_calls self ++ cs |})
    end.
Proof.
  intros Hnew Emode. cbv zeta.
  unfold _set_afrs_steering_angle_from_inner_angle.
  assert (Qeq_bool a (_afrs_angle self) = false) as ->.
  { destruct (Qeq_bool a (_afrs_angle self)) eqn:E; [|reflexivity].
    apply Qeq_bool_iff in E. contradiction. }
  cbn [negb]. rewrite Emode.
  assert (∀ v, steering_translation base' v = steering_translation (base self) v) as Est.
  { intros v. unfold steering_translation.
    pose proof (set_steering_mode_keeps_config SteeringMode.AFRS (base self)) as Hc.
    rewrite Emode in Hc. cbn [snd] in Hc. rewrite Hc. reflexivity. }
  fold (_outer_angle geometry (_afrs_clamp M a)).
  destruct (_outer_angle geometry (_afrs_clamp M a)) as [e|o]; [reflexivity|].
  destruct (Qeq_bool (_afrs_clamp M a) 0); [reflexivity|].
  destruct (Qlt_le_dec (_afrs_clamp M a) 0); rewrite Est; reflexivity.
Qed.

(** X24: a new inner angle slows the motors of the inner side only.  With
    a maximum angle that is not negative, and once the change to AFRS has
    returned, the clamped angle lies within the maximum either way.  When
    the solver, run on the float of its absolute value, or [int] on the
    solver's result raises, the call ends with that exception, with the
    stored angle, the ratios and the servos as they were.  Otherwise the call
    returns and stores the clamped angle.  For a negative angle
    (counter-clockwise) the port ratio is [steering_translation] of the
    angle's absolute value, the starboard ratio 1.0, and the servos get the
    angle on port and, on starboard, the whole degrees that [int] leaves of
    the solver's result; for a positive angle it is the other way round; for
    angle 0 both ratios are 1.0, the ZZT sound is played and the servos get
    0.0 on both sides. *)
Theorem new_afrs_angle_slows_the_inner_side
    (geometry : Geometry.Vehicle float) (M a : Q) (self : Controller)
    (base' : MotionController) :
  ¬ a == _afrs_angle self →
  set_steering_mode (Some SteeringMode.AFRS) (base self) = (Py.Returned tt, base') →
  0 <= M →
  let r := _set_afrs_steering_angle_from_inner_angle geometry M a self in
  let c := _afrs_clamp M a in
  - M <= c ∧ c <= M
  ∧ match Geometry.and_then
            (Geometry.calculate_afrs_steering geometry (Py.float_of_Q (Qabs c)))
            Py.int_of_float with
    | inl e =>
        r = (Py.Raised e,
             {| base := base'; _afrs_angle := _afrs_angle self;
                _port_motor_ratio := _port_motor_ratio self;
                _stbd_motor_ratio := _stbd_motor_ratio self;
                steering_calls := steering_calls self |})
    | inr _outer_angle =>
        fst r = Py.Returned tt
        ∧ _afrs_angle (snd r) = c
        ∧ (c < 0 →
             _port_motor_ratio (snd r) = steering_translation (base self) (-1 * c)
             ∧ _stbd_motor_ratio (snd r) = 1.0
             ∧ steering_calls (snd r)
               = steering_calls self
                 ++ [servo_controller_set_afrs_angle c (inject_Z _outer_angle)])
        ∧ (0 < c →
             _port_motor_ratio (snd r) = 1.0
             ∧ _stbd_motor_ratio (snd r) = steering_translation (base self) c
             ∧ steering_calls (snd r)
               = steering_calls self
                 ++ [servo_controller_set_afrs_angle (inject_Z _outer_angle) c])
        ∧ (c == 0 →
             _port_motor_ratio (snd r) = 1.0
             ∧ _stbd_motor_ratio (snd r) = 1.0
             ∧ steering_calls (snd r)
               = steering_calls self
                 ++ [player_play_from_thread "ZZT";
                     servo_controller_set_afrs_angle 0.0 0.0])
    end.
Proof.
  intros Hnew Emode HM. cbv zeta.
  rewrite (new_angle_run geometry M a self base' Hnew Emode).
  destruct (_afrs_clamp_range M a HM) as [Hlo Hhi].
  split; [exact Hlo|]. split; [exact Hhi|].
  fold (_outer_angle geometry (_afrs_clamp M a)).
  destruct (_outer_angle geometry (_afrs_clamp M a)) as [e|o]; [reflexivity|].
  cbn [fst snd].
  cbn [_afrs_angle _port_motor_ratio _stbd_motor_ratio steering_calls].
  split; [reflexivity|]. split; [reflexivity|].
  set (c := _afrs_clamp M a) in *. clearbody c.
  destruct (Qeq_bool c 0) eqn:Ez.
  - apply Qeq_bool_iff in Ez. split; [|split].
    + intros Hc. rewrite Ez in Hc. apply Qlt_irrefl in Hc. contradiction.
    + intros Hc. rewrite Ez in Hc. apply Qlt_irrefl in Hc. contradiction.
    + intros _. repeat split; reflexivity.
  - apply Qeq_bool_neq in Ez.
    destruct (Qlt_le_dec c 0) as [Hneg|Hpos]; split; [|split| |split].
    + intros _. repeat split; reflexivity.
    + intros Hc. exfalso. apply (Qlt_irrefl 0). eapply Qlt_trans; eassumption.
    + intros Hc. contradiction.
    + intros Hc. exfalso. apply (Qlt_not_le _ _ Hc). exact Hpos.
    + intros _. repeat split; reflexivity.
    + intros Hc. contradiction.
Qed.

Lemma same_angle_run (geometry : Geometry.Vehicle float) (M a : Q) (self : Controller) :
  a == _afrs_angle self →
  _set_afrs_steering_angle_from_inner_angle geometry M a self
  = (Py.Returned tt,
     {| base := base self; _afrs_angle := _afrs_angle self;
        _port_motor_ratio := 1.0; _stbd_motor_ratio := 1.0;
        steering_calls := steering_calls self |}).
Proof.
  intros E. unfold _set_afrs_steering_angle_from_inner_angle.
  apply Qeq_bool_iff in E. rewrite E. reflexivity.
Qed.

(** X25: asking again for the angle just set loses the differential.  When
    a new angle within the maximum has been set, a second call with the same
    angle returns with both ratios at 1.0, although the stored angle is still
    that angle; it makes no call and changes nothing else.  (The angle has
    been set when the change to AFRS has returned and the solver and [int]
    have given the whole degrees of the outer angle.  When one of these two
    raises, the first call ends with that exception, and so does the second,
    which leaves the controller as the first left it.) *)
Theorem same_afrs_angle_again_resets_the_ratios
    (geometry : Geometry.Vehicle float) (M a : Q) (self : Controller)
    (base' : MotionController) :
  ¬ a == _afrs_angle self →
  set_steering_mode (Some SteeringMode.AFRS) (base self) = (Py.Returned tt, base') →
  - M <= a → a <= M →
  let r1 := _set_afrs_steering_angle_from_inner_angle geometry M a self in
  let r2 := _set_afrs_steering_angle_from_inner_angle geometry M a (snd r1) in
  match Geometry.and_then
          (Geometry.calculate_afrs_steering geometry
             (Py.float_of_Q (Qabs (_afrs_clamp M a))))
          Py.int_of_float with
  | inr _ =>
      fst r1 = Py.Returned tt ∧ fst r2 = Py.Returned tt
      ∧ _afrs_angle (snd r2) == a
      ∧ _port_motor_ratio (snd r2) = 1.0 ∧ _stbd_motor_ratio (snd r2) = 1.0
      ∧ steering_calls (snd r2) = steering_calls (snd r1)
      ∧ base (snd r2) = base (snd r1)
      ∧ (a < 0 → _port_motor_ratio (snd r1) == steering_translation (base self) (- a))
      ∧ (0 < a → _stbd_motor_ratio (snd r1) == steering_translation (base self) a)
  | inl e => fst r1 = Py.Raised e ∧ r2 = r1
  end.
Proof.
  intros Hnew Emode Hlo Hhi. cbv zeta.
  rewrite (new_angle_run geometry M a self base' Hnew Emode).
  fold (_outer_angle geometry (_afrs_clamp M a)).
  destruct (_outer_angle geometry (_afrs_clamp M a)) as [e|o] eqn:Houter.
  { cbn [fst snd]. split; [reflexivity|].
    apply set_steering_mode_returned in Emode as Hmode. destruct Hmode as [Hmode _].
    rewrite (new_angle_run geometry M a _ base');
      [ | cbn [_afrs_angle]; exact Hnew
        | cbn [base]; apply set_steering_mode_same; exact Hmode ].
    rewrite Houter. reflexivity. }
  cbn [fst snd].
  pose proof (_afrs_clamp_in_range M a Hlo Hhi) as Hc.
  rewrite same_angle_run by (cbn [_afrs_angle]; symmetry; exact Hc).
  cbn [fst snd _afrs_angle _port_motor_ratio _stbd_motor_ratio
       steering_calls base].
  split; [reflexivity|]. split; [reflexivity|]. split; [exact Hc|].
  split; [reflexivity|]. split; [reflexivity|]. split; [reflexivity|].
  split; [reflexivity|].
  assert (∀ u v, u == v →
            steering_translation (base self) u == steering_translation (base self) v)
    as Hst.
  { intros u v E. rewrite !steering_translation_unfold, E. reflexivity. }
  split; intros Ha.
  - assert (Qeq_bool (_afrs_clamp M a) 0 = false) as ->.
    { destruct (Qeq_bool (_afrs_clamp M a) 0) eqn:E; [|reflexivity].
      apply Qeq_bool_iff in E. rewrite Hc in E. rewrite E in Ha.
      apply Qlt_irrefl in Ha. contradiction. }
    destruct (Qlt_le_dec (_afrs_clamp M a) 0) as [_|Hge].
    + apply Hst. rewrite Hc. ring.
    + rewrite Hc in Hge. exfalso. apply (Qlt_not_le _ _ Ha). exact Hge.
  - assert (Qeq_bool (_afrs_clamp M a) 0 = false) as ->.
    { destruct (Qeq_bool (_afrs_clamp M a) 0) eqn:E; [|reflexivity].
      apply Qeq_bool_iff in E. rewrite Hc in E. rewrite E in Ha.
      apply Qlt_irrefl in Ha. contradiction. }
    destruct (Qlt_le_dec (_afrs_clamp M a) 0) as [Hlt|_].
    + rewrite Hc in Hlt. exfalso. apply (Qlt_irrefl 0).
      eapply Qlt_trans; eassumption.
    + apply Hst. exact Hc.
Qed.

(** X26: when the change to AFRS raises, the error is passed on and the
    steering is left alone: the stored angle and the two ratios are as
    before and the servos get no angle; only what [set_steering_mode] did
    before it raised remains. *)
Theorem new_afrs_angle_fails_with_the_mode
    (geometry : Geometry.Vehicle float) (M a : Q) (self : Controller)
    (e : Py.Exn) (base' : MotionController) :
  ¬ a == _afrs_angle self →
  set_steering_mode (Some SteeringMode.AFRS) (base self) = (Py.Raised e, base') →
  _set_afrs_steering_angle_from_inner_angle geometry M a self
  = (Py.Raised e,
     {| base := base'; _afrs_angle := _afrs_angle self;
        _port_motor_ratio := _port_motor_ratio self;
        _stbd_motor_ratio := _stbd_motor_ratio self;
        steering_calls := steering_calls self |}).
Proof.
  intros Hnew Emode. unfold _set_afrs_steering_angle_from_inner_angle.
  assert (Qeq_bool a (_afrs_angle self) = false) as ->.
  { destruct (Qeq_bool a (_afrs_angle self)) eqn:E; [|reflexivity].
    apply Qeq_bool_iff in E. contradiction. }
  cbn [negb]. rewrite Emode. reflexivity.
Qed.

End SteeringAngleFacts.

Section SteeringAngleOnTheBench.
Import Steering.
#[local] Existing Instance Bench.collaborators.
#[local] Existing Instance Bench.table.
#[local] Existing Instance SteeringBench.steering_collaborators.
#[local] Existing Instance Binary64Bench.cpython.
Local Open Scope Q_scope.

Lemma bench_afrs_returns (ms : list Motor) :
  Forall sided ms →
  set_steering_mode (Some SteeringMode.AFRS) (Bench.controller ms false)
  = (Py.Returned tt,
     snd (set_steering_mode (Some SteeringMode.AFRS) (Bench.controller ms false))).
Proof.
  intros Hs.
  destruct (install_afrs_lambdas_equips ms Hs) as (ms' & E & _).
  rewrite set_steering_mode_in_place by (discriminate || reflexivity).
  rewrite commit_mode_afrs. cbn [Bench.controller hardware motors].
  rewrite E. reflexivity.
Qed.

(** On the bench, 30 degrees to port: the exact outer angle is 15 degrees,
    the solver returns 14.999999999999998, and the starboard servo gets 14. *)
Lemma new_afrs_angle_slows_the_inner_side_witness :
  let self := SteeringBench.controller (Bench.four_motors 0 []) in
  let r := _set_afrs_steering_angle_from_inner_angle SteeringBench.geometry 45 (-30) self in
  fst r = Py.Returned tt
  ∧ _port_motor_ratio (snd r)
    = steering_translation (base self) (-1 * _afrs_clamp 45 (-30))
  ∧ _stbd_motor_ratio (snd r) = 1.0
  ∧ steering_calls (snd r) = [servo_controller_set_afrs_angle (-30) 14].
Proof.
  cbv zeta.
  pose proof (new_afrs_angle_slows_the_inner_side SteeringBench.geometry 45 (-30)
                (SteeringBench.controller (Bench.four_motors 0 []))
                _ ltac:(discriminate)
                (bench_afrs_returns _ (bench_four_motors_sided 0 []))
                ltac:(discriminate)) as H.
  cbv zeta in H.
  assert (Geometry.and_then
            (Geometry.calculate_afrs_steering SteeringBench.geometry
               (Py.float_of_Q (Qabs (_afrs_clamp 45 (-30)))))
            Py.int_of_float
          = inr 14%Z) as E by (vm_compute; reflexivity).
  rewrite E in H. destruct H as (_ & _ & Hret & _ & Hneg & _).
  destruct Hneg as (Hp & Hs & Hcalls); [reflexivity|].
  split; [exact Hret|]. split; [exact Hp|]. split; [exact Hs|].
  rewrite Hcalls. reflexivity.
Defined.

Lemma same_afrs_angle_again_resets_the_ratios_witness :
  let self := SteeringBench.controller (Bench.four_motors 0 []) in
  let r1 := _set_afrs_steering_angle_from_inner_angle SteeringBench.geometry 45 30 self in
  let r2 := _set_afrs_steering_angle_from_inner_angle SteeringBench.geometry 45 30 (snd r1) in
  _afrs_angle (snd r2) == 30 ∧ _stbd_motor_ratio (snd r2) = 1.0.
Proof.
  cbv zeta.
  pose proof (same_afrs_angle_again_resets_the_ratios SteeringBench.geometry 45 30
                (SteeringBench.controller (Bench.four_motors 0 []))
                _ ltac:(discriminate)
                (bench_afrs_returns _ (bench_four_motors_sided 0 []))
                ltac:(discriminate) ltac:(discriminate)) as H.
  cbv zeta in H.
  assert (Geometry.and_then
            (Geometry.calculate_afrs_steering SteeringBench.geometry
               (Py.float_of_Q (Qabs (_afrs_clamp 45 30))))
            Py.int_of_float
          = inr 14%Z) as E by (vm_compute; reflexivity).
  rewrite E in H. destruct H as (_ & _ & Ha & _ & Hs & _).
  split; [exact Ha | exact Hs].
Defined.

Lemma new_afrs_angle_fails_with_the_mode_witness :
  let ms := [Bench.motor Orientation.PFWD 0 []; Bench.motor Orientation.CNTR 0 []] in
  fst (_set_afrs_steering_angle_from_inner_angle SteeringBench.geometry 45 30
         (SteeringBench.controller ms))
  = Py.Raised (Py.Exception "unrecognised orientation").
Proof.
  cbv zeta.
  rewrite (new_afrs_angle_fails_with_the_mode SteeringBench.geometry 45 30
             (SteeringBench.controller
                [Bench.motor Orientation.PFWD 0 []; Bench.motor Orientation.CNTR 0 []])
             (Py.Exception "unrecognised orientation")
             (snd (set_steering_mode (Some SteeringMode.AFRS)
                     (Bench.controller
                        [Bench.motor Orientation.PFWD 0 [];
                         Bench.motor Orientation.CNTR 0 []] false))));
    [reflexivity | discriminate | vm_compute; reflexivity].
Defined.

End SteeringAngleOnTheBench.

